(** * Python command terminal: sessions, advisory locks, history, classifier

    A shallow embedding of the session and resource-locking core of the
    terminal (terminal.py, history.py, enhanced_history.py,
    session_manager.py, unified_processor.py) together with the properties
    its specification states about it.

    Conventions of the embedding.
    - A JSON file holding a dict is a [gmap] keyed by strings; a JSON list is
      a [list]; a text file is an [option string] ([None]: no such file).
    - Readings of [time.time()] are rationals; only their order and
      differences are used by the code.
    - The backing files are read and written reliably: the [except IOError]
      arms of the loaders and savers (which turn a failed read into an empty
      value and a failed write into a no-op) are not part of the model.
    - Python strings are modelled as strings of 8-bit characters, and the
      character classes ([str.isspace], [\s], [\w], upper case) are those
      of the ASCII range. *)

From Stdlib Require Import Ascii String QArith Lqa.
From Stdlib Require Import DecimalString DecimalPos DecimalZ.
From stdpp Require Import base decidable option list sorting strings gmap fin_maps.

Local Open Scope Z_scope.

(** Comparisons of clock readings are decidable. *)
#[global] Instance Qlt_decision (x y : Q) : Decision (x < y)%Q :=
  match Qlt_le_dec x y with
  | left Hlt => left Hlt
  | right Hle => right (Qle_not_lt _ _ Hle)
  end.

(** ** Lock manager (terminal.py, lines 15-72) *)

Module Locks.

(** One value of the lock table: [{'session_id': ..., 'timestamp': ...}].
    [_acquire_lock], the only writer, stores both keys. *)
Record lock_info := LockInfo {
  session_id : string;
  timestamp : Q
}.

Abbreviation lock_table := (gmap string lock_info).

(** [current_time - lock_info.get('timestamp', 0) > 300] *)
Definition expired (current_time : Q) (lock_info : lock_info) : Prop :=
  (300 < current_time - timestamp lock_info)%Q.

#[global] Instance expired_dec now l : Decision (expired now l) :=
  Qlt_decision _ _.

(** The clean-up loop of [_acquire_lock]: every expired entry is deleted
    from the dict that was loaded. *)
Definition purge (current_time : Q) (locks : lock_table) : lock_table :=
  filter (λ kv, ¬ expired current_time kv.2) locks.

(** [resource_path in locks and locks[resource_path]['session_id'] != session_id] *)
Definition held_by_other (locks : lock_table) (sid resource_path : string) : bool :=
  match locks !! resource_path with
  | Some l => negb (String.eqb (session_id l) sid)
  | None => false
  end.

(** [_acquire_lock]: the result and the contents of the lock file after the
    call. The file is rewritten ([_save_locks]) on the successful path only. *)
Definition _acquire_lock (current_time : Q) (sid resource_path : string)
    (file : lock_table) : bool * lock_table :=
  let locks := purge current_time file in
  if held_by_other locks sid resource_path then (false, file)
  else (true, <[resource_path := LockInfo sid current_time]> locks).

(** [_release_lock]: the contents of the lock file after the call. *)
Definition _release_lock (sid resource_path : string) (file : lock_table)
    : lock_table :=
  match file !! resource_path with
  | Some l => if String.eqb (session_id l) sid then delete resource_path file
              else file
  | None => file
  end.

(** [_check_lock]: the holder, when it is another session. *)
Definition _check_lock (sid resource_path : string) (file : lock_table)
    : option string :=
  if held_by_other file sid resource_path
  then session_id <$> file !! resource_path
  else None.

(** [p] is locked by [sid] in the table. *)
Definition held_by (locks : lock_table) (sid p : string) : Prop :=
  ∃ l, locks !! p = Some l ∧ session_id l = sid.

(** [p] is locked in the table, by a session that is not [sid]. *)
Definition held_by_another (locks : lock_table) (sid p : string) : Prop :=
  ∃ l, locks !! p = Some l ∧ session_id l ≠ sid.

End Locks.

(** ** Python string primitives used by the code *)

Module PyStr.

Definition code (c : ascii) : N := N_of_ascii c.

(** [str.isspace] and the class [\s], on the ASCII range. *)
Definition is_space (c : ascii) : bool :=
  let n := code c in
  ((9 <=? n) && (n <=? 13) || (28 <=? n) && (n <=? 32))%N.

Definition is_upper (c : ascii) : bool :=
  let n := code c in ((65 <=? n) && (n <=? 90))%N.

Definition is_digit (c : ascii) : bool :=
  let n := code c in ((48 <=? n) && (n <=? 57))%N.

(** The class [\w], on the ASCII range. *)
Definition is_word (c : ascii) : bool :=
  let n := code c in
  (is_digit c || is_upper c || (97 <=? n) && (n <=? 122) || (n =? 95))%N.

Definition lower_char (c : ascii) : ascii :=
  if is_upper c then ascii_of_N (code c + 32) else c.

(** [s.lower()] *)
Fixpoint lower (s : string) : string :=
  match s with
  | EmptyString => EmptyString
  | String c s' => String (lower_char c) (lower s')
  end.

Fixpoint lstrip (s : string) : string :=
  match s with
  | String c s' => if is_space c then lstrip s' else s
  | EmptyString => EmptyString
  end.

Fixpoint rstrip (s : string) : string :=
  match s with
  | EmptyString => EmptyString
  | String c s' =>
      match rstrip s' with
      | EmptyString => if is_space c then EmptyString else String c EmptyString
      | r => String c r
      end
  end.

(** [s.strip()] *)
Definition strip (s : string) : string := rstrip (lstrip s).

(** [s.split()]: the maximal runs of non-space characters; [cur] is the run
    being read. *)
Fixpoint split_from (cur s : string) : list string :=
  match s with
  | EmptyString => if String.eqb cur "" then [] else [cur]
  | String c s' =>
      if is_space c
      then (if String.eqb cur "" then split_from "" s' else cur :: split_from "" s')
      else split_from (cur +:+ String c "") s'
  end.

Definition split (s : string) : list string := split_from "" s.

(** [needle in hay] *)
Fixpoint contains (needle hay : string) : bool :=
  String.prefix needle hay ||
  match hay with
  | String _ hay' => contains needle hay'
  | EmptyString => false
  end.

(** [x in [a, b, ...]] for strings. *)
Definition mem (x : string) (l : list string) : bool :=
  existsb (String.eqb x) l.

(** [any(keyword in text for keyword in keywords)] *)
Definition any_in (keywords : list string) (text : string) : bool :=
  existsb (fun k => contains k text) keywords.

(** [sep.join(items)] *)
Definition join (sep : string) (items : list string) : string :=
  String.concat sep items.

(** Every character of [s] satisfies [P]. *)
Fixpoint all_chars (P : ascii → bool) (s : string) : bool :=
  match s with
  | EmptyString => true
  | String c s' => P c && all_chars P s'
  end.

(** The characters of a rendered integer: digits, and a sign. *)
Definition is_int_char (c : ascii) : bool :=
  is_digit c || Ascii.eqb c "-".

(** [str(n)] for an integer. *)
Definition str_int (n : Z) : string := NilZero.string_of_int (Z.to_int n).

End PyStr.

(** ** History store (history.py and enhanced_history.py) *)

(** The directory [data/sessions]: the file [<id>.json] holds the JSON list
    of the commands of session [id]. *)
Abbreviation sessions_dir := (gmap string (list string)).

Module history.

Definition load_history (sid : string) (dir : sessions_dir) : list string :=
  match dir !! sid with
  | Some commands => commands
  | None => []
  end.

Definition save_history (sid : string) (commands : list string)
    (dir : sessions_dir) : sessions_dir :=
  <[sid := commands]> dir.

(** [history.append(command)] between a load and a save. *)
Definition add_command (sid command : string) (dir : sessions_dir)
    : sessions_dir :=
  let history := load_history sid dir in
  save_history sid (history ++ [command]) dir.

End history.

Module EnhancedHistoryManager.

(** The attributes of the manager object that [add_command] touches. *)
Record manager := Manager {
  current_session_commands : list string;
  all_commands_cache : option (list string)
}.

Definition load_session_history (sid : string) (dir : sessions_dir)
    : list string :=
  match dir !! sid with
  | Some commands => commands
  | None => []
  end.

Definition save_session_history (sid : string) (commands : list string)
    (dir : sessions_dir) : sessions_dir :=
  <[sid := commands]> dir.

(** [not l or l[-1] != command] *)
Definition differs_from_last (l : list string) (command : string) : bool :=
  match last l with
  | None => true
  | Some c => negb (String.eqb c command)
  end.

Definition add_command (sid command : string)
    (self : manager) (dir : sessions_dir) : manager * sessions_dir :=
  let history := load_session_history sid dir in
  let history :=
    if differs_from_last history command then history ++ [command]
    else history in
  let dir := save_session_history sid history dir in
  let cache := current_session_commands self in
  let cache :=
    if differs_from_last cache command then cache ++ [command] else cache in
  (Manager cache None, dir).


(** [get_session_history] *)
Definition get_session_history (sid : string) (dir : sessions_dir)
    : list string :=
  load_session_history sid dir.

(** The set [all_commands] that [get_all_commands] builds from every
    session file. *)
Definition all_commands (dir : sessions_dir) : gset string :=
  ⋃ (list_to_set <$> (map_to_list dir).*2).

(** [get_all_commands]. [mtime] is the reading of [os.path.getmtime] on the
    sessions directory and [cache_timestamp] the attribute of that name,
    whose new value is returned last. [list(all_commands)] lists the set in
    an order the language leaves open; here it is the order of
    [elements]. *)
Definition get_all_commands (mtime cache_timestamp : Q)
    (self : manager) (dir : sessions_dir) : list string * manager * Q :=
  let current_time := mtime in
  let rebuild :=
    let cache := elements (all_commands dir) in
    (cache, Manager (current_session_commands self) (Some cache),
     current_time) in
  match all_commands_cache self with
  | None => rebuild
  | Some cache =>
      if decide (cache_timestamp < current_time)%Q then rebuild
      else (cache, self, cache_timestamp)
  end.

(** [l[-limit:]] *)
Definition slice_last (limit : Z) (l : list string) : list string :=
  if (0 <? limit)%Z then drop (length l - Z.to_nat limit) l
  else drop (Z.to_nat (- limit)) l.

(** [get_recent_commands] *)
Definition get_recent_commands (limit : Z) (self : manager) : list string :=
  match current_session_commands self with
  | [] => []
  | l => slice_last limit l
  end.

(** No entry of [l] is followed by an equal one. *)
Fixpoint no_repeat (l : list string) : Prop :=
  match l with
  | a :: (b :: _) as rest => a ≠ b ∧ no_repeat rest
  | _ => True
  end.

End EnhancedHistoryManager.

(** ** Session store (session_manager.py) *)

Module SessionManager.

(** One value of [session_info]; the key ['process_id'] is present only for
    the sessions created for a process. *)
Record session_meta := SessionMeta {
  working_directory : string;
  created_at : Q;
  last_accessed : Q;
  process_id : option Z
}.

(** What the manager reads and writes outside its own object: the files
    under [data/], and the working directory of the process with the two
    facts about paths that [switch_session] asks for. *)
Record world := World {
  sessions : sessions_dir;                       (* data/sessions/<id>.json *)
  current_session_file : option string;          (* data/current_session.txt *)
  session_info_file : gmap string session_meta;  (* data/session_info.json *)
  process_session_file : gmap Z string;          (* data/process_<pid>_session.txt *)
  cwd : string;                                  (* os.getcwd() *)
  path_exists : string → bool;                   (* os.path.exists *)
  chdir_ok : string → bool                       (* os.chdir raises no OSError *)
}.

(** The manager object: [self.session_info]. *)
Record manager := Manager {
  session_info : gmap string session_meta
}.

Definition set_sessions (d : sessions_dir) (w : world) : world :=
  World d (current_session_file w) (session_info_file w)
    (process_session_file w) (cwd w) (path_exists w) (chdir_ok w).

Definition set_current_session_file (c : option string) (w : world) : world :=
  World (sessions w) c (session_info_file w)
    (process_session_file w) (cwd w) (path_exists w) (chdir_ok w).

Definition set_session_info_file (i : gmap string session_meta) (w : world)
    : world :=
  World (sessions w) (current_session_file w) i
    (process_session_file w) (cwd w) (path_exists w) (chdir_ok w).

Definition set_process_session_file (p : gmap Z string) (w : world) : world :=
  World (sessions w) (current_session_file w) (session_info_file w)
    p (cwd w) (path_exists w) (chdir_ok w).

Definition set_cwd (d : string) (w : world) : world :=
  World (sessions w) (current_session_file w) (session_info_file w)
    (process_session_file w) d (path_exists w) (chdir_ok w).

(** [_save_session_info]: the whole in-memory dict replaces the file. *)
Definition _save_session_info (self : manager) (w : world) : world :=
  set_session_info_file (session_info self) w.

(** [list_sessions]: the ids of the [.json] files, sorted. *)
Definition list_sessions (w : world) : list string :=
  merge_sort (λ a b, Is_true (String.leb a b)) (elements (dom (sessions w))).

(** [create_new_session]; [t_created] and [t_accessed] are the two readings
    of [_get_timestamp]. *)
Definition create_new_session (t_created t_accessed : Q)
    (self : manager) (w : world) : string * manager * world :=
  let sessions_ := list_sessions w in
  let session_id :=
    "session_" +:+ PyStr.str_int (Z.of_nat (length sessions_) + 1) in
  let w := set_sessions (<[session_id := []]> (sessions w)) w in
  let self :=
    Manager (<[session_id :=
                 SessionMeta (cwd w) t_created t_accessed None]>
               (session_info self)) in
  let w := _save_session_info self w in
  let w := set_current_session_file (Some session_id) w in
  (session_id, self, w).

(** [int(x)] for a float: truncation toward zero. *)
Definition int_of_time (x : Q) : Z := Z.quot (Qnum x) (Zpos (Qden x)).

(** [f"session_{process_id}_{timestamp}"] *)
Definition process_session_id (pid timestamp : Z) : string :=
  "session_" +:+ PyStr.str_int pid +:+ "_" +:+ PyStr.str_int timestamp.

(** [_create_unique_session_for_process]; [now] is the reading of
    [time.time()] that names the session. *)
Definition _create_unique_session_for_process (pid : Z)
    (now t_created t_accessed : Q) (self : manager) (w : world)
    : string * manager * world :=
  let timestamp := int_of_time now in
  let session_id := process_session_id pid timestamp in
  let w := set_sessions (<[session_id := []]> (sessions w)) w in
  let self :=
    Manager (<[session_id :=
                 SessionMeta (cwd w) t_created t_accessed (Some pid)]>
               (session_info self)) in
  let w := _save_session_info self w in
  let w :=
    set_process_session_file (<[pid := session_id]> (process_session_file w)) w in
  (session_id, self, w).

(** [get_current_session], called in the process [pid]. *)
Definition get_current_session (pid : Z) (now t_created t_accessed : Q)
    (self : manager) (w : world) : string * manager * world :=
  match process_session_file w !! pid with
  | Some content => (PyStr.strip content, self, w)
  | None =>
      _create_unique_session_for_process pid now t_created t_accessed self w
  end.

(** The dict returned by [get_session_details]. *)
Record details := Details {
  info : session_meta;
  command_count : nat;
  working_directory_status : bool    (* 'valid' / 'invalid' *)
}.

(** [get_session_details] with an explicit session id. *)
Definition get_session_details (session_id : string)
    (self : manager) (w : world) : option details :=
  match session_info self !! session_id with
  | None => None
  | Some i =>
      let n := length (history.load_history session_id (sessions w)) in
      if path_exists w (working_directory i)
      then Some (Details i n true)
      else Some (Details
                   (SessionMeta (cwd w) (created_at i) (last_accessed i)
                      (process_id i)) n false)
  end.

(** [self.session_info[session_id]['last_accessed'] = t] *)
Definition touch (t : Q) (i : session_meta) : session_meta :=
  SessionMeta (working_directory i) (created_at i) t (process_id i).

(** The paths of the manager are relative ([data/current_session.txt] and
    the like): they are resolved in the directory the process is in. What
    [data/] leads to from a directory the process has entered: the data
    directory the world describes, another one, or nothing that can be
    written ([open] raises an [OSError]: a [FileNotFoundError] when the
    directory has no [data]). *)
Inductive view :=
  | same_data
  | other_data
  | unwritable.

(** How a call of [switch_session] ends. After [Strayed] and [Raised] the
    process is in a directory from which [data/] is not the data directory
    of the world, whose current-session file was not written. *)
Inductive switched :=
  | Returned (ok : bool) (self : manager) (w : world)
  | Strayed (self : manager) (w : world)
      (* returned [True]; line 164 wrote the id to the file
         [data/current_session.txt] of the directory entered *)
  | Raised (self : manager) (w : world).
      (* line 164 raised the [OSError] *)

Definition manager_of (r : switched) : manager :=
  match r with Returned _ self _ | Strayed self _ | Raised self _ => self end.

(** The data files the call started with, as it leaves them, and the
    directory the process is in. *)
Definition files (r : switched) : world :=
  match r with Returned _ _ w | Strayed _ w | Raised _ w => w end.


(** Lines 157-162: the directory [switch_session] enters, when it enters
    one. *)
Definition entered (session_id : string) (self : manager) (w : world)
    : option string :=
  match get_session_details session_id self w with
  | Some d =>
      if working_directory_status d
      then (if chdir_ok w (working_directory (info d))
            then Some (working_directory (info d))
            else None)
      else None
  | None => None
  end.

(** [switch_session]; [now] is the reading of [_get_timestamp], and [look]
    tells what [data/] leads to from a directory. The metadata are saved
    before the process changes directory, the current-session file is
    opened after. *)
Definition switch_session (session_id : string) (now : Q)
    (look : string → view) (self : manager) (w : world) : switched :=
  let sessions_ := list_sessions w in
  if PyStr.mem session_id sessions_ then
    let '(self, w) :=
      match session_info self !! session_id with
      | Some i =>
          let self := Manager (<[session_id := touch now i]> (session_info self)) in
          (self, _save_session_info self w)
      | None => (self, w)
      end in
    match entered session_id self w with
    | None =>
        Returned true self (set_current_session_file (Some session_id) w)
    | Some directory =>
        let w := set_cwd directory w in
        match look directory with
        | same_data =>
            Returned true self
              (set_current_session_file (Some session_id) w)
        | other_data => Strayed self w
        | unwritable => Raised self w
        end
    end
  else Returned false self w.

(** [cleanup_old_sessions]; [current_time] is the reading of [time.time()]. *)
Definition cleanup_old_sessions (days : Z) (current_time : Q)
    (self : manager) (w : world) : nat * manager * world :=
  let cutoff_time := (current_time - inject_Z (days * 24 * 60 * 60))%Q in
  let stale (kv : string * session_meta) : Prop :=
    (last_accessed kv.2 < cutoff_time)%Q in
  let sessions_to_remove := filter stale (session_info self) in
  let keep (kv : string * list string) : Prop :=
    sessions_to_remove !! kv.1 = None in
  if decide (sessions_to_remove = ∅) then (0%nat, self, w)
  else
    let self := Manager (filter (λ kv, ¬ stale kv) (session_info self)) in
    let w := set_sessions (filter keep (sessions w)) w in
    (size sessions_to_remove, self, _save_session_info self w).

(** [cleanup_process_session], called in the process [pid]. *)
Definition cleanup_process_session (pid : Z) (w : world) : world :=
  set_process_session_file (delete pid (process_session_file w)) w.

(** The binding files hold what [_create_unique_session_for_process], their
    only writer, puts there: for the process [pid], an id made from [pid]. *)
Definition bindings_wf (w : world) : Prop :=
  ∀ pid content, process_session_file w !! pid = Some content →
    ∃ timestamp, content = process_session_id pid timestamp.

(** The world before anything was stored. *)
Definition empty_world (cwd : string) (path_exists chdir_ok : string → bool)
    : world :=
  World ∅ None ∅ ∅ cwd path_exists chdir_ok.

(** [update_working_directory]; [now] is the reading of [_get_timestamp]. *)
Definition update_working_directory (session_id new_directory : string)
    (now : Q) (self : manager) (w : world) : manager * world :=
  match session_info self !! session_id with
  | Some i =>
      let self :=
        Manager (<[session_id :=
                     SessionMeta new_directory (created_at i) now
                       (process_id i)]> (session_info self)) in
      (self, _save_session_info self w)
  | None => (self, w)
  end.

(** [get_working_directory] with an explicit session id. *)
Definition get_working_directory (session_id : string)
    (self : manager) (w : world) : string :=
  match session_info self !! session_id with
  | Some i => working_directory i
  | None => cwd w
  end.

(** [f"session_{n}"], the ids [create_new_session] gives. *)
Definition session_name (n : Z) : string := "session_" +:+ PyStr.str_int n.

(** The stored sessions are [session_1], ..., [session_n] and no other. *)
Definition numbered (n : nat) (w : world) : Prop :=
  ∀ id, is_Some (sessions w !! id) ↔
        ∃ k : Z, 1 ≤ k ≤ Z.of_nat n ∧ id = session_name k.

(** The threshold of [cleanup_old_sessions]. *)
Definition cutoff (days : Z) (current_time : Q) : Q :=
  (current_time - inject_Z (days * 24 * 60 * 60))%Q.

(** [__init__]. [_ensure_current_session_exists] runs before
    [_load_session_info], so when it calls [create_new_session] the
    attribute [self.session_info] is not set yet: line 101 raises an
    [AttributeError], after line 97 wrote the history file and before
    anything else is written. [None] stands for that exception. Otherwise
    the manager starts with what the metadata file holds. *)
Definition __init__ (w : world) : option manager * world :=
  match current_session_file w with
  | None =>
      let sessions_ := list_sessions w in
      let session_id :=
        "session_" +:+ PyStr.str_int (Z.of_nat (length sessions_) + 1) in
      (None, set_sessions (<[session_id := []]> (sessions w)) w)
  | Some _ => (Some (Manager (session_info_file w)), w)
  end.

(** The world after [n] attempts to construct the manager. *)
Definition attempts (n : nat) (w : world) : world :=
  Nat.iter n (λ w, (__init__ w).2) w.

End SessionManager.

(** ** Input classifier (unified_processor.py) *)

Module UnifiedProcessor.

Import PyStr.

(** The regular expressions of the module, all of one shape: literal text,
    [\s+], [\s*], one capturing [(\w+)] and [$], matched from the start of
    the text as [re.match] does. *)
Inductive re_item :=
  | Lit (text : string)
  | Spaces1            (* \s+ *)
  | Spaces0            (* \s* *)
  | Word1              (* (\w+), the group 1 *)
  | Eos.               (* $ *)

(** [text] minus the prefix [p], when it starts with [p]. *)
Fixpoint drop_prefix (p text : string) : option string :=
  match p, text with
  | EmptyString, _ => Some text
  | String a p', String b text' =>
      if Ascii.eqb a b then drop_prefix p' text' else None
  | String _ _, EmptyString => None
  end.

(** A greedy repetition of a character class: the longest run is tried
    first and given back one character at a time while the rest of the
    pattern, [k], fails; [seen] is the run consumed so far. *)
Fixpoint greedy {A} (cls : ascii → bool) (k : string → string → option A)
    (seen text : string) : option A :=
  match text with
  | String c text' =>
      if cls c then
        match greedy cls k (seen +:+ String c "") text' with
        | Some r => Some r
        | None => k seen text
        end
      else k seen text
  | EmptyString => k seen text
  end.

(** The same with at least one character of the class. *)
Definition greedy1 {A} (cls : ascii → bool) (k : string → string → option A)
    (text : string) : option A :=
  match text with
  | String c text' => if cls c then greedy cls k (String c "") text' else None
  | EmptyString => None
  end.

(** [re.match(pattern, text)]: [None], or the groups of the match. *)
Fixpoint re_match (pattern : list re_item) (text : string)
    : option (list string) :=
  match pattern with
  | [] => Some []
  | Lit l :: rest =>
      match drop_prefix l text with
      | Some text' => re_match rest text'
      | None => None
      end
  | Spaces1 :: rest => greedy1 is_space (λ _, re_match rest) text
  | Spaces0 :: rest => greedy is_space (λ _, re_match rest) "" text
  | Word1 :: rest =>
      greedy1 is_word (λ seen text', cons seen <$> re_match rest text') text
  | Eos :: rest =>
      (* the end of the text, or just before a final newline *)
      if String.eqb text "" || String.eqb text (String "010" "")
      then re_match rest text else None
  end.

Definition matches (pattern : list re_item) (text : string) : bool :=
  bool_decide (is_Some (re_match pattern text)).

(** [match.group(1)] *)
Definition group1 (pattern : list re_item) (text : string) : option string :=
  g ← re_match pattern text; head g.

Inductive classification :=
  | direct_command
  | simple_folder_creation
  | simple_file_creation
  | file_operation
  | system_query
  | natural_language
  | chat
  | conversation_toggle
  | unknown
  | empty.

#[global] Instance classification_eq_dec : EqDecision classification.
Proof. solve_decision. Defined.

(** [self.chat_keywords] *)
Definition chat_keywords : list string :=
  [ "hello"; "hi"; "hey"; "thanks"; "thank you"; "please"; "help me";
    "can you"; "could you"; "would you"; "what is"; "how do"; "why";
    "explain"; "tell me"; "show me"; "i need"; "i want"; "i am";
    "my name is"; "i am working on"; "i have a problem"; "i need help" ].

(** [self.direct_command_patterns] *)
Definition direct_command_patterns : list (list re_item) :=
  [ [Lit "cd"; Spaces1]; [Lit "ls"; Spaces0]; [Lit "pwd"; Spaces0];
    [Lit "exit"; Spaces0]; [Lit "help"; Spaces0]; [Lit "clear"; Spaces0];
    [Lit "mkdir"; Spaces1]; [Lit "touch"; Spaces1]; [Lit "rm"; Spaces1];
    [Lit "cp"; Spaces1]; [Lit "mv"; Spaces1]; [Lit "cat"; Spaces1];
    [Lit "edit"; Spaces1]; [Lit "find"; Spaces1]; [Lit "grep"; Spaces1];
    [Lit "ps"; Spaces0]; [Lit "cpu"; Spaces0]; [Lit "mem"; Spaces0];
    [Lit "df"; Spaces0]; [Lit "date"; Spaces0]; [Lit "whoami"; Spaces0];
    [Lit "uname"; Spaces0]; [Lit "echo"; Spaces1]; [Lit "history"; Spaces0];
    [Lit "stats"; Spaces0]; [Lit "newterm"; Spaces0];
    [Lit "sessions"; Spaces0]; [Lit "switch"; Spaces1] ].

(** The pattern [^<verb>\s+<noun>\s+(\w+)$]. *)
Definition named (verb noun : string) : list re_item :=
  [Lit verb; Spaces1; Lit noun; Spaces1; Word1; Eos].

(** The pattern [^<verb>\s+<noun>\s+called\s+(\w+)$]. *)
Definition called (verb noun : string) : list re_item :=
  [Lit verb; Spaces1; Lit noun; Spaces1; Lit "called"; Spaces1; Word1; Eos].

(** [simple_patterns] of [_is_simple_folder_creation], which are also the
    [patterns] of [_handle_simple_folder_creation]. *)
Definition folder_patterns : list (list re_item) :=
  [ named "create" "folder"; named "make" "folder"; named "new" "folder";
    named "create" "directory"; named "make" "directory";
    named "new" "directory";
    called "create" "folder"; called "make" "folder";
    called "create" "directory"; called "make" "directory" ].

(** [simple_patterns] of [_is_simple_file_creation]. *)
Definition file_patterns : list (list re_item) :=
  [ named "create" "file"; named "make" "file"; named "new" "file";
    called "create" "file"; called "make" "file" ].

Definition toggle_commands : list string :=
  ["chat"; "conversation"; "talk"; "converse"].

Definition _is_conversation_toggle (user_input : string) : bool :=
  mem (lower user_input) toggle_commands.

Definition _is_file_operation (text : string) : bool :=
  any_in [ "create"; "make"; "new"; "file"; "folder"; "directory";
           "delete"; "remove"; "copy"; "move"; "rename"; "edit";
           "open"; "read"; "write"; "save"; "find"; "search" ] text.

Definition _is_simple_folder_creation (text : string) : bool :=
  let text_lower := lower text in
  existsb (λ pattern, matches pattern text_lower) folder_patterns.

Definition _is_simple_file_creation (text : string) : bool :=
  let text_lower := lower text in
  existsb (λ pattern, matches pattern text_lower) file_patterns.

Definition _is_system_query (text : string) : bool :=
  any_in [ "cpu"; "memory"; "disk"; "process"; "system"; "info";
           "usage"; "performance"; "status"; "running"; "active";
           "what time"; "current time"; "date"; "who am i"; "user";
           "files"; "directory"; "folder"; "list"; "show me";
           "what files"; "what is my"; "how much"; "how many" ] text.

Definition _is_chat_input (text : string) : bool :=
  any_in chat_keywords text.

Definition _is_natural_language (text : string) : bool :=
  let words := split text in
  if (1 <? length words)%nat then
    any_in [ "create"; "make"; "show"; "list"; "find"; "search";
             "move"; "copy"; "delete"; "remove"; "open"; "read";
             "write"; "save"; "edit"; "change"; "update"; "modify";
             "what"; "how"; "where"; "when"; "why"; "which"; "who" ] text
  else false.

Definition _classify_input (user_input : string) : classification :=
  let user_input_lower := lower user_input in
  if mem (lower user_input) toggle_commands then conversation_toggle
  else if (length (split user_input) =? 1)%nat &&
          mem user_input
            [ "ls"; "pwd"; "ps"; "cpu"; "mem"; "df"; "date"; "whoami";
              "uname"; "clear"; "exit"; "history"; "stats"; "newterm";
              "sessions" ]
  then direct_command
  else if existsb (λ pattern, matches pattern user_input)
            direct_command_patterns
  then direct_command
  else if _is_simple_folder_creation user_input_lower
  then simple_folder_creation
  else if _is_simple_file_creation user_input_lower
  then simple_file_creation
  else if _is_system_query user_input_lower then system_query
  else if _is_file_operation user_input_lower then file_operation
  else if _is_natural_language user_input_lower then natural_language
  else if _is_chat_input user_input_lower then chat
  else unknown.

(** The label [process_input] settles on before it dispatches, outside
    conversation mode: lines 78-92. *)
Definition input_type (user_input : string) : classification :=
  let user_input := strip user_input in
  if String.eqb user_input "" then empty
  else if _is_conversation_toggle user_input ||
          bool_decide (_classify_input user_input = conversation_toggle)
  then conversation_toggle
  else _classify_input user_input.

(** The name [_handle_simple_folder_creation] passes to [mkdir]: group 1 of
    the first pattern that matches; [None] stands for the "Could not
    extract folder name" result. *)
Definition folder_name (user_input : string) : option string :=
  let text_lower := lower user_input in
  let found :=
    list_find (λ pattern, is_Some (re_match pattern text_lower))
      folder_patterns in
  name ← (found ≫= λ '(_, pattern), group1 pattern text_lower);
  if String.eqb name "" then None else Some name.


(** The inputs [<verb> <noun> <name>], with one space between the words. *)
Definition fast_path_input (verb noun name : string) : string :=
  verb +:+ " " +:+ noun +:+ " " +:+ name.

(** The name [_handle_simple_file_creation] passes to [touch]: group 1 of
    the first pattern that matches; [None] stands for the "Could not
    extract file name" result. *)
Definition file_name (user_input : string) : option string :=
  let text_lower := lower user_input in
  let found :=
    list_find (λ pattern, is_Some (re_match pattern text_lower))
      file_patterns in
  name ← (found ≫= λ '(_, pattern), group1 pattern text_lower);
  if String.eqb name "" then None else Some name.

End UnifiedProcessor.

(** ** Command executor (terminal.py, [run_command]) *)

Module Terminal.

Import PyStr.
Export Locks.

(** *** Exceptions *)

(** The exception classes the function distinguishes, and the two that are
    not instances of [Exception]. *)
Inductive exn_class :=
  | OSError
  | FileNotFoundError      (* a subclass of OSError *)
  | UnicodeDecodeError
  | TimeoutExpired         (* subprocess.TimeoutExpired *)
  | NoSuchProcess          (* psutil.NoSuchProcess *)
  | AccessDenied           (* psutil.AccessDenied *)
  | EOFError
  | OtherException         (* any other instance of Exception *)
  | KeyboardInterrupt      (* BaseException only *)
  | SystemExit.            (* BaseException only *)

(** An exception object: its class and [str(e)]. *)
Record exn := Exn { cls : exn_class; str : string }.

Definition is_OSError (c : exn_class) : bool :=
  match c with OSError | FileNotFoundError => true | _ => false end.

Definition is_UnicodeDecodeError (c : exn_class) : bool :=
  match c with UnicodeDecodeError => true | _ => false end.

Definition is_TimeoutExpired (c : exn_class) : bool :=
  match c with TimeoutExpired => true | _ => false end.

Definition is_FileNotFoundError (c : exn_class) : bool :=
  match c with FileNotFoundError => true | _ => false end.

Definition is_psutil_gone (c : exn_class) : bool :=
  match c with NoSuchProcess | AccessDenied => true | _ => false end.

Definition is_Exception (c : exn_class) : bool :=
  match c with KeyboardInterrupt | SystemExit => false | _ => true end.

(** What evaluating a Python expression or block gives. *)
Inductive res (A : Type) :=
  | Ok (a : A)
  | Fail (e : exn).
Arguments Ok {A} a.
Arguments Fail {A} e.

(** *** The host: operating system, libraries and the interactive dialog *)

(** The operations [run_command] asks of its surroundings, indexed by the
    type of what they return. Each can raise. *)
Inductive call : Type → Type :=
  | Getcwd : call string
  | Listdir (path : string) : call (list string)
  | Chdir (path : string) : call unit
  | Makedirs (path : string) : call unit
  | Touch (path : string) : call unit
  | Rmtree (path : string) : call unit
  | Remove (path : string) : call unit
  | Copytree (source dest : string) : call unit
  | Copy2 (source dest : string) : call unit
  | Move (source dest : string) : call unit
  | ReadText (encoding path : string) : call string
  | ReadLines (path : string) : call (list string)
  | WriteText (path content : string) : call unit
  | Print (text : string) : call unit
  | CpuPercent : call string               (* the percentage, rendered *)
  | VirtualMemory : call (string * Z * Z)  (* percent rendered, used, total *)
  | ProcessIter : call (list (res string)) (* per process: its line *)
  | Walk (path : string) : call (list (string * list string * list string))
  | ClearScreen : call unit
  | Strftime : call string
  | Getuser : call string
  | Platform : call (string * string * string)
  | DiskReport : call string               (* lines 459-464, rendered *)
  | Subprocess (argv : list string) : call (Z * string * string)
  | CreateFolderWithPath (sid : string) : call (bool * string * string)
  | CreateFileWithPath (sid : string) : call (bool * string * string)
  | SelectFileOrFolder (title : string) : call (bool * string * string)
  | SelectDestination (source operation : string)
      : call (bool * string * string).

(** The path functions that do not raise, and the answer of the host to
    every call. *)
Record host := Host {
  abspath : string → string;
  path_exists : string → bool;
  isdir : string → bool;
  isfile : string → bool;
  os : ∀ A, call A → res A
}.

(** A call that was made. *)
Inductive event :=
  | Called (A : Type) (c : call A).
Arguments Called {A} c.

(** What [input] finds on the standard input. *)
Inductive input_event :=
  | Line (text : string)
  | Interrupt.           (* Ctrl-C while waiting *)

(** *** The state a call of [run_command] runs in *)

(** The lock file is shared: before each access of this process the other
    processes may have rewritten it, and the clock has moved. [others]
    lists, for the accesses to come, the clock reading at the access and
    what the other processes did to the file since the previous one. *)
Record world := World {
  lock_file : lock_table;                      (* data/resource_locks.json *)
  clock : Q;                                   (* time.time() *)
  others : list (Q * (lock_table → lock_table));
  stdin : list input_event;                    (* then end of file *)
  trace : list event                           (* the calls made, in order *)
}.

Definition M (A : Type) : Type := world → res A * world.

#[global] Instance M_ret : MRet M := λ A a w, (Ok a, w).

#[global] Instance M_bind : MBind M := λ A B f m w,
  match m w with
  | (Ok a, w') => f a w'
  | (Fail e, w') => (Fail e, w')
  end.

(** [try: body except C1: h1 except C2: h2 ...]: the first clause whose
    class the exception is an instance of handles it; what a handler raises
    is not handled by its siblings. *)
Fixpoint handler_for {A} (clauses : list ((exn_class → bool) * (exn → M A)))
    (e : exn) : option (M A) :=
  match clauses with
  | [] => None
  | (isinstance, h) :: rest =>
      if isinstance (cls e) then Some (h e) else handler_for rest e
  end.

Definition try_except {A} (body : M A)
    (clauses : list ((exn_class → bool) * (exn → M A))) : M A :=
  λ w, match body w with
       | (Ok a, w') => (Ok a, w')
       | (Fail e, w') =>
           match handler_for clauses e with
           | Some h => h w'
           | None => (Fail e, w')
           end
       end.

(** What an access to the lock file finds: the next entry of [others]. *)
Definition sync (w : world) : world :=
  match others w with
  | (t, f) :: rest => World (f (lock_file w)) t rest (stdin w) (trace w)
  | [] => w
  end.

Definition set_lock_file (locks : lock_table) (w : world) : world :=
  World locks (clock w) (others w) (stdin w) (trace w).

Definition check_lock (sid resource_path : string) : M (option string) :=
  λ w, let w := sync w in
       (Ok (_check_lock sid resource_path (lock_file w)), w).

Definition acquire_lock (sid resource_path : string) : M bool :=
  λ w, let w := sync w in
       let '(ok, locks) :=
         _acquire_lock (clock w) sid resource_path (lock_file w) in
       (Ok ok, set_lock_file locks w).

Definition release_lock (sid resource_path : string) : M unit :=
  λ w, let w := sync w in
       (Ok tt, set_lock_file (_release_lock sid resource_path (lock_file w)) w).

(** [if locked_by:] on what [_check_lock] returned. *)
Definition truthy (locked_by : option string) : bool :=
  match locked_by with
  | Some holder => negb (String.eqb holder "")
  | None => false
  end.

(** [input("> ")] in a loop, until a line that strips to [SAVE]. *)
Fixpoint read_until_save (inp : list input_event) (new_content : list string)
    : res (list string) * list input_event :=
  match inp with
  | [] => (Fail (Exn EOFError "EOF when reading a line"), [])
  | Interrupt :: rest => (Fail (Exn KeyboardInterrupt ""), rest)
  | Line line :: rest =>
      if String.eqb (strip line) "SAVE" then (Ok new_content, rest)
      else read_until_save rest (new_content ++ [line])
  end.

Definition input_until_save : M (list string) :=
  λ w, let '(r, rest) := read_until_save (stdin w) [] in
       (r, World (lock_file w) (clock w) (others w) rest (trace w)).

Definition nl : string := String "010" "".

(** [os.path.join(root, name)] *)
Definition path_join (root name : string) : string :=
  if String.prefix "/" name then name
  else if String.eqb root "" then name
  else if String.eqb (substring (String.length root - 1) 1 root) "/"
  then root +:+ name
  else root +:+ "/" +:+ name.

Definition busy : string :=
  "Resource is being used by another session. Wait.".
Definition source_busy : string :=
  "Source resource is being used by another session. Wait.".
Definition dest_busy : string :=
  "Destination resource is being used by another session. Wait.".

Definition error (e : exn) : M string := mret ("Error: " +:+ str e).

(** *** The branches of [run_command] *)

Section run_command.

Variable h : host.

(** A call to the host, recorded in the trace. *)
Definition sys {A} (c : call A) : M A :=
  λ w, (os h A c,
        World (lock_file w) (clock w) (others w) (stdin w)
          (trace w ++ [Called c])).

Definition lift {A} (r : res A) : M A := λ w, (r, w).

Definition cmd_pwd : M string := sys Getcwd.

Definition cmd_ls (args : list string) : M string :=
  let path := match args with p :: _ => p | [] => "." end in
  try_except
    (items ← sys (Listdir path);
     mret (join nl items))
    [(is_OSError, error)].

Definition cmd_cd (args : list string) : M string :=
  match args with
  | [] => mret "Usage: cd <directory>"
  | directory :: _ =>
      try_except
        (sys (Chdir directory);;
         mret "")
        [(is_OSError, error)]
  end.

Definition cmd_mkdir (args : list string) (session_id : string) : M string :=
  match args with
  | [] =>
      '(success, folderpath, message) ← sys (CreateFolderWithPath session_id);
      if success : bool then mret message else mret message
  | target :: _ =>
      try_except
        (locked_by ← check_lock session_id (abspath h target);
         if truthy locked_by then mret busy else
         ok ← acquire_lock session_id (abspath h target);
         if negb ok then mret busy else
         sys (Makedirs target);;
         release_lock session_id (abspath h target);;
         mret ("Directory '" +:+ target +:+ "' created"))
        [(is_OSError, λ e,
            release_lock session_id (abspath h target);;
            error e)]
  end.

Definition cmd_touch (args : list string) (session_id : string) : M string :=
  match args with
  | [] =>
      '(success, filepath, message) ← sys (CreateFileWithPath session_id);
      if success : bool then mret message else mret message
  | target :: _ =>
      try_except
        (locked_by ← check_lock session_id (abspath h target);
         if truthy locked_by then mret busy else
         ok ← acquire_lock session_id (abspath h target);
         if negb ok then mret busy else
         sys (Touch target);;
         release_lock session_id (abspath h target);;
         mret ("File '" +:+ target +:+ "' created"))
        [(is_OSError, λ e,
            release_lock session_id (abspath h target);;
            error e)]
  end.

Definition cmd_rm (args : list string) (session_id : string) : M string :=
  match args with
  | [] => mret "Error: missing file/folder"
  | target :: _ =>
      if negb (path_exists h target)
      then mret ("Error: " +:+ target +:+ " does not exist")
      else
        try_except
          (locked_by ← check_lock session_id (abspath h target);
           if truthy locked_by then mret busy else
           ok ← acquire_lock session_id (abspath h target);
           if negb ok then mret busy else
           result ←
             (if isdir h target
              then sys (Rmtree target);;
                   mret ("Directory '" +:+ target +:+ "' removed")
              else sys (Remove target);;
                   mret ("File '" +:+ target +:+ "' removed"));
           release_lock session_id (abspath h target);;
           mret result)
          [(is_OSError, λ e,
              release_lock session_id (abspath h target);;
              error e)]
  end.

(** Lines 214-247: [cp] once [source] and [dest] are known. *)
Definition cp_paths (source dest session_id : string) : M string :=
  if negb (path_exists h source)
  then mret ("Error: " +:+ source +:+ " does not exist")
  else
    try_except
      (locked_by ← check_lock session_id (abspath h source);
       if truthy locked_by then mret source_busy else
       locked_by ← check_lock session_id (abspath h dest);
       if truthy locked_by then mret dest_busy else
       ok ← acquire_lock session_id (abspath h source);
       if negb ok then mret source_busy else
       ok ← acquire_lock session_id (abspath h dest);
       if negb ok
       then release_lock session_id (abspath h source);;
            mret dest_busy
       else
       result ←
         (if isdir h source
          then sys (Copytree source dest);;
               mret ("Directory '" +:+ source +:+ "' copied to '"
                       +:+ dest +:+ "'")
          else sys (Copy2 source dest);;
               mret ("File '" +:+ source +:+ "' copied to '"
                       +:+ dest +:+ "'"));
       release_lock session_id (abspath h source);;
       release_lock session_id (abspath h dest);;
       mret result)
      [(is_OSError, λ e,
          release_lock session_id (abspath h source);;
          release_lock session_id (abspath h dest);;
          error e)].

(** Lines 197-212 and 250-265: the two arguments, or the dialog. [inl] is
    the message the dialog gave up with. *)
Definition source_and_dest (args : list string) (title operation : string)
    : M (string + string * string) :=
  match args with
  | source :: dest :: _ => mret (inr (source, dest))
  | _ =>
      '(success, source, message) ← sys (SelectFileOrFolder title);
      if negb success then mret (inl message) else
      '(success, dest, message) ← sys (SelectDestination source operation);
      if negb success then mret (inl message) else
      mret (inr (source, dest))
  end.

Definition cmd_cp (args : list string) (session_id : string) : M string :=
  chosen ← source_and_dest args "Select file/folder to copy" "copy";
  match chosen with
  | inl message => mret message
  | inr (source, dest) => cp_paths source dest session_id
  end.

(** Lines 267-294: [mv] once [source] and [dest] are known. *)
Definition mv_paths (source dest session_id : string) : M string :=
  if negb (path_exists h source)
  then mret ("Error: " +:+ source +:+ " does not exist")
  else
    try_except
      (locked_by ← check_lock session_id (abspath h source);
       if truthy locked_by then mret source_busy else
       locked_by ← check_lock session_id (abspath h dest);
       if truthy locked_by then mret dest_busy else
       ok ← acquire_lock session_id (abspath h source);
       if negb ok then mret source_busy else
       ok ← acquire_lock session_id (abspath h dest);
       if negb ok
       then release_lock session_id (abspath h source);;
            mret dest_busy
       else
       sys (Move source dest);;
       release_lock session_id (abspath h source);;
       release_lock session_id (abspath h dest);;
       mret ("Moved '" +:+ source +:+ "' to '" +:+ dest +:+ "'"))
      [(is_OSError, λ e,
          release_lock session_id (abspath h source);;
          release_lock session_id (abspath h dest);;
          error e)].

Definition cmd_mv (args : list string) (session_id : string) : M string :=
  chosen ← source_and_dest args "Select file/folder to move" "move";
  match chosen with
  | inl message => mret message
  | inr (source, dest) => mv_paths source dest session_id
  end.

Definition cmd_cat (args : list string) : M string :=
  match args with
  | [] => mret "Usage: cat <file>"
  | target :: _ =>
      if negb (path_exists h target)
      then mret ("Error: " +:+ target +:+ " does not exist")
      else if negb (isfile h target)
      then mret ("Error: " +:+ target +:+ " is not a file")
      else
        try_except
          (sys (ReadText "utf-8" target))
          [(is_UnicodeDecodeError, λ _,
              try_except
                (sys (ReadText "latin-1" target))
                [(is_Exception, λ e,
                    mret ("Error reading file: " +:+ str e))]);
           (is_Exception, error)]
  end.

Definition dashes : string :=
  "--------------------------------------------------".

Definition cmd_edit (args : list string) (session_id : string) : M string :=
  match args with
  | [] => mret "Usage: edit <file>"
  | target :: _ =>
      try_except
        (locked_by ← check_lock session_id (abspath h target);
         if truthy locked_by then mret busy else
         ok ← acquire_lock session_id (abspath h target);
         if negb ok then mret busy else
         content ←
           (if path_exists h target then sys (ReadText "utf-8" target)
            else mret "");
         sys (Print ("Editing " +:+ target +:+
                     " (type 'SAVE' on a new line to save and exit):"));;
         sys (Print dashes);;
         sys (Print content);;
         sys (Print dashes);;
         new_content ← input_until_save;
         sys (WriteText target (join nl new_content));;
         release_lock session_id (abspath h target);;
         mret ("File '" +:+ target +:+ "' saved"))
        [(is_Exception, λ e,
            release_lock session_id (abspath h target);;
            error e)]
  end.

Definition cmd_cpu : M string :=
  cpu_percent ← sys CpuPercent;
  mret ("CPU Usage: " +:+ cpu_percent +:+ "%").

Definition cmd_mem : M string :=
  '(percent, used, total) ← sys VirtualMemory;
  mret ("Memory Usage: " +:+ percent +:+ "% ("
          +:+ str_int (used `div` (1024 * 1024)) +:+ " MB / "
          +:+ str_int (total `div` (1024 * 1024)) +:+ " MB)").

(** The loop of [ps]: a process that is gone or denied is skipped. *)
Fixpoint ps_lines (procs : list (res string)) : res (list string) :=
  match procs with
  | [] => Ok []
  | Ok line :: rest =>
      match ps_lines rest with
      | Ok lines => Ok (line :: lines)
      | Fail e => Fail e
      end
  | Fail e :: rest =>
      if is_psutil_gone (cls e) then ps_lines rest else Fail e
  end.

Definition cmd_ps : M string :=
  procs ← sys ProcessIter;
  processes ← lift (ps_lines procs);
  match processes with
  | [] => mret "No processes found"
  | _ =>
      let header := "PID    Name                 User" in
      mret (header +:+ nl +:+ join nl processes)
  end.

Definition cmd_find (args : list string) : M string :=
  match args with
  | search_path :: pattern :: _ =>
      if negb (path_exists h search_path)
      then mret ("Error: " +:+ search_path +:+ " does not exist")
      else
        try_except
          (walked ← sys (Walk search_path);
           let results :=
             flat_map
               (λ '(root, dirs, files),
                  map (path_join root) (List.filter (contains pattern) files)
                  ++ map (path_join root)
                       (List.filter (contains pattern) dirs))
               walked in
           match results with
           | [] => mret ("No files or directories matching '" +:+ pattern
                           +:+ "' found")
           | _ => mret (join nl results)
           end)
          [(is_Exception, error)]
  | _ => mret "Usage: find <path> <name_pattern>"
  end.

(** The loop of [grep]; [line_num] is the number of the first line. *)
Fixpoint grep_lines (pattern file_path : string) (line_num : Z)
    (lines : list string) : list string :=
  match lines with
  | [] => []
  | line :: rest =>
      let matches := grep_lines pattern file_path (line_num + 1) rest in
      if contains pattern line
      then (file_path +:+ ":" +:+ str_int line_num +:+ ": " +:+ strip line)
             :: matches
      else matches
  end.

Definition cmd_grep (args : list string) : M string :=
  match args with
  | pattern :: file_path :: _ =>
      if negb (path_exists h file_path)
      then mret ("Error: " +:+ file_path +:+ " does not exist")
      else if negb (isfile h file_path)
      then mret ("Error: " +:+ file_path +:+ " is not a file")
      else
        try_except
          (lines ← sys (ReadLines file_path);
           match grep_lines pattern file_path 1 lines with
           | [] => mret ("Pattern '" +:+ pattern +:+ "' not found in "
                           +:+ file_path)
           | matches => mret (join nl matches)
           end)
          [(is_Exception, error)]
  | _ => mret "Usage: grep <pattern> <file>"
  end.

Definition cmd_clear : M string :=
  sys ClearScreen;;
  mret "".

Definition cmd_echo (args : list string) : M string :=
  match args with
  | [] => mret ""
  | _ => mret (join " " args)
  end.

Definition cmd_date : M string := sys Strftime.

Definition cmd_whoami : M string := sys Getuser.

Definition cmd_uname : M string :=
  '(system, release, machine) ← sys Platform;
  mret (system +:+ " " +:+ release +:+ " " +:+ machine).

Definition cmd_df : M string :=
  try_except (sys DiskReport) [(is_Exception, error)].

(** The fallback: the host shell. *)
Definition cmd_shell (cmd : string) (args : list string) : M string :=
  try_except
    ('(returncode, stdout, stderr) ← sys (Subprocess (cmd :: args));
     if returncode =? 0 then mret (strip stdout)
     else mret ("Error: " +:+ strip stderr))
    [(is_TimeoutExpired, λ _, mret "Error: Command timed out");
     (is_FileNotFoundError, λ _, mret "Command not found");
     (is_Exception, error)].

(** The chain of [if cmd == ...] of lines 87-481. *)
Definition dispatch (cmd : string) (args : list string) (session_id : string)
    : M string :=
  if String.eqb cmd "pwd" then cmd_pwd
  else if String.eqb cmd "ls" then cmd_ls args
  else if String.eqb cmd "cd" then cmd_cd args
  else if String.eqb cmd "mkdir" then cmd_mkdir args session_id
  else if String.eqb cmd "touch" then cmd_touch args session_id
  else if String.eqb cmd "rm" then cmd_rm args session_id
  else if String.eqb cmd "cp" then cmd_cp args session_id
  else if String.eqb cmd "mv" then cmd_mv args session_id
  else if String.eqb cmd "cat" then cmd_cat args
  else if String.eqb cmd "edit" then cmd_edit args session_id
  else if String.eqb cmd "cpu" then cmd_cpu
  else if String.eqb cmd "mem" then cmd_mem
  else if String.eqb cmd "ps" then cmd_ps
  else if String.eqb cmd "find" then cmd_find args
  else if String.eqb cmd "grep" then cmd_grep args
  else if String.eqb cmd "clear" then cmd_clear
  else if String.eqb cmd "echo" then cmd_echo args
  else if String.eqb cmd "date" then cmd_date
  else if String.eqb cmd "whoami" then cmd_whoami
  else if String.eqb cmd "uname" then cmd_uname
  else if String.eqb cmd "df" then cmd_df
  else cmd_shell cmd args.

Definition run_command (cmd : string) (args : list string)
    (session_id : string) : M string :=
  try_except (dispatch cmd args session_id) [(is_Exception, error)].

(** Lines 217-247 and 270-294 follow one protocol around the transfer
    itself, [work]; [cp_paths] and [mv_paths] are its two instances. *)
Definition locked_transfer (work : M string)
    (source dest session_id : string) : M string :=
  try_except
    (locked_by ← check_lock session_id (abspath h source);
     if truthy locked_by then mret source_busy else
     locked_by ← check_lock session_id (abspath h dest);
     if truthy locked_by then mret dest_busy else
     ok ← acquire_lock session_id (abspath h source);
     if negb ok then mret source_busy else
     ok ← acquire_lock session_id (abspath h dest);
     if negb ok
     then release_lock session_id (abspath h source);;
          mret dest_busy
     else
     result ← work;
     release_lock session_id (abspath h source);;
     release_lock session_id (abspath h dest);;
     mret result)
    [(is_OSError, λ e,
        release_lock session_id (abspath h source);;
        release_lock session_id (abspath h dest);;
        error e)].

(** The transfer of [cp] and its confirmation. *)
Definition cp_work (source dest : string) : M string :=
  if isdir h source
  then sys (Copytree source dest);;
       mret ("Directory '" +:+ source +:+ "' copied to '" +:+ dest +:+ "'")
  else sys (Copy2 source dest);;
       mret ("File '" +:+ source +:+ "' copied to '" +:+ dest +:+ "'").

(** The transfer of [mv] and its confirmation. *)
Definition mv_work (source dest : string) : M string :=
  sys (Move source dest);;
  mret ("Moved '" +:+ source +:+ "' to '" +:+ dest +:+ "'").

End run_command.

(** *** Vocabulary of the properties *)

(** One of the two "resource busy" results of [cp] and [mv]. *)
Definition is_busy (msg : string) : Prop :=
  msg = source_busy ∨ msg = dest_busy.

(** [f] is something other sessions can do to the lock file: it gives
    [sid] no lock that [sid] did not have. *)
Definition foreign (sid : string) (f : lock_table → lock_table) : Prop :=
  ∀ locks p, held_by (f locks) sid p → held_by locks sid p.

Definition others_foreign (sid : string) (w : world) : Prop :=
  Forall (λ tf, foreign sid tf.2) (others w).

(** The calls that copy or move. *)
Definition is_transfer {A} (c : call A) : bool :=
  match c with
  | Copytree _ _ | Copy2 _ _ | Move _ _ => true
  | _ => false
  end.

(** A copy or a move fails with a filesystem error only. *)
Definition transfer_errors_are_OSError (h : host) : Prop :=
  ∀ A (c : call A) e,
    is_transfer c = true → os h A c = Fail e → is_OSError (cls e) = true.

(** The transfer [cmd] makes from [source] to [dest]. *)
Definition transfer_of (h : host) (cmd source dest : string) : event :=
  if String.eqb cmd "mv" then Called (Move source dest)
  else if isdir h source then Called (Copytree source dest)
  else Called (Copy2 source dest).

(** [p] is locked by a session other than [sid], with a lock that has not
    expired at time [now]. *)
Definition live_lock_of_another (locks : lock_table) (now : Q)
    (sid p : string) : Prop :=
  ∃ l, locks !! p = Some l ∧ session_id l ≠ sid ∧ ¬ expired now l.

(** No Ctrl-C is waiting on the standard input. *)
Definition calm (w : world) : Prop := Interrupt ∉ stdin w.

(** Whatever the host raises is an instance of [Exception]. *)
Definition benign (h : host) : Prop :=
  (∀ A (c : call A) e, os h A c = Fail e → is_Exception (cls e) = true) ∧
  (∀ procs e, os h _ ProcessIter = Ok procs → Fail e ∈ procs →
     is_Exception (cls e) = true).

(** A computation that keeps the input calm and raises instances of
    [Exception] only. *)
Definition safe {A} (m : M A) : Prop :=
  ∀ w, calm w →
    calm (m w).2 ∧ ∀ e, (m w).1 = Fail e → is_Exception (cls e) = true.

(** A host on which every path exists and is a file, and every call
    succeeds with an empty answer. *)
Definition quiet_os (A : Type) (c : call A) : res A :=
  match c in call T return res T with
  | Getcwd => Ok "/"
  | Listdir _ => Ok []
  | Chdir _ | Makedirs _ | Touch _ | Rmtree _ | Remove _ => Ok tt
  | Copytree _ _ | Copy2 _ _ | Move _ _ => Ok tt
  | ReadText _ _ => Ok ""
  | ReadLines _ => Ok []
  | WriteText _ _ | Print _ | ClearScreen => Ok tt
  | CpuPercent => Ok "0.0"
  | VirtualMemory => Ok ("0.0", 0, 0)
  | ProcessIter => Ok []
  | Walk _ => Ok []
  | Strftime | Getuser | DiskReport => Ok ""
  | Platform => Ok ("", "", "")
  | Subprocess _ => Ok (0, "", "")
  | CreateFolderWithPath _ | CreateFileWithPath _
  | SelectFileOrFolder _ | SelectDestination _ _ => Ok (false, "", "")
  end.

Definition quiet_host : host :=
  Host (λ path, path) (λ _, true) (λ _, false) (λ _, true) quiet_os.

(** The same host with no path on it. *)
Definition missing_host : host :=
  Host (λ path, path) (λ _, false) (λ _, false) (λ _, false) quiet_os.

(** *** The branches that lock one path *)

Section one_path.

Variable h : host.

(** Lines 119-135, 148-164, 173-194 and 321-357 follow one protocol around
    the work on the path they lock; [handles] is the class of their
    [except]. [mkdir], [touch], [rm] and [edit] are its instances. *)
Definition locked_single (handles : exn_class → bool) (work : M string)
    (target session_id : string) : M string :=
  try_except
    (locked_by ← check_lock session_id (abspath h target);
     if truthy locked_by then mret busy else
     ok ← acquire_lock session_id (abspath h target);
     if negb ok then mret busy else
     result ← work;
     release_lock session_id (abspath h target);;
     mret result)
    [(handles, λ e,
        release_lock session_id (abspath h target);;
        error e)].

Definition mkdir_work (target : string) : M string :=
  sys h (Makedirs target);;
  mret ("Directory '" +:+ target +:+ "' created").

Definition touch_work (target : string) : M string :=
  sys h (Touch target);;
  mret ("File '" +:+ target +:+ "' created").

Definition rm_work (target : string) : M string :=
  if isdir h target
  then sys h (Rmtree target);;
       mret ("Directory '" +:+ target +:+ "' removed")
  else sys h (Remove target);;
       mret ("File '" +:+ target +:+ "' removed").

Definition edit_work (target : string) : M string :=
  content ←
    (if path_exists h target then sys h (ReadText "utf-8" target)
     else mret "");
  sys h (Print ("Editing " +:+ target +:+
                " (type 'SAVE' on a new line to save and exit):"));;
  sys h (Print dashes);;
  sys h (Print content);;
  sys h (Print dashes);;
  new_content ← input_until_save;
  sys h (WriteText target (join nl new_content));;
  mret ("File '" +:+ target +:+ "' saved").

End one_path.

(** The call on the filesystem that [mkdir], [touch] or [rm] makes. *)
Definition mutation_of (h : host) (cmd target : string) : event :=
  if String.eqb cmd "mkdir" then Called (Makedirs target)
  else if String.eqb cmd "touch" then Called (Touch target)
  else if isdir h target then Called (Rmtree target)
  else Called (Remove target).

(** The calls that create or remove. *)
Definition is_mutation {A} (c : call A) : bool :=
  match c with
  | Makedirs _ | Touch _ | Rmtree _ | Remove _ => true
  | _ => false
  end.

(** A creation or a removal fails with a filesystem error only. *)
Definition mutation_errors_are_OSError (h : host) : Prop :=
  ∀ A (c : call A) e,
    is_mutation c = true → os h A c = Fail e → is_OSError (cls e) = true.

(** The names [run_command] has a branch for. *)
Definition builtin_commands : list string :=
  [ "pwd"; "ls"; "cd"; "mkdir"; "touch"; "rm"; "cp"; "mv"; "cat"; "edit";
    "cpu"; "mem"; "ps"; "find"; "grep"; "clear"; "echo"; "date"; "whoami";
    "uname"; "df" ].

(** The names whose branch looks at the lock file. *)
Definition locking_commands : list string :=
  [ "mkdir"; "touch"; "rm"; "cp"; "mv"; "edit" ].

(** The path a branch tests with [os.path.exists] before anything else. *)
Definition tested_path (cmd : string) (args : list string) : option string :=
  if String.eqb cmd "rm" || String.eqb cmd "cat" then head args
  else if String.eqb cmd "cp" || String.eqb cmd "mv" then
    match args with source :: _ :: _ => Some source | _ => None end
  else if String.eqb cmd "find" then
    match args with search_path :: _ :: _ => Some search_path | _ => None end
  else if String.eqb cmd "grep" then
    match args with _ :: file_path :: _ => Some file_path | _ => None end
  else None.

(** A computation that leaves the lock file, the clock and what the other
    sessions are about to do as they are. *)
Definition lock_free {A} (m : M A) : Prop :=
  ∀ w, lock_file (m w).2 = lock_file w ∧ clock (m w).2 = clock w ∧
       others (m w).2 = others w.

(** The host [quiet_host] with a text behind every path: the lines that
    reading a file gives. *)
Definition reading_os (lines : list string) (A : Type) (c : call A) : res A :=
  match c in call T return res T with
  | ReadLines _ => Ok lines
  | c => quiet_os _ c
  end.

Definition reading_host (lines : list string) : host :=
  Host (λ path, path) (λ _, true) (λ _, false) (λ _, true) (reading_os lines).

(** The host [quiet_host] on which creating a directory raises [e]. *)
Definition failing_os (e : exn) (A : Type) (c : call A) : res A :=
  match c in call T return res T with
  | Makedirs _ => Fail e
  | c => quiet_os _ c
  end.

Definition failing_host (e : exn) : host :=
  Host (λ path, path) (λ _, true) (λ _, false) (λ _, true) (failing_os e).

End Terminal.

(** ** The handlers of the processor (unified_processor.py)

    [_handle_direct_command], [_handle_simple_folder_creation] and
    [_handle_simple_file_creation] run a command of terminal.py and, after
    [cd], tell the session manager: they work on the state of both. *)

Module UnifiedHandlers.

Import PyStr Terminal.

(** The dict a handler returns; a key that is absent is [None]. *)
Record reply := Reply {
  type : string;
  result : string;
  message : string;
  command : option string;
  args : option (list string);
  folder_name : option string;
  file_name : option string
}.

(** What the handlers read and write: the world of [run_command], the
    session manager object, and the data files of the session manager with
    the directory the process was last seen in. *)
Record state := State {
  terminal : Terminal.world;
  session_manager : SessionManager.manager;
  data : SessionManager.world
}.

Definition H (A : Type) : Type := state → res A * state.

#[global] Instance H_ret : MRet H := λ A a s, (Ok a, s).

#[global] Instance H_bind : MBind H := λ A B f m s,
  match m s with
  | (Ok a, s') => f a s'
  | (Fail e, s') => (Fail e, s')
  end.

Definition raise {A} (e : exn) : H A := λ s, (Fail e, s).

(** [try: body except Exception as e: handler] *)
Definition except_Exception {A} (body : H A) (handler : exn → H A) : H A :=
  λ s, match body s with
       | (Ok a, s') => (Ok a, s')
       | (Fail e, s') =>
           if is_Exception (cls e) then handler e s' else (Fail e, s')
       end.

(** A computation of terminal.py, run by a handler. *)
Definition in_terminal {A} (m : M A) : H A :=
  λ s, let '(r, w) := m (terminal s) in
       (r, State w (session_manager s) (data s)).

Section handlers.

Variable h : host.

(** What [data/] leads to from a directory: the paths of the session
    manager are relative. *)
Variable look : string → SessionManager.view.

(** [os.getcwd()]: the answer of the host is where the process is. *)
Definition getcwd : H string :=
  λ s, match sys h Getcwd (terminal s) with
       | (Ok here, w) =>
           (Ok here,
            State w (session_manager s) (SessionManager.set_cwd here (data s)))
       | (Fail e, w) => (Fail e, State w (session_manager s) (data s))
       end.

(** [self.session_manager.update_working_directory], called where the
    process is; [now] is the reading of [_get_timestamp]. The object is
    updated; [_save_session_info] then opens [data/session_info.json] from
    that directory, so the metadata file is rewritten when [data/] is the
    data directory of the manager, another file is when it is another
    one, and none is otherwise (the [IOError] is passed over). *)
Definition update_working_directory (session_id new_directory : string)
    (now : Q) : H unit :=
  λ s, let '(self, w) :=
         SessionManager.update_working_directory session_id new_directory
           now (session_manager s) (data s) in
       match look (SessionManager.cwd (data s)) with
       | SessionManager.same_data => (Ok tt, State (terminal s) self w)
       | SessionManager.other_data | SessionManager.unwritable =>
           (Ok tt, State (terminal s) self (data s))
       end.

(** [_handle_direct_command]; [parts[0]] on an empty list raises an
    [IndexError]. *)
Definition _handle_direct_command (now : Q)
    (user_input session_id : string) : H reply :=
  except_Exception
    (match split user_input with
     | [] => raise (Exn OtherException "list index out of range")
     | cmd :: args =>
         output ← in_terminal (run_command h cmd args session_id);
         (if String.eqb cmd "cd" && negb (String.prefix "Error" output)
          then here ← getcwd;
               update_working_directory session_id here now
          else mret tt);;
         mret (Reply "direct_command" output ("Executed: " +:+ user_input)
                 (Some cmd) (Some args) None None)
     end)
    (λ e, mret (Reply "error" ("Error executing command: " +:+ str e)
                  "Command execution failed" None None None None)).

(** [_handle_simple_folder_creation] *)
Definition _handle_simple_folder_creation
    (user_input session_id : string) : H reply :=
  except_Exception
    (match UnifiedProcessor.folder_name user_input with
     | None =>
         mret (Reply "error" "Could not extract folder name"
                 "Please specify a folder name" None None None None)
     | Some folder_name =>
         output ← in_terminal (run_command h "mkdir" [folder_name] session_id);
         mret (Reply "simple_folder_creation" output
                 ("Created folder: " +:+ folder_name) None None
                 (Some folder_name) None)
     end)
    (λ e, mret (Reply "error" ("Error creating folder: " +:+ str e)
                  "Folder creation failed" None None None None)).

(** [_handle_simple_file_creation] *)
Definition _handle_simple_file_creation
    (user_input session_id : string) : H reply :=
  except_Exception
    (match UnifiedProcessor.file_name user_input with
     | None =>
         mret (Reply "error" "Could not extract file name"
                 "Please specify a file name" None None None None)
     | Some file_name =>
         output ← in_terminal (run_command h "touch" [file_name] session_id);
         mret (Reply "simple_file_creation" output
                 ("Created file: " +:+ file_name) None None None
                 (Some file_name))
     end)
    (λ e, mret (Reply "error" ("Error creating file: " +:+ str e)
                  "File creation failed" None None None None)).

End handlers.

End UnifiedHandlers.

(** * Properties *)

(** ** Lock manager *)

Section lock_facts.

Import Locks.

Implicit Types (file locks : lock_table) (sid p : string) (now : Q).

Lemma held_by_other_true locks sid p :
  held_by_other locks sid p = true ↔ held_by_another locks sid p.
Proof.
  unfold held_by_other, held_by_another.
  destruct (locks !! p) as [l|] eqn:E.
  - rewrite negb_true_iff, String.eqb_neq. split.
    + intros Hne. exists l. split; [reflexivity | exact Hne].
    + intros (l' & Hl' & Hne). congruence.
  - split; [discriminate | intros (l & Hl & _); discriminate].
Qed.

Lemma held_by_other_false locks sid p :
  held_by_other locks sid p = false ↔ ¬ held_by_another locks sid p.
Proof.
  rewrite <- held_by_other_true. destruct (held_by_other locks sid p).
  - split; [discriminate | intros H; exfalso; apply H; reflexivity].
  - split; [intros _; discriminate | reflexivity].
Qed.

Lemma purge_lookup now file k l :
  purge now file !! k = Some l ↔ file !! k = Some l ∧ ¬ expired now l.
Proof. unfold purge. rewrite map_lookup_filter_Some. reflexivity. Qed.

Lemma purge_lookup_None now file k :
  file !! k = None → purge now file !! k = None.
Proof. intros H. unfold purge. apply map_lookup_filter_None. left. exact H. Qed.

Lemma acquire_fails now sid p file :
  held_by_another (purge now file) sid p →
  _acquire_lock now sid p file = (false, file).
Proof.
  intros H. unfold _acquire_lock.
  apply held_by_other_true in H. rewrite H. reflexivity.
Qed.

Lemma acquire_succeeds now sid p file :
  ¬ held_by_another (purge now file) sid p →
  _acquire_lock now sid p file
  = (true, <[p := LockInfo sid now]> (purge now file)).
Proof.
  intros H. unfold _acquire_lock.
  apply held_by_other_false in H. rewrite H. reflexivity.
Qed.

(** After its expiry, a lock no longer stops another session from
    acquiring the path. *)
Lemma acquire_after_expiry now t holder sid p file :
  file !! p = Some (LockInfo holder t) →
  (t + 301 <= now)%Q →
  fst (_acquire_lock now sid p file) = true.
Proof.
  intros Hp Ht. rewrite acquire_succeeds; [reflexivity |].
  intros (l & Hl & _). apply purge_lookup in Hl as [Hl Hlive].
  rewrite Hp in Hl. injection Hl as <-.
  apply Hlive. unfold expired. simpl. lra.
Qed.

Lemma release_held sid p file :
  held_by file sid p → _release_lock sid p file = delete p file.
Proof.
  intros (l & Hl & Hs). unfold _release_lock. rewrite Hl.
  apply String.eqb_eq in Hs. rewrite Hs. reflexivity.
Qed.

Lemma release_not_held sid p file :
  ¬ held_by file sid p → _release_lock sid p file = file.
Proof.
  intros H. unfold _release_lock.
  destruct (file !! p) as [l|] eqn:E; [| reflexivity].
  destruct (String.eqb (session_id l) sid) eqn:Es; [| reflexivity].
  exfalso. apply H. exists l. split; [exact E |].
  apply String.eqb_eq. exact Es.
Qed.

Lemma check_lock_None sid p file :
  file !! p = None → _check_lock sid p file = None.
Proof.
  intros H. unfold _check_lock, held_by_other. rewrite H. reflexivity.
Qed.

(** Releasing never leaves the releasing session as the holder. *)
Lemma release_not_holder sid p file :
  ¬ held_by (_release_lock sid p file) sid p.
Proof.
  unfold _release_lock.
  destruct (file !! p) as [l|] eqn:E.
  - destruct (String.eqb (session_id l) sid) eqn:Es.
    + intros (l' & Hl & _). rewrite lookup_delete_eq in Hl. discriminate.
    + intros (l' & Hl & Hs). rewrite E in Hl. injection Hl as <-.
      apply String.eqb_neq in Es. contradiction.
  - intros (l' & Hl & _). rewrite E in Hl. discriminate.
Qed.

End lock_facts.

Section lock_claims.

Import Locks.

(** C1 (as the code has it). A call [acquire(s, p)] at time [now] computes
    the table with every entry more than 300 seconds old removed. It returns
    false exactly when that purged table maps [p] to a lock of a session
    other than [s], and then the stored table is left as it was, expired
    entries included: the purge is not written back. In every other case it
    returns true and stores the purged table with [p] mapped to a lock of
    [s] stamped [now], whatever [p] was mapped to before. *)
Theorem acquire_lock_spec (now : Q) (s p : string) (file : lock_table) :
  let locks := purge now file in
  (∀ k l, locks !! k = Some l ↔
          file !! k = Some l ∧ ¬ (300 < now - timestamp l)%Q) ∧
  (fst (_acquire_lock now s p file) = false ↔ held_by_another locks s p) ∧
  (held_by_another locks s p → _acquire_lock now s p file = (false, file)) ∧
  (¬ held_by_another locks s p →
     _acquire_lock now s p file = (true, <[p := LockInfo s now]> locks)).
Proof.
  intros locks. split; [| split; [| split]].
  - intros k l. apply purge_lookup.
  - unfold _acquire_lock. fold locks.
    rewrite <- held_by_other_true.
    destruct (held_by_other locks s p); simpl; split; congruence.
  - apply acquire_fails.
  - apply acquire_succeeds.
Qed.

(** The table of the examples: an old lock of [s1] on [/a] and a fresh lock
    of [s2] on [/b], seen at time 1000. *)
Example acquire_lock_spec_witness :
  let file : lock_table :=
    {[ "/a" := LockInfo "s1" 0; "/b" := LockInfo "s2" 900 ]} in
  _acquire_lock 1000 "s3" "/b" file = (false, file) ∧
  _acquire_lock 1000 "s3" "/c" file
  = (true, <["/c" := LockInfo "s3" 1000]> (purge 1000 file)).
Proof.
  intros file. split.
  - apply (acquire_lock_spec 1000 "s3" "/b" file).
    exists (LockInfo "s2" 900). split; [| discriminate].
    apply purge_lookup. split; [reflexivity |].
    unfold expired. simpl. lra.
  - apply (acquire_lock_spec 1000 "s3" "/c" file).
    intros (l & Hl & _). apply purge_lookup in Hl as [Hl _].
    vm_compute in Hl. discriminate.
Defined.

(** C1 as stated fails: a refused acquisition does not remove the expired
    entries from the stored table. Here [/a] expired long ago, [/b] is held
    by [s2]; [s3] is refused [/b] and the stored table still has [/a], so it
    is not the purged table. *)
Lemma acquire_refused_keeps_expired_entries :
  let file : lock_table :=
    {[ "/a" := LockInfo "s1" 0; "/b" := LockInfo "s2" 900 ]} in
  fst (_acquire_lock 1000 "s3" "/b" file) = false ∧
  snd (_acquire_lock 1000 "s3" "/b" file) ≠ purge 1000 file.
Proof.
  intros file.
  assert (H : _acquire_lock 1000 "s3" "/b" file = (false, file)).
  { apply acquire_fails. exists (LockInfo "s2" 900). split; [| discriminate].
    apply purge_lookup. split; [reflexivity |]. unfold expired. simpl. lra. }
  rewrite H. split; [reflexivity |]. simpl. intros Heq.
  assert (Ha : file !! "/a" = Some (LockInfo "s1" 0)) by reflexivity.
  rewrite Heq in Ha. apply purge_lookup in Ha as [_ Hlive].
  apply Hlive. unfold expired. simpl. lra.
Qed.

(** C2 at its failing input: session [A] locks [/tmp/x] at time 0 and never
    releases. [_check_lock] takes no clock reading, so whatever the time,
    301 seconds later included, it still reports [A] to session [B]. *)
Lemma check_lock_ignores_expiry :
  let file := snd (_acquire_lock 0 "A" "/tmp/x" ∅) in
  fst (_acquire_lock 0 "A" "/tmp/x" ∅) = true ∧
  _check_lock "B" "/tmp/x" file = Some "A" ∧
  fst (_acquire_lock 301 "B" "/tmp/x" file) = true.
Proof.
  assert (H : _acquire_lock 0 "A" "/tmp/x" ∅
              = (true, <["/tmp/x" := LockInfo "A" 0]> (purge 0 ∅))).
  { apply acquire_succeeds. intros (l & Hl & _).
    apply purge_lookup in Hl as [Hl _]. rewrite lookup_empty in Hl.
    discriminate. }
  rewrite H. simpl. split; [reflexivity |]. split.
  - unfold _check_lock, held_by_other. rewrite lookup_insert_eq. reflexivity.
  - apply (acquire_after_expiry _ 0 "A").
    + apply lookup_insert_eq.
    + lra.
Qed.

(** C4. [release(s, p)] deletes the entry of [p] when [p] is locked by [s],
    and then no other session is told of a holder; when [p] is not locked,
    or is locked by another session, the table is returned as it is. The
    function is total: there is no input on which it fails. *)
Theorem release_lock_spec (s p : string) (file : lock_table) :
  (held_by file s p →
     _release_lock s p file = delete p file ∧
     ∀ other, _check_lock other p (_release_lock s p file) = None) ∧
  (¬ held_by file s p → _release_lock s p file = file).
Proof.
  split.
  - intros Hh. rewrite (release_held _ _ _ Hh). split; [reflexivity |].
    intros other. apply check_lock_None. apply lookup_delete_eq.
  - apply release_not_held.
Qed.

Example release_lock_spec_witness :
  let file : lock_table := {[ "/tmp/x" := LockInfo "A" 5 ]} in
  (_release_lock "A" "/tmp/x" file = delete "/tmp/x" file ∧
   ∀ other, _check_lock other "/tmp/x" (_release_lock "A" "/tmp/x" file) = None)
  ∧ _release_lock "B" "/tmp/x" file = file.
Proof.
  intros file. split.
  - apply (release_lock_spec "A" "/tmp/x" file).
    exists (LockInfo "A" 5). split; reflexivity.
  - apply (release_lock_spec "B" "/tmp/x" file).
    intros (l & Hl & Hs). vm_compute in Hl. injection Hl as <-.
    discriminate.
Defined.

End lock_claims.

(** ** History store *)

Section history_facts.

Implicit Types (dir : sessions_dir) (sid c : string).

Lemma differs_from_last_snoc (l : list string) (c d : string) :
  EnhancedHistoryManager.differs_from_last (l ++ [c]) d
  = negb (String.eqb c d).
Proof.
  unfold EnhancedHistoryManager.differs_from_last.
  rewrite last_snoc. reflexivity.
Qed.

(** The manager of enhanced_history.py, the one the main loop calls: a
    command equal to the last stored entry is not stored again. *)
Lemma enhanced_add_command_repeated sid c self dir (l : list string) :
  dir !! sid = Some (l ++ [c]) →
  snd (EnhancedHistoryManager.add_command sid c self dir) = dir.
Proof.
  intros H. unfold EnhancedHistoryManager.add_command,
    EnhancedHistoryManager.load_session_history,
    EnhancedHistoryManager.save_session_history.
  rewrite H, differs_from_last_snoc, String.eqb_refl. simpl.
  apply insert_id. exact H.
Qed.

(** ... and any other command is stored at the end. *)
Lemma enhanced_add_command_new sid c self dir :
  last (EnhancedHistoryManager.load_session_history sid dir) ≠ Some c →
  snd (EnhancedHistoryManager.add_command sid c self dir)
  = <[sid := EnhancedHistoryManager.load_session_history sid dir ++ [c]]> dir.
Proof.
  intros H. unfold EnhancedHistoryManager.add_command,
    EnhancedHistoryManager.save_session_history. simpl.
  assert (Hd : EnhancedHistoryManager.differs_from_last
                 (EnhancedHistoryManager.load_session_history sid dir) c
               = true).
  { unfold EnhancedHistoryManager.differs_from_last.
    destruct (last _) as [d|]; [| reflexivity].
    apply negb_true_iff, String.eqb_neq. congruence. }
  rewrite Hd. reflexivity.
Qed.

(** Two different commands in a row, on a new session: both are stored, in
    that order; the same command twice: once. *)
Lemma enhanced_add_command_twice sid c d self dir :
  dir !! sid = None →
  let step1 := EnhancedHistoryManager.add_command sid c self dir in
  let step2 := EnhancedHistoryManager.add_command sid d step1.1 step1.2 in
  step2.2 !! sid = Some (if String.eqb c d then [c] else [c; d]).
Proof.
  intros H. simpl.
  unfold EnhancedHistoryManager.add_command,
    EnhancedHistoryManager.load_session_history,
    EnhancedHistoryManager.save_session_history. simpl.
  rewrite H. simpl. rewrite !lookup_insert_eq.
  unfold EnhancedHistoryManager.differs_from_last. simpl.
  destruct (String.eqb c d); reflexivity.
Qed.

(** C5 at its failing input: [add_command] of history.py stores the command
    a second time when it is already the last entry. *)
Lemma history_add_command_stores_duplicate :
  history.add_command "session_1" "ls" {[ "session_1" := ["ls"] ]}
  = {[ "session_1" := ["ls"; "ls"] ]}.
Proof.
  unfold history.add_command, history.load_history, history.save_history.
  rewrite lookup_singleton_eq. simpl. apply insert_singleton_eq.
Qed.

(** In general [add_command] of history.py lengthens the history by one,
    whatever the last entry is. *)
Lemma history_add_command_length sid c dir :
  length (history.load_history sid (history.add_command sid c dir))
  = S (length (history.load_history sid dir)).
Proof.
  unfold history.add_command, history.save_history.
  unfold history.load_history at 1. rewrite lookup_insert_eq.
  rewrite length_app. simpl. lia.
Qed.

End history_facts.

(** ** Strings *)

Section string_facts.

Import PyStr.

Lemma mem_elem_of (x : string) (l : list string) :
  mem x l = true ↔ x ∈ l.
Proof.
  unfold mem. rewrite existsb_exists, list_elem_of_In. split.
  - intros (y & Hy & Heq). apply String.eqb_eq in Heq. subst. exact Hy.
  - intros Hx. exists x. split; [exact Hx | apply String.eqb_refl].
Qed.

Lemma all_chars_app P (s t : string) :
  all_chars P (s +:+ t) = all_chars P s && all_chars P t.
Proof.
  induction s as [| c s IH]; simpl; [reflexivity |].
  rewrite IH. apply andb_assoc.
Qed.

Lemma all_chars_impl (P Q : ascii → bool) (s : string) :
  (∀ c, P c = true → Q c = true) →
  all_chars P s = true → all_chars Q s = true.
Proof.
  intros HPQ. induction s as [| c s IH]; simpl; [reflexivity |].
  rewrite !andb_true_iff. intros [Hc Hs]. split; auto.
Qed.

(** A string without white space is not changed by [strip]. *)
Lemma rstrip_no_space (s : string) :
  all_chars (λ c, negb (is_space c)) s = true → rstrip s = s.
Proof.
  induction s as [| c s IH]; simpl; [reflexivity |].
  rewrite andb_true_iff, negb_true_iff. intros [Hc Hs].
  rewrite (IH Hs). destruct s; [rewrite Hc |]; reflexivity.
Qed.

Lemma lstrip_no_space (s : string) :
  all_chars (λ c, negb (is_space c)) s = true → lstrip s = s.
Proof.
  destruct s as [| c s]; simpl; [reflexivity |].
  rewrite andb_true_iff, negb_true_iff. intros [Hc _].
  rewrite Hc. reflexivity.
Qed.

Lemma strip_no_space (s : string) :
  all_chars (λ c, negb (is_space c)) s = true → strip s = s.
Proof.
  intros H. unfold strip. rewrite (lstrip_no_space _ H).
  apply rstrip_no_space, H.
Qed.

Lemma string_of_uint_chars (d : Decimal.uint) :
  all_chars is_int_char (NilEmpty.string_of_uint d) = true.
Proof. induction d; simpl; auto. Qed.

Lemma str_int_chars (n : Z) : all_chars is_int_char (str_int n) = true.
Proof.
  unfold str_int.
  destruct (Z.to_int n) as [d | d]; simpl;
    destruct d; simpl; auto using string_of_uint_chars.
Qed.

Lemma to_int_not_nil (n : Z) :
  Z.to_int n ≠ Decimal.Pos Decimal.Nil ∧ Z.to_int n ≠ Decimal.Neg Decimal.Nil.
Proof.
  destruct n as [| q | q]; simpl; split; try discriminate;
    intros [= H]; revert H; apply DecimalPos.Unsigned.to_uint_nonnil.
Qed.

Lemma str_int_inj (m n : Z) : str_int m = str_int n → m = n.
Proof.
  unfold str_int. intros H. apply DecimalZ.to_int_inj.
  destruct (to_int_not_nil m) as [Hm1 Hm2].
  destruct (to_int_not_nil n) as [Hn1 Hn2].
  pose proof (NilZero.isi _ Hm1 Hm2) as Em.
  pose proof (NilZero.isi _ Hn1 Hn2) as En.
  rewrite H in Em. congruence.
Qed.

(** Two texts that agree up to and after a separator that neither prefix
    contains have the same prefix. *)
Lemma app_sep_inj (P : ascii → bool) (sep : ascii) (a b x y : string) :
  P sep = false →
  all_chars P a = true → all_chars P b = true →
  a +:+ String sep x = b +:+ String sep y → a = b.
Proof.
  intros Hsep. revert b.
  induction a as [| c a IH]; intros [| d b]; simpl; try reflexivity.
  - rewrite andb_true_iff. intros _ [Hd _] [= -> _]. congruence.
  - rewrite andb_true_iff. intros [Hc _] _ [= -> _]. congruence.
  - rewrite !andb_true_iff. intros [_ Ha] [_ Hb] [= -> Hrest].
    f_equal. apply (IH b Ha Hb Hrest).
Qed.

End string_facts.

(** ** Session store *)

Section session_facts.

Import SessionManager.

Implicit Types (self : manager) (w : world) (sid : string) (pid : Z).

(** The ids [list_sessions] returns are those with a history file. *)
Lemma elem_of_list_sessions sid w :
  sid ∈ list_sessions w ↔ is_Some (sessions w !! sid).
Proof.
  unfold list_sessions. rewrite merge_sort_Permutation.
  rewrite elem_of_elements. apply elem_of_dom.
Qed.

Lemma mem_list_sessions sid w :
  PyStr.mem sid (list_sessions w) = true ↔ is_Some (sessions w !! sid).
Proof. rewrite mem_elem_of. apply elem_of_list_sessions. Qed.

Lemma switch_session_unknown sid now look self w :
  sessions w !! sid = None →
  switch_session sid now look self w = Returned false self w.
Proof.
  intros H. unfold switch_session.
  destruct (PyStr.mem sid (list_sessions w)) eqn:E; [| reflexivity].
  apply mem_list_sessions in E. rewrite H in E.
  destruct E as [? E]. discriminate.
Qed.

(** Setting the last-accessed time and saving the metadata does not change
    the directory [switch_session] enters. *)
Lemma entered_touch sid now self w i :
  session_info self !! sid = Some i →
  entered sid (Manager (<[sid := touch now i]> (session_info self)))
    (_save_session_info
       (Manager (<[sid := touch now i]> (session_info self))) w)
  = entered sid self w.
Proof.
  intros Hi. unfold entered, get_session_details. simpl.
  rewrite lookup_insert_eq, Hi. simpl.
  destruct (path_exists w (working_directory i)); reflexivity.
Qed.

(** The manager and the data files after [switch_session] to a known id,
    the current-session file and the directory of the process apart. *)
Lemma switch_session_known sid now look self w :
  is_Some (sessions w !! sid) →
  ∃ self' w1,
    match session_info self !! sid with
    | Some i =>
        self' = Manager (<[sid := touch now i]> (session_info self)) ∧
        w1 = _save_session_info self' w
    | None => self' = self ∧ w1 = w
    end ∧
    switch_session sid now look self w
    = match entered sid self w with
      | None => Returned true self' (set_current_session_file (Some sid) w1)
      | Some d =>
          match look d with
          | same_data =>
              Returned true self'
                (set_current_session_file (Some sid) (set_cwd d w1))
          | other_data => Strayed self' (set_cwd d w1)
          | unwritable => Raised self' (set_cwd d w1)
          end
      end.
Proof.
  intros Hs. apply mem_list_sessions in Hs.
  unfold switch_session. rewrite Hs.
  destruct (session_info self !! sid) as [i |] eqn:Ei.
  - eexists _, _. split; [split; reflexivity |].
    rewrite (entered_touch sid now self w i Ei). reflexivity.
  - exists self, w. split; [split; reflexivity | reflexivity].
Qed.

(** [switch_session] writes no history file and no binding file. *)
Lemma switch_session_files sid now look self w :
  sessions (files (switch_session sid now look self w)) = sessions w ∧
  process_session_file (files (switch_session sid now look self w))
  = process_session_file w.
Proof.
  destruct (sessions w !! sid) as [commands |] eqn:E.
  - destruct (switch_session_known sid now look self w) as (self' & w1 & H & ->);
      [rewrite E; eauto |].
    assert (Hw1 : sessions w1 = sessions w ∧
                  process_session_file w1 = process_session_file w).
    { destruct (session_info self !! sid); destruct H as [_ ->];
        split; reflexivity. }
    destruct Hw1 as [H1 H2].
    destruct (entered sid self w) as [d |]; [destruct (look d) |];
      simpl; rewrite <- H1, <- H2; split; reflexivity.
  - rewrite (switch_session_unknown _ _ _ _ _ E). split; reflexivity.
Qed.

(** A process session id has no white space, so reading it back from the
    binding file with [strip] returns it. *)
Lemma process_session_id_strip pid timestamp :
  PyStr.strip (process_session_id pid timestamp)
  = process_session_id pid timestamp.
Proof.
  apply strip_no_space. unfold process_session_id.
  assert (Hint : ∀ n,
    PyStr.all_chars (λ c, negb (PyStr.is_space c)) (PyStr.str_int n) = true).
  { intros n. apply (all_chars_impl PyStr.is_int_char); [| apply str_int_chars].
    intros c. destruct c as [[] [] [] [] [] [] [] []]; vm_compute; congruence. }
  rewrite !all_chars_app, !Hint. reflexivity.
Qed.

(** The process id can be read off a process session id. *)
Lemma process_session_id_inj pid1 t1 pid2 t2 :
  process_session_id pid1 t1 = process_session_id pid2 t2 → pid1 = pid2.
Proof.
  unfold process_session_id. intros H.
  apply (f_equal (λ s, substring 8 (String.length s - 8) s)) in H.
  simpl in H. rewrite !Nat.sub_0_r in H.
  apply str_int_inj.
  assert (Hsub : ∀ s, substring 0 (String.length s) s = s).
  { induction s; simpl; congruence. }
  rewrite !Hsub in H.
  apply (app_sep_inj PyStr.is_int_char "_" _ _ _ _ eq_refl
           (str_int_chars pid1) (str_int_chars pid2) H).
Qed.

Lemma get_current_session_bound pid now tc ta self w content :
  process_session_file w !! pid = Some content →
  get_current_session pid now tc ta self w = (PyStr.strip content, self, w).
Proof. intros H. unfold get_current_session. rewrite H. reflexivity. Qed.

Lemma get_current_session_new pid now tc ta self w :
  process_session_file w !! pid = None →
  ∃ self' w',
    get_current_session pid now tc ta self w
    = (process_session_id pid (int_of_time now), self', w') ∧
    process_session_file w'
    = <[pid := process_session_id pid (int_of_time now)]>
        (process_session_file w).
Proof.
  intros H. unfold get_current_session. rewrite H.
  unfold _create_unique_session_for_process. simpl.
  eexists _, _. split; reflexivity.
Qed.

(** Under the invariant of the binding files, the id a process gets is made
    from its process id. *)
Lemma get_current_session_shape pid now tc ta self w :
  bindings_wf w →
  ∃ timestamp,
    (get_current_session pid now tc ta self w).1.1
    = process_session_id pid timestamp.
Proof.
  intros Hwf.
  destruct (process_session_file w !! pid) as [content|] eqn:E.
  - rewrite (get_current_session_bound _ _ _ _ _ _ _ E). simpl.
    destruct (Hwf _ _ E) as [t ->]. exists t.
    apply process_session_id_strip.
  - destruct (get_current_session_new pid now tc ta self w E)
      as (self' & w' & -> & _).
    eexists. reflexivity.
Qed.

(** The invariant of the binding files holds at the start and is kept by
    every operation of the manager that writes them. *)
Lemma bindings_wf_empty cwd e c : bindings_wf (empty_world cwd e c).
Proof. intros pid content H. simpl in H. rewrite lookup_empty in H. discriminate. Qed.

Lemma bindings_wf_get_current_session pid now tc ta self w :
  bindings_wf w →
  bindings_wf (get_current_session pid now tc ta self w).2.
Proof.
  intros Hwf.
  destruct (process_session_file w !! pid) as [content|] eqn:E.
  - rewrite (get_current_session_bound _ _ _ _ _ _ _ E). exact Hwf.
  - destruct (get_current_session_new pid now tc ta self w E)
      as (self' & w' & -> & Hfile).
    simpl. intros pid' content. rewrite Hfile.
    destruct (decide (pid = pid')) as [<- | Hne].
    + rewrite lookup_insert_eq. intros [= <-]. eexists. reflexivity.
    + rewrite lookup_insert_ne by exact Hne. apply Hwf.
Qed.

Lemma bindings_wf_cleanup_process_session pid w :
  bindings_wf w → bindings_wf (cleanup_process_session pid w).
Proof.
  intros Hwf pid' content. simpl.
  destruct (decide (pid = pid')) as [<- | Hne].
  - rewrite lookup_delete_eq. discriminate.
  - rewrite lookup_delete_ne by exact Hne. apply Hwf.
Qed.

Lemma bindings_wf_same_files w w' :
  process_session_file w' = process_session_file w →
  bindings_wf w → bindings_wf w'.
Proof. intros Heq Hwf pid content. rewrite Heq. apply Hwf. Qed.

Lemma bindings_wf_create_new_session tc ta self w :
  bindings_wf w → bindings_wf (create_new_session tc ta self w).2.
Proof. apply bindings_wf_same_files. reflexivity. Qed.

Lemma bindings_wf_switch_session sid now look self w :
  bindings_wf w → bindings_wf (files (switch_session sid now look self w)).
Proof.
  apply bindings_wf_same_files.
  apply (switch_session_files sid now look self w).
Qed.

End session_facts.

Section session_claims.

Import SessionManager.




(** It fails for a known id with metadata too. [session_1] was created in
    [/srv/project], which exists and has no [data] directory; the process
    and the data files are in [/home]. Switching changes to
    [/srv/project], and opening [data/current_session.txt] there raises:
    the call does not return, and the current-session file still names
    [session_2]. *)
Lemma switch_session_leaves_data_directory :
  let meta := SessionMeta "/srv/project" 5 5 None in
  let self := Manager {[ "session_1" := meta ]} in
  let w := World {[ "session_1" := []; "session_2" := [] ]} (Some "session_2")
             {[ "session_1" := meta ]} ∅ "/home" (λ _, true) (λ _, true) in
  let look := λ d, if String.eqb d "/home" then same_data else unwritable in
  ∃ self' w',
    switch_session "session_1" 100 look self w = Raised self' w' ∧
    cwd w' = "/srv/project" ∧
    current_session_file w' = Some "session_2".
Proof.
  intros meta self w look. eexists _, _. split; [reflexivity |].
  vm_compute. repeat split.
Qed.

(** C8 at its failing input. Two sessions are created, [session_1] at time
    0 and [session_2] at time 2000000; [ls] is stored in the history of
    [session_2]; the sweep of the sessions idle for more than 30 days, run
    at time 2600000, removes [session_1]. The next creation counts one
    session and returns [session_2] again, and the history of the existing
    [session_2] is reset to the empty list. *)
Lemma create_new_session_reuses_id :
  let w0 := empty_world "/home" (λ _, true) (λ _, true) in
  let '(id1, self1, w1) := create_new_session 0 0 (Manager ∅) w0 in
  let '(id2, self2, w2) := create_new_session 2000000 2000000 self1 w1 in
  let w3 :=
    set_sessions
      (EnhancedHistoryManager.add_command id2 "ls"
         (EnhancedHistoryManager.Manager [] None) (sessions w2)).2 w2 in
  let '(removed, self4, w4) := cleanup_old_sessions 30 2600000 self2 w3 in
  let '(id5, self5, w5) := create_new_session 2600001 2600001 self4 w4 in
  id1 = "session_1" ∧ id2 = "session_2" ∧ removed = 1%nat ∧
  sessions w4 !! "session_2" = Some ["ls"] ∧
  id5 = "session_2" ∧
  sessions w5 !! "session_2" = Some [].
Proof. vm_compute. repeat split. Qed.

(** The creation for a process has the same defect within one second: the
    process 4242 gets its session at time 1700.2 and stores [ls]; its
    binding file is removed ([cleanup_process_session]); asked again at time
    1700.9 it is given the same id, and the stored history is reset. *)
Lemma process_session_reuses_id :
  let w0 := empty_world "/home" (λ _, true) (λ _, true) in
  let '(id1, self1, w1) :=
    get_current_session 4242 (17002 # 10) 0 0 (Manager ∅) w0 in
  let w2 :=
    set_sessions
      (EnhancedHistoryManager.add_command id1 "ls"
         (EnhancedHistoryManager.Manager [] None) (sessions w1)).2 w1 in
  let w3 := cleanup_process_session 4242 w2 in
  let '(id4, self4, w4) :=
    get_current_session 4242 (17009 # 10) 0 0 self1 w3 in
  id1 = "session_4242_1700" ∧ sessions w3 !! id1 = Some ["ls"] ∧
  id4 = id1 ∧ sessions w4 !! id1 = Some [].
Proof. vm_compute. repeat split. Qed.

(** C9. Two calls of [get_current] for the same process id return the same
    session id. Two calls for different process ids return different
    session ids, in every world whose binding files were written by the
    manager (the invariant [bindings_wf], which holds of the empty world
    and is kept by the operations of the manager). *)
Theorem get_current_session_spec (pid1 pid2 : Z)
    (now1 tc1 ta1 now2 tc2 ta2 : Q) (self1 self2 : manager) (w : world) :
  let r1 := get_current_session pid1 now1 tc1 ta1 self1 w in
  let r2 := get_current_session pid2 now2 tc2 ta2 self2 r1.2 in
  (pid1 = pid2 → r2.1.1 = r1.1.1) ∧
  (bindings_wf w → pid1 ≠ pid2 → r2.1.1 ≠ r1.1.1).
Proof.
  intros r1 r2. split.
  - intros <-. subst r1 r2.
    destruct (process_session_file w !! pid1) as [content|] eqn:E.
    + rewrite (get_current_session_bound _ _ _ _ _ _ _ E). simpl.
      rewrite (get_current_session_bound _ _ _ _ _ _ _ E). reflexivity.
    + destruct (get_current_session_new pid1 now1 tc1 ta1 self1 w E)
        as (self' & w' & -> & Hfile). simpl.
      rewrite (get_current_session_bound _ _ _ _ _ _
                 (process_session_id pid1 (int_of_time now1))).
      * apply process_session_id_strip.
      * rewrite Hfile. apply lookup_insert_eq.
  - intros Hwf Hne Heq.
    destruct (get_current_session_shape pid1 now1 tc1 ta1 self1 w Hwf)
      as [t1 H1].
    pose proof (bindings_wf_get_current_session pid1 now1 tc1 ta1 self1 w Hwf)
      as Hwf'.
    destruct (get_current_session_shape pid2 now2 tc2 ta2 self2 _ Hwf')
      as [t2 H2].
    fold r1 in H1, H2. fold r2 in H2.
    rewrite H1, H2 in Heq.
    apply Hne. symmetry. eapply process_session_id_inj, Heq.
Qed.

Example get_current_session_spec_witness :
  let w := empty_world "/home" (λ _, true) (λ _, true) in
  let r1 := get_current_session 4242 (3401 # 2) 0 0 (Manager ∅) w in
  let r2 := get_current_session 4242 1800 0 0 r1.1.2 r1.2 in
  let r3 := get_current_session 77 (3401 # 2) 0 0 (Manager ∅) r1.2 in
  r1.1.1 = "session_4242_1700" ∧ r2.1.1 = r1.1.1 ∧ r3.1.1 ≠ r1.1.1.
Proof.
  intros w r1 r2 r3. split; [reflexivity |]. split.
  - apply (get_current_session_spec 4242 4242 (3401 # 2) 0 0 1800 0 0
             (Manager ∅) r1.1.2 w). reflexivity.
  - apply (get_current_session_spec 4242 77 (3401 # 2) 0 0 (3401 # 2) 0 0
             (Manager ∅) (Manager ∅) w).
    + apply bindings_wf_empty.
    + discriminate.
Defined.

End session_claims.

(** ** Input classifier *)

Section classifier_claims.

Import UnifiedProcessor.

(** C6. The classifier labels [ls] a direct command, [create folder test] a
    simple folder creation, for which the fast-path handler extracts the
    name [test], [what is my cpu usage?] a system query and [hello] chat;
    the empty string is labelled empty. The label [empty] is given by
    [process_input] itself, which strips the line and tests it before it
    consults [_classify_input]; for the four other lines the label is the
    one [_classify_input] returns. *)
Theorem classifier_examples :
  input_type "ls" = direct_command ∧
  input_type "create folder test" = simple_folder_creation ∧
  folder_name "create folder test" = Some "test" ∧
  input_type "what is my cpu usage?" = system_query ∧
  input_type "hello" = chat ∧
  input_type "" = empty ∧
  _classify_input "ls" = direct_command ∧
  _classify_input "create folder test" = simple_folder_creation ∧
  _classify_input "what is my cpu usage?" = system_query ∧
  _classify_input "hello" = chat.
Proof. repeat split; vm_compute; reflexivity. Qed.

End classifier_claims.
(** ** Command executor *)

Section executor_facts.

Import Terminal.

Implicit Types (w : world) (sid p : string) (locks : lock_table).

Lemma check_lock_eq sid p w :
  check_lock sid p w = (Ok (_check_lock sid p (lock_file (sync w))), sync w).
Proof. reflexivity. Qed.

Lemma acquire_lock_eq sid p w :
  acquire_lock sid p w
  = (Ok (_acquire_lock (clock (sync w)) sid p (lock_file (sync w))).1,
     set_lock_file
       (_acquire_lock (clock (sync w)) sid p (lock_file (sync w))).2
       (sync w)).
Proof.
  unfold acquire_lock.
  destruct (_acquire_lock _ _ _ _) as [ok locks]. reflexivity.
Qed.

Lemma release_lock_eq sid p w :
  release_lock sid p w
  = (Ok tt, set_lock_file (_release_lock sid p (lock_file (sync w))) (sync w)).
Proof. reflexivity. Qed.

Lemma sync_trace w : trace (sync w) = trace w.
Proof. unfold sync. destruct (others w) as [| [t f] rest]; reflexivity. Qed.

Lemma sync_quiet w : others w = [] → sync w = w.
Proof. intros H. unfold sync. rewrite H. reflexivity. Qed.

Lemma sync_foreign sid w :
  others_foreign sid w →
  others_foreign sid (sync w) ∧
  ∀ p, held_by (lock_file (sync w)) sid p → held_by (lock_file w) sid p.
Proof.
  unfold others_foreign, sync. intros H.
  destruct (others w) as [| [t f] rest] eqn:E; simpl.
  - rewrite E. split; [constructor | auto].
  - inversion H as [| ? ? Hf Hrest]; subst. split; [exact Hrest |].
    intros p. apply Hf.
Qed.

Lemma purge_held_by now locks sid p :
  held_by (purge now locks) sid p → held_by locks sid p.
Proof.
  intros (l & Hl & Hs). apply purge_lookup in Hl as [Hl _].
  exists l. split; assumption.
Qed.

Lemma acquire_held_by now sid q locks p :
  held_by (_acquire_lock now sid q locks).2 sid p →
  p = q ∨ held_by locks sid p.
Proof.
  unfold _acquire_lock.
  destruct (held_by_other (purge now locks) sid q); simpl.
  - right. assumption.
  - destruct (decide (p = q)) as [-> | Hne]; [left; reflexivity |].
    intros (l & Hl & Hs). rewrite lookup_insert_ne in Hl by congruence.
    right. apply (purge_held_by now). exists l. split; assumption.
Qed.

Lemma acquire_refused_table now sid q locks :
  (_acquire_lock now sid q locks).1 = false →
  (_acquire_lock now sid q locks).2 = locks.
Proof.
  unfold _acquire_lock.
  destruct (held_by_other (purge now locks) sid q); simpl; congruence.
Qed.

Lemma release_held_by sid q locks p :
  held_by (_release_lock sid q locks) sid p →
  p ≠ q ∧ held_by locks sid p.
Proof.
  intros H. split.
  - intros ->. exact (release_not_holder _ _ _ H).
  - revert H. unfold _release_lock.
    destruct (locks !! q) as [l|] eqn:E; [| auto].
    destruct (String.eqb (session_id l) sid); [| auto].
    intros (l' & Hl & Hs).
    destruct (decide (q = p)) as [-> | Hne].
    + rewrite lookup_delete_eq in Hl. discriminate.
    + rewrite lookup_delete_ne in Hl by exact Hne. exists l'. auto.
Qed.

Lemma try_except_ok {A} (m : M A) clauses w a w' :
  m w = (Ok a, w') → try_except m clauses w = (Ok a, w').
Proof. intros H. unfold try_except. rewrite H. reflexivity. Qed.

Lemma not_busy_error text : ¬ is_busy ("Error: " +:+ text).
Proof. intros [H | H]; discriminate. Qed.

End executor_facts.

(** The protocol of [cp] and [mv], for any transfer [work] that leaves the
    lock file alone, records the call [ev] and fails with filesystem errors
    only. *)
Section transfer.
Import Terminal.
Variables (h : host) (sid source dest : string) (work : M string) (ev : event).
Hypothesis Hframe : ∀ w,
  lock_file (work w).2 = lock_file w ∧ clock (work w).2 = clock w ∧
  others (work w).2 = others w ∧ stdin (work w).2 = stdin w ∧
  trace (work w).2 = trace w ++ [ev].
Hypothesis Herr : ∀ w e, (work w).1 = Fail e → is_OSError (cls e) = true.
Hypothesis Hres : ∀ w msg, (work w).1 = Ok msg → ¬ is_busy msg.


Let a := abspath h source.
Let b := abspath h dest.

Lemma locked_transfer_unfold w :
  locked_transfer h work source dest sid w =
  let w1 := sync w in
  if truthy (_check_lock sid a (lock_file w1)) then (Ok source_busy, w1) else
  let w2 := sync w1 in
  if truthy (_check_lock sid b (lock_file w2)) then (Ok dest_busy, w2) else
  let w3 := sync w2 in
  let r3 := _acquire_lock (clock w3) sid a (lock_file w3) in
  if negb r3.1 then (Ok source_busy, set_lock_file r3.2 w3) else
  let w4 := sync (set_lock_file r3.2 w3) in
  let r4 := _acquire_lock (clock w4) sid b (lock_file w4) in
  if negb r4.1
  then (Ok dest_busy, (release_lock sid a (set_lock_file r4.2 w4)).2)
  else
    let done w6 := (release_lock sid b (release_lock sid a w6).2).2 in
    match work (set_lock_file r4.2 w4) with
    | (Ok result, w6) => (Ok result, done w6)
    | (Fail e, w6) =>
        if is_OSError (cls e) then (Ok ("Error: " +:+ str e), done w6)
        else (Fail e, w6)
    end.
Proof.
  cbv beta iota zeta delta
    [locked_transfer try_except mbind M_bind mret M_ret check_lock
     acquire_lock release_lock handler_for error].
  fold a b.
  destruct (truthy (_check_lock sid a (lock_file (sync w)))); [reflexivity |].
  destruct (truthy (_check_lock sid b (lock_file (sync (sync w)))));
    [reflexivity |].
  destruct (_acquire_lock _ sid a _) as [[] T3]; simpl; [| reflexivity].
  destruct (_acquire_lock _ sid b _) as [[] T4]; simpl; [| reflexivity].
  destruct (work _) as [[result | e] w6]; [reflexivity |].
  destruct (is_OSError (cls e)); reflexivity.
Qed.

Lemma set_lock_file_foreign locks w :
  others_foreign sid w → others_foreign sid (set_lock_file locks w).
Proof. exact id. Qed.

(** What an acquisition does to the world. *)
Lemma acquire_world p w :
  others_foreign sid w →
  let w1 := sync w in
  let w' := set_lock_file (_acquire_lock (clock w1) sid p (lock_file w1)).2 w1 in
  others_foreign sid w' ∧ trace w' = trace w ∧
  ∀ q, held_by (lock_file w') sid q → q = p ∨ held_by (lock_file w) sid q.
Proof.
  intros Hf w1 w'. destruct (sync_foreign sid w Hf) as [Hf1 Hown].
  split; [exact Hf1 |]. split; [apply sync_trace |].
  intros q Hq. apply acquire_held_by in Hq as [-> | Hq]; auto.
Qed.

(** What a release does to the world. *)
Lemma release_world p w :
  others_foreign sid w →
  let w' := (release_lock sid p w).2 in
  others_foreign sid w' ∧ trace w' = trace w ∧
  ¬ held_by (lock_file w') sid p ∧
  ∀ q, held_by (lock_file w') sid q → q ≠ p ∧ held_by (lock_file w) sid q.
Proof.
  intros Hf w'. destruct (sync_foreign sid w Hf) as [Hf1 Hown].
  split; [exact Hf1 |]. split; [apply sync_trace |].
  split; [apply release_not_holder |].
  intros q Hq. apply release_held_by in Hq as [Hne Hq]. auto.
Qed.

Lemma work_world w :
  others_foreign sid w →
  others_foreign sid (work w).2 ∧ trace (work w).2 = trace w ++ [ev] ∧
  ∀ q, held_by (lock_file (work w).2) sid q → held_by (lock_file w) sid q.
Proof.
  intros Hf. destruct (Hframe w) as (Hl & _ & Ho & _ & Ht).
  unfold others_foreign. rewrite Ho, Hl. auto.
Qed.

Lemma locked_transfer_outcome w :
  others_foreign sid w →
  ∃ msg w',
    locked_transfer h work source dest sid w = (Ok msg, w') ∧
    (∀ p, held_by (lock_file w') sid p → held_by (lock_file w) sid p) ∧
    ((is_busy msg ∧ trace w' = trace w) ∨
     (trace w' = trace w ++ [ev] ∧
      ¬ held_by (lock_file w') sid a ∧ ¬ held_by (lock_file w') sid b ∧
      ((∃ w5, (work w5).1 = Ok msg) ∨
       (∃ w5 e, (work w5).1 = Fail e ∧ msg = "Error: " +:+ str e)))).
Proof.
  intros Hf. rewrite locked_transfer_unfold. cbv zeta.
  destruct (sync_foreign sid w Hf) as [Hf1 Hown1].
  destruct (sync_foreign sid _ Hf1) as [Hf2 Hown2].
  pose proof (sync_trace w) as Ht1.
  pose proof (sync_trace (sync w)) as Ht2.
  destruct (truthy _).
  { eexists _, _. split; [reflexivity |]. split; [exact Hown1 |].
    left. split; [left; reflexivity | exact Ht1]. }
  destruct (truthy _).
  { eexists _, _. split; [reflexivity |]. split; [auto |].
    left. split; [right; reflexivity | congruence]. }
  destruct (acquire_world a _ Hf2) as (Hf3 & Ht3 & Hown3).
  set (w3 := sync (sync (sync w))) in *.
  set (r3 := _acquire_lock (clock w3) sid a (lock_file w3)) in *.
  destruct (r3.1) eqn:E3; simpl negb; cbv iota.
  2:{ eexists _, _. split; [reflexivity |]. split.
      - intros p Hp. simpl in Hp.
        pose proof (acquire_refused_table _ _ _ _ E3) as Hr.
        unfold r3 in Hp. rewrite Hr in Hp.
        destruct (sync_foreign sid _ Hf2) as [_ Hown]. auto.
      - left. split; [left; reflexivity | congruence]. }
  destruct (acquire_world b _ Hf3) as (Hf4 & Ht4 & Hown4).
  set (w4 := sync (set_lock_file r3.2 w3)) in *.
  set (r4 := _acquire_lock (clock w4) sid b (lock_file w4)) in *.
  destruct (r4.1) eqn:E4; simpl negb; cbv iota.
  2:{ destruct (release_world a _ Hf4) as (Hf5 & Ht5 & Hna & Hown5).
      eexists _, _. split; [reflexivity |]. split.
      - intros p Hp. apply Hown5 in Hp as [Hne Hp].
        simpl in Hp.
        pose proof (acquire_refused_table _ _ _ _ E4) as Hr.
        unfold r4 in Hp. rewrite Hr in Hp.
        destruct (sync_foreign sid _ Hf3) as [_ Hown].
        apply Hown in Hp. apply Hown3 in Hp as [-> | Hp]; [contradiction |].
        auto.
      - left. split; [right; reflexivity | congruence]. }
  destruct (work_world _ Hf4) as (Hf5 & Ht5 & Hown5).
  assert (Hdone : ∀ w6 : world,
    w6 = (work (set_lock_file r4.2 w4)).2 →
    let w' := (release_lock sid b (release_lock sid a w6).2).2 in
    (∀ p, held_by (lock_file w') sid p → held_by (lock_file w) sid p) ∧
    trace w' = trace w ++ [ev] ∧
    ¬ held_by (lock_file w') sid a ∧ ¬ held_by (lock_file w') sid b).
  { intros w6 -> w'.
    destruct (release_world a _ Hf5) as (Hf6 & Ht6 & Hna & Hown6).
    destruct (release_world b _ Hf6) as (Hf7 & Ht7 & Hnb & Hown7).
    split; [| split; [| split]].
    - intros p Hp. apply Hown7 in Hp as [Hpb Hp].
      apply Hown6 in Hp as [Hpa Hp]. apply Hown5 in Hp.
      apply Hown4 in Hp as [-> | Hp]; [contradiction |].
      apply Hown3 in Hp as [-> | Hp]; [contradiction |]. auto.
    - unfold w'. congruence.
    - intros Hp. apply Hown7 in Hp as [_ Hp]. contradiction.
    - exact Hnb. }
  destruct (work (set_lock_file r4.2 w4)) as [[result | e] w6] eqn:Ew.
  - destruct (Hdone w6 eq_refl) as (H1 & H2 & H3 & H4).
    eexists _, _. split; [reflexivity |]. split; [exact H1 |].
    right. repeat split; try assumption.
    left. exists (set_lock_file r4.2 w4). rewrite Ew. reflexivity.
  - rewrite (Herr (set_lock_file r4.2 w4) e) by (rewrite Ew; reflexivity).
    destruct (Hdone w6 eq_refl) as (H1 & H2 & H3 & H4).
    eexists _, _. split; [reflexivity |]. split; [exact H1 |].
    right. repeat split; try assumption.
    right. exists (set_lock_file r4.2 w4), e. rewrite Ew. split; reflexivity.
Qed.

(** The four refusals. *)
Lemma locked_transfer_refusals w msg w' :
  locked_transfer h work source dest sid w = (Ok msg, w') →
  let w3 := sync (sync (sync w)) in
  let r3 := _acquire_lock (clock w3) sid a (lock_file w3) in
  let w4 := sync (set_lock_file r3.2 w3) in
  let r4 := _acquire_lock (clock w4) sid b (lock_file w4) in
  truthy (_check_lock sid a (lock_file (sync w))) = true ∨
  truthy (_check_lock sid b (lock_file (sync (sync w)))) = true ∨
  r3.1 = false ∨ r4.1 = false →
  is_busy msg.
Proof.
  rewrite locked_transfer_unfold. cbv zeta.
  destruct (truthy _); [intros [= <- _] _; left; reflexivity |].
  destruct (truthy _); [intros [= <- _] _; right; reflexivity |].
  destruct (_acquire_lock _ sid a _).1; simpl negb; cbv iota;
    [| intros [= <- _] _; left; reflexivity].
  destruct (_acquire_lock _ sid b _).1; simpl negb; cbv iota;
    [| intros [= <- _] _; right; reflexivity].
  intros _ [H | [H | [H | H]]]; discriminate.
Qed.

(** With nobody else at work: a live lock of another session on either
    path refuses the transfer. *)
Lemma locked_transfer_quiet w msg w' :
  locked_transfer h work source dest sid w = (Ok msg, w') →
  others w = [] →
  live_lock_of_another (lock_file w) (clock w) sid a ∨
  live_lock_of_another (lock_file w) (clock w) sid b →
  is_busy msg.
Proof.
  intros Hrun Hq Hlive. apply (locked_transfer_refusals _ _ _ Hrun).
  rewrite !(sync_quiet w Hq).
  assert (Hsync : ∀ locks, sync (set_lock_file locks w) = set_lock_file locks w).
  { intros locks. apply sync_quiet. exact Hq. }
  rewrite Hsync. simpl.
  set (r3 := _acquire_lock (clock w) sid a (lock_file w)).
  destruct r3.1 eqn:E3; [| auto].
  right. right. right.
  assert (Ha : ¬ held_by_another (purge (clock w) (lock_file w)) sid a).
  { apply held_by_other_false. unfold r3, _acquire_lock in E3.
    destruct (held_by_other _ sid a); [discriminate | reflexivity]. }
  destruct Hlive as [(l & Hl & Hne & Hlive) | (l & Hl & Hne & Hlive)].
  { exfalso. apply Ha. exists l. split; [| exact Hne].
    apply purge_lookup. auto. }
  assert (Hab : a ≠ b).
  { intros Heq. apply Ha. exists l. rewrite Heq. split; [| exact Hne].
    apply purge_lookup. auto. }
  unfold r3. rewrite (acquire_succeeds _ _ _ _ Ha). simpl.
  rewrite acquire_fails; [reflexivity |].
  exists l. split; [| exact Hne].
  apply purge_lookup. split; [| exact Hlive].
  rewrite lookup_insert_ne by exact Hab. apply purge_lookup. auto.
Qed.
Lemma locked_transfer_contract w :
  others_foreign sid w →
  let w3 := sync (sync (sync w)) in
  let r3 := _acquire_lock (clock w3) sid a (lock_file w3) in
  let w4 := sync (set_lock_file r3.2 w3) in
  let r4 := _acquire_lock (clock w4) sid b (lock_file w4) in
  ∃ msg w',
    try_except (locked_transfer h work source dest sid)
      [(is_Exception, error)] w = (Ok msg, w') ∧
    (∀ p, held_by (lock_file w') sid p → held_by (lock_file w) sid p) ∧
    ((is_busy msg ∧ trace w' = trace w) ∨
     (¬ is_busy msg ∧ trace w' = trace w ++ [ev] ∧
      ¬ held_by (lock_file w') sid a ∧ ¬ held_by (lock_file w') sid b)) ∧
    (truthy (_check_lock sid a (lock_file (sync w))) = true ∨
     truthy (_check_lock sid b (lock_file (sync (sync w)))) = true ∨
     r3.1 = false ∨ r4.1 = false →
     is_busy msg) ∧
    (others w = [] →
     live_lock_of_another (lock_file w) (clock w) sid a ∨
     live_lock_of_another (lock_file w) (clock w) sid b →
     is_busy msg).
Proof.
  intros Hf w3 r3 w4 r4.
  destruct (locked_transfer_outcome w Hf) as (msg & w' & Ht & Hown & Hout).
  exists msg, w'. split; [| split; [exact Hown | split; [| split]]].
  - apply try_except_ok, Ht.
  - destruct Hout as [Hbusy | (Htr & Ha & Hb & Hmsg)]; [left; exact Hbusy |].
    right. repeat split; try assumption.
    destruct Hmsg as [(w5 & Hw5) | (w5 & e & _ & ->)].
    + apply (Hres _ _ Hw5).
    + apply not_busy_error.
  - apply (locked_transfer_refusals w msg w' Ht).
  - apply (locked_transfer_quiet w msg w' Ht).
Qed.

End transfer.

(** [cp] and [mv] are instances of the protocol. *)
Section cp_mv.
Import Terminal.
Variable h : host.
Hypothesis Hos : transfer_errors_are_OSError h.

Lemma cp_work_frame source dest w :
  lock_file (cp_work h source dest w).2 = lock_file w ∧
  clock (cp_work h source dest w).2 = clock w ∧
  others (cp_work h source dest w).2 = others w ∧
  stdin (cp_work h source dest w).2 = stdin w ∧
  trace (cp_work h source dest w).2
  = trace w ++ [transfer_of h "cp" source dest].
Proof.
  unfold cp_work, transfer_of. simpl.
  destruct (isdir h source); unfold mbind, M_bind, sys;
    destruct (os h _ _); repeat split.
Qed.

Lemma cp_work_error source dest w e :
  (cp_work h source dest w).1 = Fail e → is_OSError (cls e) = true.
Proof.
  unfold cp_work.
  destruct (isdir h source); unfold mbind, M_bind, sys;
    destruct (os h _ _) as [[] | e'] eqn:E; simpl; try discriminate;
    intros [= <-]; apply (λ H, Hos _ _ _ H E); reflexivity.
Qed.

Lemma mv_work_frame source dest w :
  lock_file (mv_work h source dest w).2 = lock_file w ∧
  clock (mv_work h source dest w).2 = clock w ∧
  others (mv_work h source dest w).2 = others w ∧
  stdin (mv_work h source dest w).2 = stdin w ∧
  trace (mv_work h source dest w).2
  = trace w ++ [transfer_of h "mv" source dest].
Proof.
  unfold mv_work, transfer_of. simpl.
  unfold mbind, M_bind, sys; destruct (os h _ _); repeat split.
Qed.

Lemma mv_work_error source dest w e :
  (mv_work h source dest w).1 = Fail e → is_OSError (cls e) = true.
Proof.
  unfold mv_work. unfold mbind, M_bind, sys;
    destruct (os h _ _) as [[] | e'] eqn:E; simpl; try discriminate;
    intros [= <-]; apply (λ H, Hos _ _ _ H E); reflexivity.
Qed.

Lemma cp_paths_protocol source dest sid w :
  path_exists h source = true →
  cp_paths h source dest sid w
  = locked_transfer h (cp_work h source dest) source dest sid w.
Proof. intros H. unfold cp_paths. rewrite H. reflexivity. Qed.

Lemma mv_paths_protocol source dest sid w :
  path_exists h source = true →
  mv_paths h source dest sid w
  = locked_transfer h (mv_work h source dest) source dest sid w.
Proof.
  intros H. unfold mv_paths. rewrite H.
  rewrite locked_transfer_unfold.
  cbv beta iota zeta delta
    [negb try_except mbind M_bind mret M_ret check_lock
     acquire_lock release_lock handler_for error mv_work].
  destruct (truthy _); [reflexivity |].
  destruct (truthy _); [reflexivity |].
  destruct (_acquire_lock _ sid (abspath h source) _) as [[] T3]; simpl;
    [| reflexivity].
  destruct (_acquire_lock _ sid (abspath h dest) _) as [[] T4]; simpl;
    [| reflexivity].
  unfold sys.
  destruct (os h _ (Move source dest)) as [[] | e]; [reflexivity |].
  destruct (is_OSError (cls e)); reflexivity.
Qed.

Lemma run_command_cp source dest sid w :
  path_exists h source = true →
  run_command h "cp" [source; dest] sid w
  = try_except (locked_transfer h (cp_work h source dest) source dest sid)
      [(is_Exception, error)] w.
Proof.
  intros H. change (run_command h "cp" [source; dest] sid w)
    with (try_except (cp_paths h source dest sid) [(is_Exception, error)] w).
  unfold try_except. rewrite (cp_paths_protocol _ _ _ _ H). reflexivity.
Qed.

Lemma run_command_mv source dest sid w :
  path_exists h source = true →
  run_command h "mv" [source; dest] sid w
  = try_except (locked_transfer h (mv_work h source dest) source dest sid)
      [(is_Exception, error)] w.
Proof.
  intros H. change (run_command h "mv" [source; dest] sid w)
    with (try_except (mv_paths h source dest sid) [(is_Exception, error)] w).
  unfold try_except. rewrite (mv_paths_protocol _ _ _ _ H). reflexivity.
Qed.

Lemma cp_work_not_busy source dest w msg :
  (cp_work h source dest w).1 = Ok msg → ¬ is_busy msg.
Proof.
  unfold cp_work, mbind, M_bind, sys.
  destruct (isdir h source); destruct (os h _ _); simpl; try discriminate;
    intros [= <-] [H | H]; discriminate.
Qed.

Lemma mv_work_not_busy source dest w msg :
  (mv_work h source dest w).1 = Ok msg → ¬ is_busy msg.
Proof.
  unfold mv_work, mbind, M_bind, sys.
  destruct (os h _ _); simpl; try discriminate;
    intros [= <-] [H | H]; discriminate.
Qed.

End cp_mv.


(** Exceptions: on a benign host every branch raises instances of
    [Exception] only. *)
Section safety.
Import Terminal.
Variable h : host.
Hypothesis Hbenign : benign h.

Lemma safe_ret {A} (a : A) : safe (mret a).
Proof. intros w Hw. split; [exact Hw | discriminate]. Qed.

Lemma safe_bind {A B} (m : M A) (k : A → M B) :
  safe m → (∀ a, safe (k a)) → safe (m ≫= k).
Proof.
  intros Hm Hk w Hw. unfold mbind, M_bind.
  destruct (Hm w Hw) as [Hcalm Hexn].
  destruct (m w) as [[a | e] w1]; simpl in *.
  - apply Hk, Hcalm.
  - split; [exact Hcalm |]. intros e' [= <-]. apply Hexn. reflexivity.
Qed.

Lemma handler_for_elem {A} (clauses : list ((exn_class → bool) * (exn → M A)))
    e hd :
  handler_for clauses e = Some hd → ∃ c, c ∈ clauses ∧ hd = c.2 e.
Proof.
  induction clauses as [| [isinstance hc] rest IH]; simpl; [discriminate |].
  destruct (isinstance (cls e)).
  - intros [= <-]. eexists. split; [left |]. reflexivity.
  - intros H. destruct (IH H) as (c & Hc & ->).
    exists c. split; [right; exact Hc | reflexivity].
Qed.

Lemma safe_try {A} (m : M A) clauses :
  safe m → Forall (λ c, ∀ e, safe (c.2 e)) clauses →
  safe (try_except m clauses).
Proof.
  intros Hm Hc w Hw. unfold try_except.
  destruct (Hm w Hw) as [Hcalm Hexn].
  destruct (m w) as [[a | e] w1]; simpl in *.
  - split; [exact Hcalm | discriminate].
  - destruct (handler_for clauses e) as [hd |] eqn:E.
    + apply handler_for_elem in E as (c & Hin & ->).
      rewrite Forall_forall in Hc. apply (Hc c Hin e w1 Hcalm).
    + split; [exact Hcalm |]. intros e' [= <-]. apply Hexn. reflexivity.
Qed.

Lemma safe_sys {A} (c : call A) : safe (sys h c).
Proof.
  intros w Hw. split; [exact Hw |]. simpl. apply (proj1 Hbenign).
Qed.

Lemma sync_stdin w : stdin (sync w) = stdin w.
Proof. unfold sync. destruct (others w) as [| [t f] rest]; reflexivity. Qed.

Lemma safe_check_lock sid p : safe (check_lock sid p).
Proof.
  intros w Hw. split; [| discriminate].
  unfold calm. simpl. rewrite sync_stdin. exact Hw.
Qed.

Lemma safe_acquire_lock sid p : safe (acquire_lock sid p).
Proof.
  intros w Hw. rewrite acquire_lock_eq. split; [| discriminate].
  unfold calm. simpl. rewrite sync_stdin. exact Hw.
Qed.

Lemma safe_release_lock sid p : safe (release_lock sid p).
Proof.
  intros w Hw. split; [| discriminate].
  unfold calm. simpl. rewrite sync_stdin. exact Hw.
Qed.

Lemma safe_error e : safe (error e).
Proof. apply safe_ret. Qed.

Lemma read_until_save_calm inp acc :
  Interrupt ∉ inp →
(Interrupt ∉ (read_until_save inp acc).2) ∧
  ∀ e, (read_until_save inp acc).1 = Fail e → is_Exception (cls e) = true.
Proof.
  revert acc. induction inp as [| [line |] rest IH]; intros acc Hin; simpl.
  - split; [exact Hin | intros e [= <-]; reflexivity].
  - apply not_elem_of_cons in Hin as [_ Hrest].
    destruct (String.eqb (PyStr.strip line) "SAVE"); simpl.
    + split; [exact Hrest | discriminate].
    + apply IH, Hrest.
  - exfalso. apply Hin. left.
Qed.

Lemma safe_input_until_save : safe input_until_save.
Proof.
  intros w Hw. unfold input_until_save.
  destruct (read_until_save_calm (stdin w) [] Hw) as [Hc He].
  destruct (read_until_save (stdin w) []) as [r rest]. simpl in *.
  split; [exact Hc | exact He].
Qed.

Lemma ps_lines_error procs e :
  ps_lines procs = Fail e → Fail e ∈ procs.
Proof.
  induction procs as [| [line | e'] rest IH]; simpl; [discriminate | |].
  - destruct (ps_lines rest); [discriminate |].
    intros [= ->]. right. apply IH. reflexivity.
  - destruct (is_psutil_gone (cls e')).
    + intros H. right. apply IH, H.
    + intros [= ->]. left.
Qed.

Lemma safe_cmd_ps : safe (cmd_ps h).
Proof.
  intros w Hw. unfold cmd_ps, mbind, M_bind, sys, lift.
  destruct (os h _ ProcessIter) as [procs | e] eqn:E; simpl.
  - destruct (ps_lines procs) as [[| line lines] | e] eqn:Ep; simpl;
      try (split; [exact Hw | discriminate]).
    split; [exact Hw |]. intros e' [= <-].
    apply (proj2 Hbenign procs e E). apply ps_lines_error, Ep.
  - split; [exact Hw |]. intros e' [= <-]. apply (proj1 Hbenign _ _ _ E).
Qed.

Ltac safe :=
  repeat first
    [ apply safe_ret | apply safe_error | apply safe_sys
    | apply safe_check_lock | apply safe_acquire_lock
    | apply safe_release_lock | apply safe_input_until_save
    | apply safe_bind | apply safe_try
    | apply Forall_cons; split | apply Forall_nil | exact I
    | progress intros | progress cbn beta iota
    | match goal with
      | |- safe (match ?x with _ => _ end) => destruct x
      end ].

Lemma safe_dispatch cmd args sid : safe (dispatch h cmd args sid).
Proof.
  unfold dispatch.
  repeat match goal with
         | |- safe (if ?b then _ else _) => destruct b
         end.
  all: try apply safe_cmd_ps.
  all: unfold cmd_pwd, cmd_ls, cmd_cd, cmd_mkdir, cmd_touch, cmd_rm, cmd_cp,
    cmd_mv, cp_paths, mv_paths, source_and_dest, cmd_cat, cmd_edit, cmd_cpu,
    cmd_mem, cmd_find, cmd_grep, cmd_clear, cmd_echo, cmd_date, cmd_whoami,
    cmd_uname, cmd_df, cmd_shell.
  all: safe.
Qed.

End safety.

Section executor_claims.

Import Terminal.

(** C3 (as the code has it). [cp] and [mv] with explicit source and
    destination, when the source path exists (a missing source is reported
    first, before any lock is looked at), and while the other sessions give
    this one no lock. The call returns a text, and
    - it leaves the session no lock that the session did not hold before;
    - either the text is one of the two busy messages and no copy or move
      was made, or the one transfer was made (it succeeded or failed with a
      filesystem error) and the session holds neither path afterwards;
    - the text is a busy message when a check reports another holder or an
      acquisition fails, for either path; in particular, with no other
      session at work, when either path is locked by another session and
      the lock has not expired. *)
Theorem cp_mv_lock_protocol (h : host) (cmd source dest sid : string)
    (w : world) :
  cmd = "cp" ∨ cmd = "mv" →
  path_exists h source = true →
  transfer_errors_are_OSError h →
  others_foreign sid w →
  let a := abspath h source in
  let b := abspath h dest in
  let w3 := sync (sync (sync w)) in
  let r3 := _acquire_lock (clock w3) sid a (lock_file w3) in
  let w4 := sync (set_lock_file r3.2 w3) in
  let r4 := _acquire_lock (clock w4) sid b (lock_file w4) in
  ∃ msg w',
    run_command h cmd [source; dest] sid w = (Ok msg, w') ∧
    (∀ p, held_by (lock_file w') sid p → held_by (lock_file w) sid p) ∧
    ((is_busy msg ∧ trace w' = trace w) ∨
     (¬ is_busy msg ∧
      trace w' = trace w ++ [transfer_of h cmd source dest] ∧
      ¬ held_by (lock_file w') sid a ∧ ¬ held_by (lock_file w') sid b)) ∧
    (truthy (_check_lock sid a (lock_file (sync w))) = true ∨
     truthy (_check_lock sid b (lock_file (sync (sync w)))) = true ∨
     r3.1 = false ∨ r4.1 = false →
     is_busy msg) ∧
    (others w = [] →
     live_lock_of_another (lock_file w) (clock w) sid a ∨
     live_lock_of_another (lock_file w) (clock w) sid b →
     is_busy msg).
Proof.
  intros Hcmd Hex Hos Hf a b w3 r3 w4 r4.
  destruct Hcmd as [-> | ->].
  - rewrite (run_command_cp h source dest sid w Hex).
    apply (locked_transfer_contract h sid source dest
             (cp_work h source dest) (transfer_of h "cp" source dest)).
    + apply cp_work_frame.
    + intros w0 e. apply cp_work_error, Hos.
    + intros w0 msg. apply cp_work_not_busy.
    + exact Hf.
  - rewrite (run_command_mv h source dest sid w Hex).
    apply (locked_transfer_contract h sid source dest
             (mv_work h source dest) (transfer_of h "mv" source dest)).
    + apply mv_work_frame.
    + intros w0 e. apply mv_work_error, Hos.
    + intros w0 msg. apply mv_work_not_busy.
    + exact Hf.
Qed.

(** Session [A] copies [/a] to [/b] while session [B] takes a lock on
    [/z]. *)
Example cp_mv_lock_protocol_witness :
  let w := World ∅ 0 [(10%Q, λ locks, <["/z" := LockInfo "B" 10]> locks)]
             [] [] in
  ∃ msg w',
    run_command quiet_host "cp" ["/a"; "/b"] "A" w = (Ok msg, w') ∧
    ∀ p, held_by (lock_file w') "A" p → held_by (lock_file w) "A" p.
Proof.
  intros w.
  destruct (cp_mv_lock_protocol quiet_host "cp" "/a" "/b" "A" w)
    as (msg & w' & Hrun & Hown & _).
  - left. reflexivity.
  - reflexivity.
  - intros A c e Ht H. destruct c; simpl in *; discriminate.
  - constructor; [| constructor]. simpl. intros locks p (l & Hl & Hs).
    destruct (decide ("/z" = p)) as [<- | Hne].
    + rewrite lookup_insert_eq in Hl. injection Hl as <-. discriminate.
    + rewrite lookup_insert_ne in Hl by exact Hne. exists l. auto.
  - exists msg, w'. split; assumption.
Defined.

(** C3 as stated fails when the source does not exist: [/b] is locked by
    session [B] and the lock is fresh, yet [cp /a /b] by session [A]
    answers that [/a] does not exist, which is not a busy message. *)
Lemma cp_missing_source_is_not_busy :
  let w := World {[ "/b" := LockInfo "B" 0 ]} 1 [] [] [] in
  live_lock_of_another (lock_file w) (clock w) "A" (abspath missing_host "/b")
  ∧ run_command missing_host "cp" ["/a"; "/b"] "A" w
    = (Ok "Error: /a does not exist", w)
  ∧ ¬ is_busy "Error: /a does not exist".
Proof.
  intros w. split; [| split].
  - exists (LockInfo "B" 0). split; [reflexivity |]. split; [discriminate |].
    unfold expired. simpl. lra.
  - reflexivity.
  - apply (not_busy_error "/a does not exist").
Qed.

(** The expiry of C2 seen from the executor: at time 301 session [B] is
    still refused the directory that session [A] locked at time 0, because
    the branch asks [_check_lock] first. *)
Lemma mkdir_refused_after_expiry :
  let w := World {[ "/tmp/x" := LockInfo "A" 0 ]} 301 [] [] [] in
  run_command quiet_host "mkdir" ["/tmp/x"] "B" w = (Ok busy, w).
Proof. vm_compute. reflexivity. Qed.

(** C10 (as the code has it). For every command name, argument list and
    session id, when nothing the function calls raises an exception that is
    not an instance of [Exception] ([KeyboardInterrupt], [SystemExit]),
    [run_command] returns a text: no exception reaches its caller. *)
Theorem run_command_total (h : host) (cmd : string) (args : list string)
    (sid : string) (w : world) :
  benign h → calm w →
  ∃ out w', run_command h cmd args sid w = (Ok out, w').
Proof.
  intros Hb Hw. unfold run_command, try_except.
  destruct (safe_dispatch h Hb cmd args sid w Hw) as [_ Hexn].
  destruct (dispatch h cmd args sid w) as [[out | e] w1].
  - eexists _, _. reflexivity.
  - simpl. rewrite (Hexn e eq_refl). eexists _, _. reflexivity.
Qed.

Example run_command_total_witness :
  let w := World ∅ 0 [] [Line "first line"; Line "SAVE"] [] in
  ∃ out w', run_command quiet_host "edit" ["notes.txt"] "A" w = (Ok out, w').
Proof.
  intros w. apply (run_command_total quiet_host "edit" ["notes.txt"] "A" w).
  - split.
    + intros A c e H. destruct c; discriminate.
    + intros procs e [= <-] Hin. inversion Hin.
  - unfold calm. simpl. intros Hin.
    apply elem_of_cons in Hin as [Hin | Hin]; [discriminate |].
    apply elem_of_cons in Hin as [Hin | Hin]; [discriminate |].
    inversion Hin.
Defined.

(** C10 as stated fails: Ctrl-C while [edit] waits for a line raises
    [KeyboardInterrupt], which neither handler of the branch catches; it
    reaches the caller, and the lock taken on the file stays. *)
Lemma run_command_passes_on_interrupt :
  let w := World ∅ 0 [] [Line "first line"; Interrupt] [] in
  let r := run_command quiet_host "edit" ["notes.txt"] "A" w in
  r.1 = Fail (Exn KeyboardInterrupt "") ∧
  held_by (lock_file r.2) "A" "notes.txt".
Proof.
  intros w r. split.
  - vm_compute. reflexivity.
  - exists (LockInfo "A" 0). split; vm_compute; reflexivity.
Qed.

End executor_claims.

(** * Further properties of the code *)

(** ** Lock manager: how the three operations compose *)

Section lock_extras.

Import Locks.

Implicit Types (file locks : lock_table) (s p : string) (now t : Q).

Lemma purge_insert_live now file p l :
  ¬ expired now l →
  purge now (<[p := l]> file) = <[p := l]> (purge now file).
Proof. intros H. unfold purge. apply map_filter_insert_True. exact H. Qed.

Lemma purge_twice t1 t2 file :
  (t1 <= t2)%Q → purge t2 (purge t1 file) = purge t2 file.
Proof.
  intros Hle. apply map_eq. intros k. apply option_eq. intros l.
  rewrite !purge_lookup. unfold expired. split.
  - intros [[H1 _] H2]. auto.
  - intros [H1 H2]. repeat split; auto. intros H3. apply H2. lra.
Qed.

Lemma acquire_true_table now s p file T :
  _acquire_lock now s p file = (true, T) →
  T = <[p := LockInfo s now]> (purge now file).
Proof.
  unfold _acquire_lock. destruct (held_by_other _ s p); [discriminate |].
  intros [= <-]. reflexivity.
Qed.

Lemma acquire_refused_holder now s p file :
  (_acquire_lock now s p file).1 = false →
  ∃ l, file !! p = Some l ∧ session_id l ≠ s ∧ ¬ expired now l.
Proof.
  unfold _acquire_lock.
  destruct (held_by_other (purge now file) s p) eqn:E; [| discriminate].
  intros _. apply held_by_other_true in E as (l & Hl & Hne).
  apply purge_lookup in Hl as [Hl Hlive]. exists l. auto.
Qed.

(** X1. Mutual exclusion. Once a session has acquired a path, every other
    session that asks within 300 seconds of the stamp is refused, the
    stored table is left as it is, and [check] names the holder. *)
Theorem acquire_excludes_others (t t' : Q) (s s' p : string)
    (file T : lock_table) :
  _acquire_lock t s p file = (true, T) →
  s' ≠ s → (t' - t <= 300)%Q →
  _acquire_lock t' s' p T = (false, T) ∧ _check_lock s' p T = Some s.
Proof.
  intros Hacq Hne Ht. apply acquire_true_table in Hacq.
  assert (HT : T !! p = Some (LockInfo s t)).
  { rewrite Hacq. apply lookup_insert_eq. }
  split.
  - apply acquire_fails. exists (LockInfo s t). split; [| simpl; congruence].
    apply purge_lookup. split; [exact HT |]. unfold expired. simpl. lra.
  - unfold _check_lock, held_by_other. rewrite HT. simpl.
    assert (E : String.eqb s s' = false) by (apply String.eqb_neq; congruence).
    rewrite E. reflexivity.
Qed.

Example acquire_excludes_others_witness :
  let T : lock_table := {[ "/tmp/x" := LockInfo "A" 100 ]} in
  _acquire_lock 400 "B" "/tmp/x" T = (false, T) ∧
  _check_lock "B" "/tmp/x" T = Some "A".
Proof.
  intros T.
  apply (acquire_excludes_others 100 400 "A" "B" "/tmp/x" ∅ T).
  - vm_compute. reflexivity.
  - discriminate.
  - lra.
Defined.

(** X2. Hand-over. When the holder releases a path, the next acquisition
    of it by any session succeeds, whatever the time, and stores that
    session as the holder. *)
Theorem release_hands_over (now : Q) (s s' p : string) (file : lock_table) :
  held_by file s p →
  _acquire_lock now s' p (_release_lock s p file)
  = (true, <[p := LockInfo s' now]> (purge now (delete p file))).
Proof.
  intros Hh. rewrite (release_held _ _ _ Hh).
  apply acquire_succeeds. intros (l & Hl & _).
  apply purge_lookup in Hl as [Hl _]. rewrite lookup_delete_eq in Hl.
  discriminate.
Qed.

Example release_hands_over_witness :
  let file : lock_table := {[ "/tmp/x" := LockInfo "A" 100 ]} in
  _acquire_lock 101 "B" "/tmp/x" (_release_lock "A" "/tmp/x" file)
  = (true, <["/tmp/x" := LockInfo "B" 101]> (purge 101 (delete "/tmp/x" file))).
Proof.
  intros file. apply (release_hands_over 101 "A" "B" "/tmp/x" file).
  exists (LockInfo "A" 100). split; reflexivity.
Defined.

(** X3. Acquiring is idempotent: a session that has just acquired a path
    and asks again at the same clock reading succeeds and the stored table
    does not change. *)
Theorem acquire_again (now : Q) (s p : string) (file T : lock_table) :
  _acquire_lock now s p file = (true, T) →
  _acquire_lock now s p T = (true, T).
Proof.
  intros Hacq. apply acquire_true_table in Hacq. subst T.
  assert (Hlive : ¬ expired now (LockInfo s now)).
  { unfold expired. simpl. lra. }
  rewrite acquire_succeeds.
  - rewrite (purge_insert_live _ _ _ _ Hlive), purge_twice by lra.
    rewrite insert_insert_eq. reflexivity.
  - intros (l & Hl & Hs). rewrite (purge_insert_live _ _ _ _ Hlive) in Hl.
    rewrite lookup_insert_eq in Hl. injection Hl as <-. apply Hs. reflexivity.
Qed.

Example acquire_again_witness :
  let T : lock_table := {[ "/tmp/x" := LockInfo "A" 100 ]} in
  _acquire_lock 100 "A" "/tmp/x" T = (true, T).
Proof.
  intros T. apply (acquire_again 100 "A" "/tmp/x" ∅ T).
  vm_compute. reflexivity.
Defined.

(** X4. An acquisition followed by the release of the same path by the
    same session leaves the table purged at the time of the acquisition
    with no entry for the path: the pair adds nothing, and it also removes
    an expired lock another session had left on the path. *)
Theorem acquire_then_release (now : Q) (s p : string) (file T : lock_table) :
  _acquire_lock now s p file = (true, T) →
  _release_lock s p T = delete p (purge now file).
Proof.
  intros Hacq. apply acquire_true_table in Hacq. subst T.
  rewrite release_held.
  - apply delete_insert_eq.
  - exists (LockInfo s now). split; [apply lookup_insert_eq | reflexivity].
Qed.

Example acquire_then_release_witness :
  let file : lock_table := {[ "/tmp/x" := LockInfo "B" 0 ]} in
  let T := (_acquire_lock 1000 "A" "/tmp/x" file).2 in
  _release_lock "A" "/tmp/x" T = delete "/tmp/x" (purge 1000 file).
Proof.
  intros file T. apply (acquire_then_release 1000 "A" "/tmp/x" file T).
  vm_compute. reflexivity.
Defined.

(** X5. [check] and [acquire] agree up to expiry. When [check] reports no
    holder, [acquire] succeeds at any time; when [acquire] is refused,
    [check] on the same table names a holder, which is another session
    whose lock on the path is at most 300 seconds old. *)
Theorem check_explains_refusal (now : Q) (s p : string) (file : lock_table) :
  (_check_lock s p file = None → (_acquire_lock now s p file).1 = true) ∧
  ((_acquire_lock now s p file).1 = false →
     ∃ holder l, _check_lock s p file = Some holder ∧ holder ≠ s ∧
       file !! p = Some l ∧ session_id l = holder ∧
       ¬ (300 < now - timestamp l)%Q).
Proof.
  split.
  - intros Hc. rewrite acquire_succeeds; [reflexivity |].
    intros (l & Hl & Hne). apply purge_lookup in Hl as [Hl _].
    unfold _check_lock, held_by_other in Hc. rewrite Hl in Hc.
    apply String.eqb_neq in Hne. rewrite Hne in Hc. discriminate.
  - intros Hf. apply acquire_refused_holder in Hf as (l & Hl & Hne & Hlive).
    exists (session_id l), l. repeat split; auto.
    unfold _check_lock, held_by_other. rewrite Hl.
    apply String.eqb_neq in Hne. rewrite Hne. reflexivity.
Qed.

Example check_explains_refusal_witness :
  let file : lock_table := {[ "/tmp/x" := LockInfo "A" 100 ]} in
  (_acquire_lock 200 "B" "/tmp/y" file).1 = true ∧
  ∃ holder l, _check_lock "B" "/tmp/x" file = Some holder ∧ holder ≠ "B" ∧
    file !! "/tmp/x" = Some l ∧ session_id l = holder ∧
    ¬ (300 < 200 - timestamp l)%Q.
Proof.
  intros file. split.
  - apply (check_explains_refusal 200 "B" "/tmp/y" file). reflexivity.
  - apply (check_explains_refusal 200 "B" "/tmp/x" file).
    vm_compute. reflexivity.
Defined.

(** X6. Purging lazily loses nothing. Whether an earlier purge was written
    back or not makes no difference to a later acquisition: on the table
    purged at an earlier time and on the table as it was, [acquire] gives
    the same answer, and when it succeeds it stores the same table. *)
Theorem acquire_after_unsaved_purge (t1 t2 : Q) (s p : string)
    (file : lock_table) :
  (t1 <= t2)%Q →
  (_acquire_lock t2 s p (purge t1 file)).1 = (_acquire_lock t2 s p file).1 ∧
  ((_acquire_lock t2 s p file).1 = true →
   _acquire_lock t2 s p (purge t1 file) = _acquire_lock t2 s p file).
Proof.
  intros Hle. unfold _acquire_lock. rewrite (purge_twice _ _ _ Hle).
  destruct (held_by_other (purge t2 file) s p); simpl.
  - split; [reflexivity | discriminate].
  - split; reflexivity.
Qed.

Example acquire_after_unsaved_purge_witness :
  let file : lock_table :=
    {[ "/a" := LockInfo "s1" 0; "/b" := LockInfo "s2" 900 ]} in
  _acquire_lock 1300 "s3" "/b" (purge 1000 file)
  = _acquire_lock 1300 "s3" "/b" file.
Proof.
  intros file.
  apply (acquire_after_unsaved_purge 1000 1300 "s3" "/b" file).
  - lra.
  - vm_compute. reflexivity.
Defined.

End lock_extras.

(** ** Command executor: which branches lock, and what they leave *)

Section lock_freedom.

Import Terminal.

Variable h : host.

Lemma lock_free_ret {A} (a : A) : lock_free (mret a).
Proof. intros w. auto. Qed.

Lemma lock_free_bind {A B} (m : M A) (k : A → M B) :
  lock_free m → (∀ a, lock_free (k a)) → lock_free (m ≫= k).
Proof.
  intros Hm Hk w. unfold mbind, M_bind.
  destruct (Hm w) as (H1 & H2 & H3).
  destruct (m w) as [[a | e] w1]; simpl in *.
  - destruct (Hk a w1) as (K1 & K2 & K3). repeat split; congruence.
  - auto.
Qed.

Lemma lock_free_try {A} (m : M A) clauses :
  lock_free m → Forall (λ c, ∀ e, lock_free (c.2 e)) clauses →
  lock_free (try_except m clauses).
Proof.
  intros Hm Hc w. unfold try_except.
  destruct (Hm w) as (H1 & H2 & H3).
  destruct (m w) as [[a | e] w1]; simpl in *; [auto |].
  destruct (handler_for clauses e) as [hd |] eqn:E; [| auto].
  apply handler_for_elem in E as (c & Hin & ->).
  rewrite Forall_forall in Hc.
  destruct (Hc c Hin e w1) as (K1 & K2 & K3). repeat split; congruence.
Qed.

Lemma lock_free_sys {A} (c : call A) : lock_free (sys h c).
Proof. intros w. auto. Qed.

Lemma lock_free_lift {A} (r : res A) : lock_free (lift r).
Proof. intros w. auto. Qed.

Lemma lock_free_error e : lock_free (error e).
Proof. apply lock_free_ret. Qed.

Lemma lock_free_input_until_save : lock_free input_until_save.
Proof.
  intros w. unfold input_until_save.
  destruct (read_until_save (stdin w) []). auto.
Qed.

Ltac lock_free :=
  repeat first
    [ apply lock_free_ret | apply lock_free_error | apply lock_free_sys
    | apply lock_free_lift | apply lock_free_input_until_save
    | apply lock_free_bind | apply lock_free_try
    | apply Forall_cons; split | apply Forall_nil | exact I
    | progress intros | progress cbn beta iota
    | match goal with
      | |- lock_free (match ?x with _ => _ end) => destruct x
      end ].

Lemma lock_free_edit_work target : lock_free (edit_work h target).
Proof. unfold edit_work. lock_free. Qed.

Lemma lock_free_dispatch cmd args sid :
  cmd ∉ locking_commands ∨ (args = [] ∧ cmd ≠ "cp" ∧ cmd ≠ "mv") →
  lock_free (dispatch h cmd args sid).
Proof.
  intros Hcmd. unfold dispatch.
  repeat match goal with
         | |- lock_free (if String.eqb cmd ?name then _ else _) =>
             destruct (String.eqb_spec cmd name) as [-> | ?]
         end.
  all: unfold cmd_pwd, cmd_ls, cmd_cd, cmd_mkdir, cmd_touch, cmd_rm,
    cmd_cat, cmd_edit, cmd_cpu, cmd_mem, cmd_ps, cmd_find, cmd_grep,
    cmd_clear, cmd_echo, cmd_date, cmd_whoami, cmd_uname, cmd_df, cmd_shell.
  all: try solve [lock_free].
  all: destruct Hcmd as [Hcmd | (-> & Hcp & Hmv)];
    [ exfalso; apply Hcmd; unfold locking_commands;
      repeat first [apply list_elem_of_here | apply list_elem_of_further]
    | try congruence; lock_free ].
Qed.

Lemma dispatch_unknown cmd args sid :
  cmd ∉ builtin_commands →
  dispatch h cmd args sid = cmd_shell h cmd args.
Proof.
  intros Hcmd. unfold dispatch.
  repeat match goal with
         | |- (if String.eqb cmd ?name then _ else _) = _ =>
             destruct (String.eqb_spec cmd name) as [-> | _];
             [ exfalso; apply Hcmd; unfold builtin_commands;
               repeat first [apply list_elem_of_here
                            | apply list_elem_of_further] | ]
         end.
  reflexivity.
Qed.

End lock_freedom.


Section one_path_protocol.

Import Terminal.

Variables (h : host) (sid target : string) (handles : exn_class → bool)
  (work : M string).

Hypothesis Hframe : ∀ w,
  lock_file (work w).2 = lock_file w ∧ clock (work w).2 = clock w ∧
  others (work w).2 = others w.

Let a := abspath h target.

Lemma locked_single_unfold w :
  locked_single h handles work target sid w =
  let w1 := sync w in
  if truthy (_check_lock sid a (lock_file w1)) then (Ok busy, w1) else
  let w2 := sync w1 in
  let r2 := _acquire_lock (clock w2) sid a (lock_file w2) in
  if negb r2.1 then (Ok busy, set_lock_file r2.2 w2) else
  match work (set_lock_file r2.2 w2) with
  | (Ok result, w3) => (Ok result, (release_lock sid a w3).2)
  | (Fail e, w3) =>
      if handles (cls e)
      then (Ok ("Error: " +:+ str e), (release_lock sid a w3).2)
      else (Fail e, w3)
  end.
Proof.
  cbv beta iota zeta delta
    [locked_single try_except mbind M_bind mret M_ret check_lock
     acquire_lock release_lock handler_for error].
  fold a.
  destruct (truthy (_check_lock sid a (lock_file (sync w)))); [reflexivity |].
  destruct (_acquire_lock _ sid a _) as [[] T2]; simpl; [| reflexivity].
  destruct (work _) as [[result | e] w3]; [reflexivity |].
  destruct (handles (cls e)); reflexivity.
Qed.

Lemma truthy_not_held locks :
  truthy (_check_lock sid a locks) = true → ¬ held_by locks sid a.
Proof.
  unfold _check_lock, held_by_other. intros H (l & Hl & Hs).
  rewrite Hl in H. apply String.eqb_eq in Hs. rewrite Hs in H. discriminate.
Qed.

Lemma refused_not_held now locks :
  (_acquire_lock now sid a locks).1 = false → ¬ held_by locks sid a.
Proof.
  intros Hf (l & Hl & Hs).
  apply acquire_refused_holder in Hf as (l' & Hl' & Hne & _). congruence.
Qed.

(** What a call of the protocol comes to: a text, with the path not held
    by the session afterwards, or the exception of [work] that the
    [except] clause does not handle. *)
Lemma locked_single_cases w :
  (∃ msg w',
     locked_single h handles work target sid w = (Ok msg, w') ∧
     ¬ held_by (lock_file w') sid a ∧
     (others_foreign sid w →
      ∀ p, held_by (lock_file w') sid p → held_by (lock_file w) sid p) ∧
     ((msg = busy ∧ trace w' = trace w ∧ stdin w' = stdin w) ∨
      (∃ w2 r, trace w2 = trace w ∧ stdin w2 = stdin w ∧
         trace w' = trace (work w2).2 ∧ stdin w' = stdin (work w2).2 ∧
         (work w2).1 = r ∧
         (r = Ok msg ∨ ∃ e, r = Fail e ∧ msg = "Error: " +:+ str e)))) ∨
  (∃ e w2,
     locked_single h handles work target sid w = (Fail e, (work w2).2) ∧
     (work w2).1 = Fail e ∧ handles (cls e) = false ∧
     stdin w2 = stdin w).
Proof.
  rewrite locked_single_unfold. cbv zeta.
  pose proof (sync_trace w) as Ht1. pose proof (sync_stdin w) as Hi1.
  pose proof (sync_trace (sync w)) as Ht2.
  pose proof (sync_stdin (sync w)) as Hi2.
  destruct (truthy _) eqn:E1.
  { left. eexists _, _. split; [reflexivity |].
    split; [apply truthy_not_held, E1 |]. split.
    - intros Hf. apply (sync_foreign sid w Hf).
    - left. auto. }
  set (w2 := sync (sync w)) in *.
  set (r2 := _acquire_lock (clock w2) sid a (lock_file w2)) in *.
  assert (Hown2 : others_foreign sid w →
    others_foreign sid w2 ∧
    ∀ p, held_by (lock_file w2) sid p → held_by (lock_file w) sid p).
  { intros Hf. destruct (sync_foreign sid w Hf) as [Hf1 Hown1].
    destruct (sync_foreign sid _ Hf1) as [Hf2 Hown2]. split; auto. }
  destruct (r2.1) eqn:E2; simpl negb; cbv iota.
  2:{ left. eexists _, _. split; [reflexivity |].
      pose proof (acquire_refused_table _ _ _ _ E2) as Hr.
      simpl. unfold r2. rewrite Hr. split; [apply (refused_not_held _ _ E2) |].
      split; [intros Hf; apply (Hown2 Hf) |].
      left. split; [reflexivity |]. split; congruence. }
  set (w3 := set_lock_file r2.2 w2).
  assert (Hrel : ∀ w4, w4 = (work w3).2 →
    ¬ held_by (lock_file (release_lock sid a w4).2) sid a ∧
    (others_foreign sid w →
     ∀ p, held_by (lock_file (release_lock sid a w4).2) sid p →
          held_by (lock_file w) sid p) ∧
    trace (release_lock sid a w4).2 = trace (work w3).2 ∧
    stdin (release_lock sid a w4).2 = stdin (work w3).2).
  { intros w4 ->. split; [apply release_not_holder |]. split.
    - intros Hf p Hp. destruct (Hown2 Hf) as [Hf2 Hown].
      destruct (Hframe w3) as (Hl & _ & Ho).
      assert (Hf3 : others_foreign sid (work w3).2).
      { unfold others_foreign. rewrite Ho. exact Hf2. }
      destruct (release_world sid a _ Hf3) as (_ & _ & _ & Hown4).
      apply Hown4 in Hp as [Hne Hp]. rewrite Hl in Hp. simpl in Hp.
      apply acquire_held_by in Hp as [-> | Hp]; [contradiction | auto].
    - split; [apply sync_trace | apply sync_stdin]. }
  assert (Hw3 : trace w3 = trace w ∧ stdin w3 = stdin w).
  { unfold w3. simpl. split; congruence. }
  destruct (work w3) as [[result | e] w4] eqn:Ew.
  - left. destruct (Hrel w4 eq_refl) as (H1 & H2 & H3 & H4).
    eexists _, _. split; [reflexivity |]. split; [exact H1 |].
    split; [exact H2 |]. right. exists w3, (Ok result).
    rewrite Ew. simpl in *. destruct Hw3. repeat split; auto.
  - destruct (handles (cls e)) eqn:Eh.
    + left. destruct (Hrel w4 eq_refl) as (H1 & H2 & H3 & H4).
      eexists _, _. split; [reflexivity |]. split; [exact H1 |].
      split; [exact H2 |]. right. exists w3, (Fail e).
      rewrite Ew. simpl in *. destruct Hw3. repeat split; auto.
      right. exists e. auto.
    + right. exists e, w3. rewrite Ew. simpl. destruct Hw3. auto.
Qed.

End one_path_protocol.

Section one_path_instances.

Import Terminal.

Variable h : host.

Ltac protocol_steps target sid :=
  rewrite locked_single_unfold;
  cbv beta iota zeta delta
    [try_except mbind M_bind mret M_ret check_lock
     acquire_lock release_lock handler_for error];
  destruct (truthy _); [reflexivity |];
  destruct (_acquire_lock _ sid (abspath h target) _) as [[] ?]; simpl;
    [| reflexivity].

Lemma cmd_mkdir_protocol target rest sid w :
  cmd_mkdir h (target :: rest) sid w
  = locked_single h is_OSError (mkdir_work h target) target sid w.
Proof.
  unfold cmd_mkdir, mkdir_work. protocol_steps target sid.
  unfold sys. destruct (os h _ (Makedirs target)) as [[] | e]; [reflexivity |].
  destruct (is_OSError (cls e)); reflexivity.
Qed.

Lemma cmd_touch_protocol target rest sid w :
  cmd_touch h (target :: rest) sid w
  = locked_single h is_OSError (touch_work h target) target sid w.
Proof.
  unfold cmd_touch, touch_work. protocol_steps target sid.
  unfold sys. destruct (os h _ (Touch target)) as [[] | e]; [reflexivity |].
  destruct (is_OSError (cls e)); reflexivity.
Qed.

Lemma cmd_rm_protocol target rest sid w :
  path_exists h target = true →
  cmd_rm h (target :: rest) sid w
  = locked_single h is_OSError (rm_work h target) target sid w.
Proof. intros H. unfold cmd_rm. rewrite H. reflexivity. Qed.

Lemma cmd_edit_protocol target rest sid w :
  cmd_edit h (target :: rest) sid w
  = locked_single h is_Exception (edit_work h target) target sid w.
Proof.
  unfold cmd_edit, edit_work. protocol_steps target sid.
  unfold sys, input_until_save.
  destruct (path_exists h target).
  - destruct (os h _ (ReadText "utf-8" target)) as [content | e]; simpl;
      [| destruct (is_Exception (cls e)); reflexivity].
    destruct (os h _ (Print _)) as [[] | e]; simpl;
      [| destruct (is_Exception (cls e)); reflexivity].
    destruct (os h _ (Print dashes)) as [[] | e]; simpl;
      [| destruct (is_Exception (cls e)); reflexivity].
    destruct (os h _ (Print content)) as [[] | e]; simpl;
      [| destruct (is_Exception (cls e)); reflexivity].
    destruct (read_until_save _ _) as [[new_content | e] inp]; simpl;
      [| destruct (is_Exception (cls e)); reflexivity].
    destruct (os h _ (WriteText _ _)) as [[] | e]; simpl;
      [reflexivity | destruct (is_Exception (cls e)); reflexivity].
  - simpl.
    destruct (os h _ (Print _)) as [[] | e]; simpl;
      [| destruct (is_Exception (cls e)); reflexivity].
    destruct (os h _ (Print dashes)) as [[] | e]; simpl;
      [| destruct (is_Exception (cls e)); reflexivity].
    destruct (os h _ (Print "")) as [[] | e]; simpl;
      [| destruct (is_Exception (cls e)); reflexivity].
    destruct (read_until_save _ _) as [[new_content | e] inp]; simpl;
      [| destruct (is_Exception (cls e)); reflexivity].
    destruct (os h _ (WriteText _ _)) as [[] | e]; simpl;
      [reflexivity | destruct (is_Exception (cls e)); reflexivity].
Qed.

Lemma run_command_as (m m' : M string) w :
  m w = m' w →
  try_except m [(is_Exception, error)] w
  = try_except m' [(is_Exception, error)] w.
Proof. intros H. unfold try_except. rewrite H. reflexivity. Qed.

End one_path_instances.

Section one_path_claims.

Import Terminal.

Lemma mutation_work h cmd target :
  cmd = "mkdir" ∨ cmd = "touch" ∨ cmd = "rm" →
  ∃ work : M string,
    (cmd = "mkdir" → work = mkdir_work h target) ∧
    (cmd = "touch" → work = touch_work h target) ∧
    (cmd = "rm" → work = rm_work h target) ∧
    (∀ w, lock_file (work w).2 = lock_file w ∧ clock (work w).2 = clock w ∧
          others (work w).2 = others w) ∧
    (∀ w, trace (work w).2 = trace w ++ [mutation_of h cmd target]) ∧
    (∀ w msg, (work w).1 = Ok msg → msg ≠ busy) ∧
    (mutation_errors_are_OSError h →
     ∀ w e, (work w).1 = Fail e → is_OSError (cls e) = true).
Proof.
  intros Hcmd.
  exists (if String.eqb cmd "mkdir" then mkdir_work h target
          else if String.eqb cmd "touch" then touch_work h target
          else rm_work h target).
  split; [intros ->; reflexivity |].
  split; [intros ->; reflexivity |].
  split; [intros ->; reflexivity |].
  assert (Hshape : ∃ (c : call unit) text,
    is_mutation c = true ∧ mutation_of h cmd target = Called c ∧
    (if String.eqb cmd "mkdir" then mkdir_work h target
     else if String.eqb cmd "touch" then touch_work h target
     else rm_work h target) = (sys h c;; mret text) ∧ text ≠ busy).
  { destruct Hcmd as [-> | [-> | ->]]; simpl; unfold mutation_of; simpl.
    - eexists _, _. split; [| split; [reflexivity |]].
      + reflexivity.
      + split; [reflexivity | discriminate].
    - eexists _, _. split; [| split; [reflexivity |]].
      + reflexivity.
      + split; [reflexivity | discriminate].
    - unfold rm_work. destruct (isdir h target).
      + eexists _, _. split; [| split; [reflexivity |]].
        * reflexivity.
        * split; [reflexivity | discriminate].
      + eexists _, _. split; [| split; [reflexivity |]].
        * reflexivity.
        * split; [reflexivity | discriminate]. }
  destruct Hshape as (c & text & Hmut & -> & -> & Htext).
  unfold mbind, M_bind, sys, mret, M_ret.
  split; [| split; [| split]].
  - intros w. destruct (os h _ c); auto.
  - intros w. destruct (os h _ c); reflexivity.
  - intros w msg. destruct (os h _ c); simpl; [| discriminate].
    intros [= <-]. exact Htext.
  - intros Hos w e. destruct (os h _ c) as [[] | e'] eqn:E; simpl;
      [discriminate |].
    intros [= <-]. apply (Hos _ _ _ Hmut E).
Qed.

(** The three commands are instances of the protocol. *)
Lemma one_path_run (h : host) (cmd target : string) (rest : list string)
    (sid : string) :
  cmd = "mkdir" ∨ cmd = "touch" ∨ (cmd = "rm" ∧ path_exists h target = true) →
  mutation_errors_are_OSError h →
  ∃ work : M string,
    (∀ w, lock_file (work w).2 = lock_file w ∧ clock (work w).2 = clock w ∧
          others (work w).2 = others w) ∧
    (∀ w, trace (work w).2 = trace w ++ [mutation_of h cmd target]) ∧
    (∀ w msg, (work w).1 = Ok msg → msg ≠ busy) ∧
    (∀ w e, (work w).1 = Fail e → is_OSError (cls e) = true) ∧
    ∀ w, run_command h cmd (target :: rest) sid w
         = try_except (locked_single h is_OSError work target sid)
             [(is_Exception, error)] w.
Proof.
  intros Hcmd Hos.
  assert (Hcmd' : cmd = "mkdir" ∨ cmd = "touch" ∨ cmd = "rm") by tauto.
  destruct (mutation_work h cmd target Hcmd')
    as (work & Hmk & Hto & Hrm & Hframe & Htrace & Hres & Herr).
  exists work. split; [exact Hframe |]. split; [exact Htrace |].
  split; [exact Hres |]. split; [exact (Herr Hos) |]. intros w.
  destruct Hcmd as [-> | [-> | [-> Hex]]].
  - rewrite (Hmk eq_refl). apply run_command_as, cmd_mkdir_protocol.
  - rewrite (Hto eq_refl). apply run_command_as, cmd_touch_protocol.
  - rewrite (Hrm eq_refl). apply run_command_as, cmd_rm_protocol, Hex.
Qed.

(** X7. [mkdir], [touch] and [rm] with a path (for [rm], one that exists),
    on a host whose creations and removals fail with filesystem errors
    ([OSError]) only, whatever the other sessions do to the lock file
    meanwhile. The call returns a text; afterwards the session does not
    hold the path, and while the other sessions give it no lock it holds
    no lock it did not hold before; either the text is the busy message
    and the filesystem was not touched, or the one creation or removal was
    made. The condition on the host is needed: the branches release the
    lock after the call and in [except OSError] only. *)
Theorem one_path_lock_protocol (h : host) (cmd target : string)
    (rest : list string) (sid : string) (w : world) :
  cmd = "mkdir" ∨ cmd = "touch" ∨ (cmd = "rm" ∧ path_exists h target = true) →
  mutation_errors_are_OSError h →
  ∃ msg w',
    run_command h cmd (target :: rest) sid w = (Ok msg, w') ∧
    ¬ held_by (lock_file w') sid (abspath h target) ∧
    (others_foreign sid w →
     ∀ p, held_by (lock_file w') sid p → held_by (lock_file w) sid p) ∧
    ((msg = busy ∧ trace w' = trace w) ∨
     (msg ≠ busy ∧ trace w' = trace w ++ [mutation_of h cmd target])).
Proof.
  intros Hcmd Hos.
  destruct (one_path_run h cmd target rest sid Hcmd Hos)
    as (work & Hframe & Htrace & Hres & Herr & Hrun).
  rewrite Hrun. unfold try_except at 1.
  destruct (locked_single_cases h sid target is_OSError work Hframe w)
    as [(msg & w' & -> & Hheld & Hown & Hout) | (e & w2 & _ & He & Hh & _)].
  - exists msg, w'. split; [reflexivity |]. split; [exact Hheld |].
    split; [exact Hown |].
    destruct Hout as [(-> & Ht & _) | (w2 & r & Ht2 & _ & Ht' & _ & Hr & Hmsg)].
    + left. auto.
    + right. split.
      * destruct Hmsg as [-> | (e & -> & ->)]; [apply (Hres _ _ Hr) |].
        discriminate.
      * rewrite Ht', Htrace, Ht2. reflexivity.
  - rewrite (Herr _ _ He) in Hh. discriminate.
Qed.

(** Session [A] creates [/tmp/d] while session [B] takes a lock on [/z]. *)
Example one_path_lock_protocol_witness :
  let w := World ∅ 0 [(10%Q, λ locks, <["/z" := LockInfo "B" 10]> locks)]
             [] [] in
  ∃ msg w',
    run_command quiet_host "mkdir" ["/tmp/d"] "A" w = (Ok msg, w') ∧
    ¬ held_by (lock_file w') "A" "/tmp/d".
Proof.
  intros w.
  destruct (one_path_lock_protocol quiet_host "mkdir" "/tmp/d" [] "A" w)
    as (msg & w' & Hrun & Hheld & _).
  - left. reflexivity.
  - intros A c e Ht H. destruct c; simpl in *; discriminate.
  - exists msg, w'. split; assumption.
Defined.

(** Without the condition on the host the lock can stay. Here
    [os.makedirs] raises a [ValueError], which is no [OSError]: the release
    after the call and the one of [except OSError] are both passed over,
    [except Exception] turns the error into a text, and session [A] still
    holds the path. *)
Lemma mkdir_other_error_keeps_lock :
  let h := failing_host (Exn OtherException "embedded null byte") in
  let w := World ∅ 100 [] [] [] in
  ∃ w',
    run_command h "mkdir" ["a"] "A" w
    = (Ok "Error: embedded null byte", w') ∧
    lock_file w' !! "a" = Some (LockInfo "A" 100).
Proof.
  intros h w. eexists. split; [reflexivity |]. reflexivity.
Qed.

(** X8. [edit] with a path, on a host that raises instances of [Exception]
    only and with no Ctrl-C waiting: whatever fails while the file is read,
    shown, typed or written (the end of the input included), the call
    returns a text and the session does not hold the path afterwards; while
    the other sessions give it no lock it holds no lock it did not hold
    before. *)
Theorem edit_releases_lock (h : host) (target : string) (rest : list string)
    (sid : string) (w : world) :
  benign h → calm w →
  ∃ msg w',
    run_command h "edit" (target :: rest) sid w = (Ok msg, w') ∧
    ¬ held_by (lock_file w') sid (abspath h target) ∧
    (others_foreign sid w →
     ∀ p, held_by (lock_file w') sid p → held_by (lock_file w) sid p).
Proof.
  intros Hb Hw.
  assert (Hrun : run_command h "edit" (target :: rest) sid w
    = try_except (locked_single h is_Exception (edit_work h target) target sid)
        [(is_Exception, error)] w).
  { apply (run_command_as (cmd_edit h (target :: rest) sid)),
      cmd_edit_protocol. }
  assert (Hsafe : safe (edit_work h target)).
  { unfold edit_work.
    repeat first
      [ apply safe_ret | apply (safe_sys h Hb)
      | apply (safe_input_until_save) | apply safe_bind
      | progress intros
      | match goal with
        | |- safe (if ?x then _ else _) => destruct x
        end ]. }
  assert (Hframe : ∀ w0,
    lock_file (edit_work h target w0).2 = lock_file w0 ∧
    clock (edit_work h target w0).2 = clock w0 ∧
    others (edit_work h target w0).2 = others w0).
  { intros w0. apply (lock_free_edit_work h target w0). }
  rewrite Hrun. unfold try_except at 1.
  destruct (locked_single_cases h sid target is_Exception _ Hframe w)
    as [(msg & w' & -> & Hheld & Hown & _) | (e & w2 & _ & He & Hh & Hin)].
  - exists msg, w'. auto.
  - assert (Hw2 : calm w2) by (unfold calm; rewrite Hin; exact Hw).
    destruct (Hsafe w2 Hw2) as [_ Hexn]. rewrite (Hexn e He) in Hh.
    discriminate.
Qed.

(** The input ends before [SAVE] is typed. *)
Example edit_releases_lock_witness :
  let w := World ∅ 0 [] [Line "first line"] [] in
  ∃ msg w',
    run_command quiet_host "edit" ["notes.txt"] "A" w = (Ok msg, w') ∧
    ¬ held_by (lock_file w') "A" "notes.txt".
Proof.
  intros w.
  destruct (edit_releases_lock quiet_host "notes.txt" [] "A" w)
    as (msg & w' & Hrun & Hheld & _).
  - split.
    + intros A c e H. destruct c; discriminate.
    + intros procs e [= <-] Hin. inversion Hin.
  - unfold calm. simpl. intros Hin.
    apply elem_of_cons in Hin as [Hin | Hin]; [discriminate | inversion Hin].
  - exists msg, w'. split; assumption.
Defined.

End one_path_claims.

Section executor_extras.

Import Terminal.

(** X9. Only [mkdir], [touch], [rm], [cp], [mv] and [edit] look at the
    lock file, and [mkdir], [touch], [rm] and [edit] only when they are
    given an argument: every other call of [run_command] leaves the lock
    file as it is, does not read the clock, and takes nothing from what the
    other sessions are about to do. *)
Theorem read_only_commands_take_no_lock (h : host) (cmd : string)
    (args : list string) (sid : string) (w : world) :
  cmd ∉ locking_commands ∨ (args = [] ∧ cmd ≠ "cp" ∧ cmd ≠ "mv") →
  let w' := (run_command h cmd args sid w).2 in
  lock_file w' = lock_file w ∧ clock w' = clock w ∧ others w' = others w.
Proof.
  intros Hcmd.
  assert (Hfree : lock_free (run_command h cmd args sid)).
  { unfold run_command. apply lock_free_try.
    - apply lock_free_dispatch, Hcmd.
    - apply Forall_cons. split; [intros e; apply lock_free_error |].
      apply Forall_nil. exact I. }
  apply (Hfree w).
Qed.

Example read_only_commands_take_no_lock_witness :
  let w := World {[ "/tmp/x" := LockInfo "B" 0 ]} 1000
             [(1001%Q, λ _, ∅)] [] [] in
  let w' := (run_command quiet_host "cat" ["/tmp/x"] "A" w).2 in
  lock_file w' = lock_file w ∧ clock w' = clock w ∧ others w' = others w.
Proof.
  intros w.
  apply (read_only_commands_take_no_lock quiet_host "cat" ["/tmp/x"] "A" w).
  left. unfold locking_commands. rewrite !not_elem_of_cons.
  repeat split; try discriminate. apply not_elem_of_nil.
Defined.

(** X10. A name that is none of the 21 built-in ones is handed to the host
    shell: the call makes one host call, the subprocess with the name
    followed by the arguments, and looks at no lock and no input. Exit code
    0 gives the stripped output, any other the stripped error text after
    "Error: "; a timeout, a missing program and any other instance of
    [Exception] become texts, and what is not an instance of [Exception]
    reaches the caller. *)
Theorem unknown_command_goes_to_shell (h : host) (cmd : string)
    (args : list string) (sid : string) (w : world) :
  cmd ∉ builtin_commands →
  let r := run_command h cmd args sid w in
  trace r.2 = trace w ++ [Called (Subprocess (cmd :: args))] ∧
  lock_file r.2 = lock_file w ∧ stdin r.2 = stdin w ∧
  r.1 = match os h _ (Subprocess (cmd :: args)) with
        | Ok (returncode, stdout, stderr) =>
            if returncode =? 0 then Ok (PyStr.strip stdout)
            else Ok ("Error: " +:+ PyStr.strip stderr)
        | Fail e =>
            if is_TimeoutExpired (cls e) then Ok "Error: Command timed out"
            else if is_FileNotFoundError (cls e) then Ok "Command not found"
            else if is_Exception (cls e) then Ok ("Error: " +:+ str e)
            else Fail e
        end.
Proof.
  intros Hcmd r. subst r. unfold run_command.
  rewrite (dispatch_unknown h cmd args sid Hcmd).
  unfold cmd_shell, try_except, mbind, M_bind, sys. simpl.
  destruct (os h _ (Subprocess (cmd :: args))) as [[[rc out] err] | e]; simpl.
  - destruct (rc =? 0); repeat split; reflexivity.
  - destruct (is_TimeoutExpired (cls e)); simpl; [repeat split; reflexivity |].
    destruct (is_FileNotFoundError (cls e)); simpl;
      [repeat split; reflexivity |].
    destruct (is_Exception (cls e)) eqn:E; simpl; rewrite ?E; simpl;
      repeat split; reflexivity.
Qed.

(** The REPL word [newterm] is not a built-in name. *)
Example unknown_command_goes_to_shell_witness :
  let w := World ∅ 0 [] [] [] in
  let r := run_command quiet_host "newterm" [] "A" w in
  trace r.2 = [Called (Subprocess ["newterm"])] ∧ r.1 = Ok "".
Proof.
  intros w.
  destruct (unknown_command_goes_to_shell quiet_host "newterm" [] "A" w)
    as (Ht & _ & _ & Hr).
  - unfold builtin_commands. rewrite !not_elem_of_cons.
    repeat split; try discriminate. apply not_elem_of_nil.
  - split; [exact Ht | exact Hr].
Defined.

(** X11. [rm] and [cat] on a first argument, [cp] and [mv] on a first of
    two arguments, [find] on a first of two and [grep] on a second
    argument that does not exist answer that it does not exist, and do
    nothing else: no host call, no look at the lock file, no input read. *)
Theorem missing_path_is_reported (h : host) (cmd : string)
    (args : list string) (sid path : string) (w : world) :
  tested_path cmd args = Some path →
  path_exists h path = false →
  run_command h cmd args sid w
  = (Ok ("Error: " +:+ path +:+ " does not exist"), w).
Proof.
  unfold tested_path. intros Hp Hex.
  destruct (String.eqb_spec cmd "rm") as [-> | _]; simpl in Hp.
  { destruct args as [| t rest]; [discriminate |]. injection Hp as ->.
    unfold run_command, try_except, dispatch. simpl. unfold cmd_rm. rewrite Hex.
    reflexivity. }
  destruct (String.eqb_spec cmd "cat") as [-> | _]; simpl in Hp.
  { destruct args as [| t rest]; [discriminate |]. injection Hp as ->.
    unfold run_command, try_except, dispatch. simpl. unfold cmd_cat. rewrite Hex.
    reflexivity. }
  destruct (String.eqb_spec cmd "cp") as [-> | _]; simpl in Hp.
  { destruct args as [| s [| d rest]]; try discriminate. injection Hp as ->.
    unfold run_command, try_except, dispatch. simpl.
    unfold cmd_cp, source_and_dest, cp_paths, mbind, M_bind. simpl.
    rewrite Hex. reflexivity. }
  destruct (String.eqb_spec cmd "mv") as [-> | _]; simpl in Hp.
  { destruct args as [| s [| d rest]]; try discriminate. injection Hp as ->.
    unfold run_command, try_except, dispatch. simpl.
    unfold cmd_mv, source_and_dest, mv_paths, mbind, M_bind. simpl.
    rewrite Hex. reflexivity. }
  destruct (String.eqb_spec cmd "find") as [-> | _]; simpl in Hp.
  { destruct args as [| s [| d rest]]; try discriminate. injection Hp as ->.
    unfold run_command, try_except, dispatch. simpl. unfold cmd_find. rewrite Hex.
    reflexivity. }
  destruct (String.eqb_spec cmd "grep") as [-> | _]; simpl in Hp.
  { destruct args as [| s [| d rest]]; try discriminate. injection Hp as ->.
    unfold run_command, try_except, dispatch. simpl. unfold cmd_grep. rewrite Hex.
    reflexivity. }
  discriminate.
Qed.

Example missing_path_is_reported_witness :
  let w := World {[ "/b" := LockInfo "B" 0 ]} 1 [] [] [] in
  run_command missing_host "grep" ["needle"; "/b"] "A" w
  = (Ok "Error: /b does not exist", w).
Proof.
  intros w.
  apply (missing_path_is_reported missing_host "grep" ["needle"; "/b"] "A"
           "/b" w); reflexivity.
Defined.

End executor_extras.

Section session_extras.

Import SessionManager.

Implicit Types (self : manager) (w : world) (sid : string).

Lemma append_inv_head (s a b : string) : s +:+ a = s +:+ b → a = b.
Proof. induction s as [| c s IH]; simpl; [auto | intros [= H]; auto]. Qed.

Lemma session_name_inj : Inj (=) (=) session_name.
Proof.
  intros m n H. unfold session_name in H.
  apply str_int_inj, (append_inv_head _ _ _ H).
Qed.

Lemma length_list_sessions w : length (list_sessions w) = size (sessions w).
Proof.
  unfold list_sessions. rewrite merge_sort_Permutation.
  rewrite <- size_dom. reflexivity.
Qed.

Lemma numbered_size n w : numbered n w → size (sessions w) = n.
Proof.
  intros Hn. rewrite <- size_dom.
  assert (Hdom : dom (sessions w)
                 = list_to_set (session_name <$> seqZ 1 (Z.of_nat n))).
  { apply set_eq. intros id. rewrite elem_of_dom, elem_of_list_to_set, list_elem_of_fmap.
    unfold numbered in Hn. rewrite (Hn id). split.
    - intros (k & Hk & ->). exists k. split; [reflexivity |].
      apply elem_of_seqZ. lia.
    - intros (k & -> & Hk). exists k. apply elem_of_seqZ in Hk.
      split; [lia | reflexivity]. }
  rewrite Hdom, size_list_to_set.
  - rewrite length_fmap, length_seqZ. lia.
  - apply NoDup_fmap_2; [apply session_name_inj | apply NoDup_seqZ].
Qed.


Lemma numbered_insert (n : nat) w w' :
  numbered n w →
  sessions w' = <[session_name (Z.of_nat n + 1) := []]> (sessions w) →
  numbered (S n) w'.
Proof.
  intros Hn Hs id'. rewrite Hs.
  destruct (decide (session_name (Z.of_nat n + 1) = id')) as [<- | Hne].
  - rewrite lookup_insert_eq. split; [| eauto].
    intros _. exists (Z.of_nat n + 1). split; [lia | reflexivity].
  - rewrite lookup_insert_ne by exact Hne. rewrite (Hn id'). split.
    + intros (k & Hk & ->). exists k. split; [lia | reflexivity].
    + intros (k & Hk & ->). exists k. split; [| reflexivity].
      destruct (decide (k = Z.of_nat n + 1)) as [-> | Hk']; [| lia].
      congruence.
Qed.

Lemma create_new_session_id tc ta self w :
  (create_new_session tc ta self w).1.1
  = session_name (Z.of_nat (size (sessions w)) + 1).
Proof.
  unfold create_new_session. simpl. rewrite length_list_sessions.
  reflexivity.
Qed.

Lemma create_new_session_sessions tc ta self w :
  sessions (create_new_session tc ta self w).2
  = <[(create_new_session tc ta self w).1.1 := []]> (sessions w).
Proof. reflexivity. Qed.

(** X12. Numbering. When the stored sessions are exactly [session_1] to
    [session_n], [create_new] returns [session_(n+1)], which is new; the
    history of every existing session is left as it is, the new one is
    empty, and the stored sessions are then exactly [session_1] to
    [session_(n+1)]. *)
Theorem create_new_session_numbered (n : nat) (tc ta : Q)
    (self : manager) (w : world) :
  numbered n w →
  let '(id, self', w') := create_new_session tc ta self w in
  id = session_name (Z.of_nat n + 1) ∧
  sessions w !! id = None ∧
  sessions w' !! id = Some [] ∧
  (∀ id' commands, sessions w !! id' = Some commands →
                   sessions w' !! id' = Some commands) ∧
  numbered (S n) w'.
Proof.
  intros Hn.
  pose proof (create_new_session_id tc ta self w) as Hid.
  pose proof (create_new_session_sessions tc ta self w) as Hs.
  destruct (create_new_session tc ta self w) as [[id self'] w'].
  simpl in Hid, Hs. rewrite (numbered_size _ _ Hn) in Hid.
  assert (Hnew : sessions w !! id = None).
  { destruct (sessions w !! id) as [c |] eqn:E; [| reflexivity].
    assert (Hsome : is_Some (sessions w !! id)) by (rewrite E; eauto).
    apply Hn in Hsome as (k & Hk & Hname). rewrite Hid in Hname.
    apply session_name_inj in Hname. lia. }
  split; [exact Hid |]. split; [exact Hnew |].
  split; [rewrite Hs; apply lookup_insert_eq |]. split.
  - intros id' commands H. rewrite Hs, lookup_insert_ne; [exact H |].
    intros <-. congruence.
  - apply (numbered_insert n w w' Hn). rewrite Hs, Hid. reflexivity.
Qed.

Lemma numbered_empty cwd e c : numbered 0 (empty_world cwd e c).
Proof.
  intros id. simpl. rewrite lookup_empty. split.
  - intros [? H]. discriminate.
  - intros (k & Hk & _). lia.
Qed.

Example create_new_session_numbered_witness :
  let w := empty_world "/home" (λ _, true) (λ _, true) in
  let '(id, self', w') := create_new_session 0 0 (Manager ∅) w in
  id = session_name 1 ∧
  sessions w !! id = None ∧
  sessions w' !! id = Some [] ∧
  (∀ id' commands, sessions w !! id' = Some commands →
                   sessions w' !! id' = Some commands) ∧
  numbered 1 w'.
Proof.
  intros w.
  apply (create_new_session_numbered 0 0 0 (Manager ∅) w).
  apply numbered_empty.
Defined.



(** X13. The recorded directory is the one entered. After the directory
    [d] was recorded for a stored session that has metadata, [switch] to
    that session leaves [d] recorded, the metadata of every other session
    and all histories as they were, and the saved metadata equal to those
    of the manager. When [d] does not exist or cannot be entered the
    process stays where it was, the call returns true and the id is in the
    current-session file. When [d] is entered, the call returns true with
    the id in the current-session file only if [data/] seen from [d] is
    the same data directory; otherwise the current-session file is left
    as it was, and the call returns true after writing another file, or
    raises. *)
Theorem switch_restores_directory (sid d : string) (now1 now2 : Q)
    (look : string → view) (self : manager) (w : world) :
  is_Some (sessions w !! sid) →
  is_Some (session_info self !! sid) →
  let '(self1, w1) := update_working_directory sid d now1 self w in
  let r := switch_session sid now2 look self1 w1 in
  get_working_directory sid (manager_of r) (files r) = d ∧
  (∀ sid', sid' ≠ sid →
           session_info (manager_of r) !! sid' = session_info self !! sid') ∧
  session_info_file (files r) = session_info (manager_of r) ∧
  sessions (files r) = sessions w ∧
  if path_exists w d && chdir_ok w d
  then cwd (files r) = d ∧
       match look d with
       | same_data =>
           r = Returned true (manager_of r) (files r) ∧
           current_session_file (files r) = Some sid
       | other_data =>
           r = Strayed (manager_of r) (files r) ∧
           current_session_file (files r) = current_session_file w
       | unwritable =>
           r = Raised (manager_of r) (files r) ∧
           current_session_file (files r) = current_session_file w
       end
  else cwd (files r) = cwd w ∧
       r = Returned true (manager_of r) (files r) ∧
       current_session_file (files r) = Some sid.
Proof.
  intros Hfile [i Hi].
  unfold update_working_directory. rewrite Hi.
  set (self1 := Manager (<[sid := SessionMeta d (created_at i) now1
                                    (process_id i)]> (session_info self))).
  set (w1 := _save_session_info self1 w).
  assert (Hfile1 : is_Some (sessions w1 !! sid)) by exact Hfile.
  destruct (switch_session_known sid now2 look self1 w1 Hfile1)
    as (self2 & w2 & Hmeta & Hrun).
  cbv zeta. rewrite Hrun. clear Hrun.
  assert (Hi1 : session_info self1 !! sid
                = Some (SessionMeta d (created_at i) now1 (process_id i)))
    by apply lookup_insert_eq.
  rewrite Hi1 in Hmeta. destruct Hmeta as [-> ->].
  assert (Hentered : entered sid self1 w1
                     = if path_exists w d && chdir_ok w d then Some d
                       else None).
  { unfold entered, get_session_details. rewrite Hi1. simpl.
    destruct (path_exists w d); simpl; [| reflexivity].
    destruct (chdir_ok w d); reflexivity. }
  rewrite Hentered.
  assert (Hdir : ∀ w', get_working_directory sid
            (Manager (<[sid := touch now2
                                 (SessionMeta d (created_at i) now1
                                    (process_id i))]> (session_info self1)))
            w' = d).
  { intros w'. unfold get_working_directory. simpl.
    rewrite lookup_insert_eq. reflexivity. }
  assert (Hothers : ∀ sid', sid' ≠ sid →
            session_info
              (Manager (<[sid := touch now2
                                   (SessionMeta d (created_at i) now1
                                      (process_id i))]> (session_info self1)))
              !! sid' = session_info self !! sid').
  { intros sid' Hne. simpl. rewrite !lookup_insert_ne by congruence.
    reflexivity. }
  destruct (path_exists w d && chdir_ok w d); [destruct (look d) |];
    simpl; (split; [apply Hdir |]); (split; [exact Hothers |]);
    repeat split.
Qed.

(** The session [session_1] of [/home] is sent to [/srv], which exists
    and has no [data] directory: the switch raises. *)
Example switch_restores_directory_witness :
  let meta := SessionMeta "/home" 5 5 None in
  let self := Manager {[ "session_1" := meta ]} in
  let w := World {[ "session_1" := ["ls"] ]} (Some "session_0")
             {[ "session_1" := meta ]} ∅ "/home"
             (λ p, String.eqb p "/srv") (λ _, true) in
  let look := λ p, if String.eqb p "/home" then same_data else unwritable in
  let '(self1, w1) :=
    update_working_directory "session_1" "/srv" 9 self w in
  let r := switch_session "session_1" 10 look self1 w1 in
  get_working_directory "session_1" (manager_of r) (files r) = "/srv" ∧
  cwd (files r) = "/srv" ∧
  r = Raised (manager_of r) (files r) ∧
  current_session_file (files r) = Some "session_0".
Proof.
  intros meta self w look.
  pose proof (switch_restores_directory "session_1" "/srv" 9 10 look self w)
    as H.
  destruct (update_working_directory "session_1" "/srv" 9 self w)
    as [self1 w1] eqn:E.
  destruct H as (Hdir & _ & _ & _ & Hmove);
    [exists ["ls"]; reflexivity | exists meta; reflexivity |].
  change (path_exists w "/srv" && chdir_ok w "/srv") with true in Hmove.
  change (look "/srv") with unwritable in Hmove.
  destruct Hmove as (Hcwd & Hr & Hcur).
  split; [exact Hdir |]. split; [exact Hcwd |]. split; [exact Hr | exact Hcur].
Defined.

Lemma cleanup_nothing_stale days current_time self w :
  filter (λ kv : string * session_meta,
            (last_accessed kv.2 < cutoff days current_time)%Q)
    (session_info self) = ∅ →
  cleanup_old_sessions days current_time self w = (0%nat, self, w).
Proof.
  intros H. unfold cleanup_old_sessions. fold (cutoff days current_time).
  rewrite decide_True by exact H. reflexivity.
Qed.

Lemma cleanup_some_stale days current_time self w :
  let stale (kv : string * session_meta) : Prop :=
    (last_accessed kv.2 < cutoff days current_time)%Q in
  filter stale (session_info self) ≠ ∅ →
  cleanup_old_sessions days current_time self w
  = let self' := Manager (filter (λ kv, ¬ stale kv) (session_info self)) in
    (size (filter stale (session_info self)), self',
     _save_session_info self'
       (set_sessions
          (filter (λ kv : string * list string,
                     filter stale (session_info self) !! kv.1 = None)
             (sessions w)) w)).
Proof.
  intros stale H. unfold cleanup_old_sessions.
  fold (cutoff days current_time). rewrite decide_False by exact H.
  reflexivity.
Qed.

(** X14. What the clean-up removes. [cleanup_old] returns the number of
    sessions whose metadata carry a last-accessed time before the
    threshold (the current time minus [days] days). Afterwards the manager
    holds exactly the metadata that were not stale, and the history files
    are those of before minus the files of the stale sessions: a history
    file without metadata is never removed. The files that bind a process
    to its session and the current-session file are not touched, and a
    second clean-up at the same time removes nothing. *)
Theorem cleanup_old_sessions_spec (days : Z) (current_time : Q)
    (self : manager) (w : world) :
  let stale (i : session_meta) : Prop :=
    (last_accessed i < cutoff days current_time)%Q in
  let '(n, self', w') := cleanup_old_sessions days current_time self w in
  n = size (filter (λ kv, stale kv.2) (session_info self)) ∧
  (∀ id i, session_info self' !! id = Some i ↔
           session_info self !! id = Some i ∧ ¬ stale i) ∧
  (∀ id h, sessions w' !! id = Some h ↔
           sessions w !! id = Some h ∧
           ∀ i, session_info self !! id = Some i → ¬ stale i) ∧
  process_session_file w' = process_session_file w ∧
  current_session_file w' = current_session_file w ∧
  cleanup_old_sessions days current_time self' w' = (0%nat, self', w').
Proof.
  intros stale.
  destruct (decide (filter (λ kv : string * session_meta, stale kv.2)
                      (session_info self) = ∅)) as [He | Hne].
  - assert (Hfresh : ∀ id i, session_info self !! id = Some i → ¬ stale i).
    { intros id i Hi Hs.
      assert (filter (λ kv : string * session_meta, stale kv.2)
                (session_info self) !! id = Some i) as Hin
        by (apply map_lookup_filter_Some; split; assumption).
      rewrite He, lookup_empty in Hin. discriminate. }
    rewrite (cleanup_nothing_stale _ _ _ _ He). cbv beta iota.
    rewrite He, map_size_empty. split_and!.
    + reflexivity.
    + intros id i. split; [intros H; split; eauto | intros [H _]; exact H].
    + intros id h. split; [intros H; split; eauto | intros [H _]; exact H].
    + reflexivity.
    + reflexivity.
    + apply cleanup_nothing_stale. exact He.
  - rewrite (cleanup_some_stale _ _ _ _ Hne). cbv beta iota. split_and!.
    + reflexivity.
    + intros id i. cbn [session_info].
      rewrite map_lookup_filter_Some. reflexivity.
    + intros id h. cbn [sessions _save_session_info set_session_info_file
                        set_sessions].
      rewrite map_lookup_filter_Some. cbn [fst snd].
      rewrite map_lookup_filter_None. split.
      * intros [Hh [Hnone | Hns]]; (split; [exact Hh |]).
        -- intros i Hi. rewrite Hi in Hnone. discriminate.
        -- intros i Hi. apply (Hns i Hi).
      * intros [Hh Hns]. split; [exact Hh |]. right. exact Hns.
    + reflexivity.
    + reflexivity.
    + apply cleanup_nothing_stale. cbn [session_info].
      apply map_empty_filter. intros id i Hi Hs. simpl in Hs.
      apply map_lookup_filter_Some in Hi as [_ Hns]. exact (Hns Hs).
Qed.



Lemma init_fails w :
  current_session_file w = None →
  __init__ w
  = (None,
     set_sessions
       (<[session_name (Z.of_nat (size (sessions w)) + 1) := []]> (sessions w))
       w).
Proof.
  intros H. unfold __init__. rewrite H, length_list_sessions. reflexivity.
Qed.

Lemma attempts_S n w : attempts (S n) w = (__init__ (attempts n w)).2.
Proof. reflexivity. Qed.

(** X16. The manager cannot be constructed without the current-session
    file. When the file is missing, constructing the manager raises (the
    attribute [session_info] is used before it is set), having written one
    more empty history file and nothing else; the file is still missing
    afterwards. So, starting from the histories [session_1] to
    [session_k], after any number [n] of attempts the next attempt raises
    too, and the histories are [session_1] to [session_(k+n)]. *)
Theorem init_never_recovers (k n : nat) (w : world) :
  current_session_file w = None →
  numbered k w →
  let w' := attempts n w in
  (__init__ w').1 = None ∧
  current_session_file w' = None ∧
  session_info_file w' = session_info_file w ∧
  numbered (k + n) w'.
Proof.
  intros Hc Hk. cbv zeta.
  assert (H : current_session_file (attempts n w) = None ∧
              session_info_file (attempts n w) = session_info_file w ∧
              numbered (k + n) (attempts n w)).
  { induction n as [| n IH].
    - rewrite Nat.add_0_r. auto.
    - destruct IH as (IHc & IHi & IHn).
      rewrite attempts_S, (init_fails _ IHc). cbn [snd]. split; [exact IHc |]. split; [exact IHi |].
      rewrite Nat.add_succ_r. apply (numbered_insert _ _ _ IHn).
      cbn [sessions set_sessions]. rewrite (numbered_size _ _ IHn).
      reflexivity. }
  destruct H as (H1 & H2 & H3).
  split; [rewrite (init_fails _ H1); reflexivity | auto].
Qed.

Example init_never_recovers_witness :
  let w := empty_world "/home" (λ _, true) (λ _, true) in
  let w' := attempts 2 w in
  (__init__ w').1 = None ∧
  current_session_file w' = None ∧
  session_info_file w' = session_info_file w ∧
  numbered (0 + 2) w'.
Proof.
  intros w.
  apply (init_never_recovers 0 2 w); [reflexivity | apply numbered_empty].
Defined.

End session_extras.

Section history_extras.

Import EnhancedHistoryManager.

Implicit Types (self : manager) (dir : sessions_dir) (l : list string).

Lemma no_repeat_snoc l c :
  no_repeat l → last l ≠ Some c → no_repeat (l ++ [c]).
Proof.
  induction l as [| a [| b l] IH]; simpl; intros Hl Hlast.
  - exact I.
  - split; [congruence | exact I].
  - destruct Hl as [Hab Hl]. split; [exact Hab |]. apply IH; assumption.
Qed.

Lemma differs_from_last_true l c :
  differs_from_last l c = true ↔ last l ≠ Some c.
Proof.
  unfold differs_from_last. destruct (last l) as [d |].
  - rewrite negb_true_iff, String.eqb_neq. split; congruence.
  - split; [discriminate | reflexivity].
Qed.

Lemma differs_from_last_false l c :
  differs_from_last l c = false ↔ last l = Some c.
Proof.
  unfold differs_from_last. destruct (last l) as [d |].
  - rewrite negb_false_iff, String.eqb_eq. split; congruence.
  - split; discriminate.
Qed.

(** What [add_command] does to a list: the history file and the cache. *)
Lemma appended l c :
  let l' := if differs_from_last l c then l ++ [c] else l in
  last l' = Some c ∧ (no_repeat l → no_repeat l').
Proof.
  simpl. destruct (differs_from_last l c) eqn:E.
  - split; [apply last_snoc |].
    intros H. apply no_repeat_snoc; [exact H |].
    apply differs_from_last_true, E.
  - split; [apply differs_from_last_false, E | auto].
Qed.

(** X17. No command twice in a row. When no history file has the same
    command twice in a row, none has after [add_command], whatever the
    session and the command; the history of the session then ends with the
    command, and the history of every other session is as it was. *)
Theorem add_command_never_repeats (sid command : string)
    (self : manager) (dir : sessions_dir) :
  (∀ s h, dir !! s = Some h → no_repeat h) →
  let '(self', dir') := add_command sid command self dir in
  (∀ s h, dir' !! s = Some h → no_repeat h) ∧
  last (get_session_history sid dir') = Some command ∧
  (∀ s, s ≠ sid → dir' !! s = dir !! s).
Proof.
  intros Hinv. unfold add_command, save_session_history,
    get_session_history.
  pose proof (appended (load_session_history sid dir) command) as [Hl Hn].
  cbv zeta in Hl, Hn. split_and!.
  - intros s h. destruct (decide (s = sid)) as [-> | Hne].
    + rewrite lookup_insert_eq. intros [= <-]. apply Hn.
      unfold load_session_history.
      destruct (dir !! sid) as [h |] eqn:E; [eapply Hinv, E | exact I].
    + rewrite lookup_insert_ne by congruence. apply Hinv.
  - unfold load_session_history at 1. rewrite lookup_insert_eq. exact Hl.
  - intros s Hne. rewrite lookup_insert_ne by congruence. reflexivity.
Qed.

Example add_command_never_repeats_witness :
  let dir : sessions_dir := {[ "session_1" := ["ls"; "pwd"] ]} in
  let '(self', dir') := add_command "session_1" "pwd" (Manager [] None) dir in
  (∀ s h, dir' !! s = Some h → no_repeat h) ∧
  last (get_session_history "session_1" dir') = Some "pwd" ∧
  (∀ s, s ≠ "session_1" → dir' !! s = dir !! s).
Proof.
  intros dir.
  apply (add_command_never_repeats "session_1" "pwd" (Manager [] None) dir).
  intros s h H. apply lookup_singleton_Some in H as [_ <-].
  simpl. split; [discriminate | exact I].
Defined.

Lemma elem_of_all_commands dir x :
  x ∈ all_commands dir ↔ ∃ s h, dir !! s = Some h ∧ x ∈ h.
Proof.
  unfold all_commands. rewrite elem_of_union_list. split.
  - intros (X & HX & Hx). apply list_elem_of_fmap in HX as (h & -> & Hh).
    apply list_elem_of_fmap in Hh as ([s h'] & -> & Hsh).
    apply elem_of_map_to_list in Hsh. apply elem_of_list_to_set in Hx.
    exists s, h'. split; assumption.
  - intros (s & h & Hs & Hx). exists (list_to_set h). split.
    + apply list_elem_of_fmap. exists h. split; [reflexivity |].
      apply list_elem_of_fmap. exists (s, h). split; [reflexivity |].
      apply elem_of_map_to_list. exact Hs.
    + apply elem_of_list_to_set. exact Hx.
Qed.

(** X18. A command just added is known. After [add_command] the next
    [get_all_commands] reads the files again, whatever the times of the
    directory and of the cache: its answer has no duplicates, holds the
    command just added, and holds exactly the commands that occur in some
    history file; the answer is then kept as the cache. *)
Theorem get_all_commands_after_add (sid command : string)
    (mtime cache_timestamp : Q) (self : manager) (dir : sessions_dir) :
  let '(self1, dir1) := add_command sid command self dir in
  let '(all, self2, timestamp) :=
    get_all_commands mtime cache_timestamp self1 dir1 in
  NoDup all ∧ command ∈ all ∧
  (∀ x, x ∈ all ↔ ∃ s h, dir1 !! s = Some h ∧ x ∈ h) ∧
  all_commands_cache self2 = Some all ∧ timestamp = mtime.
Proof.
  pose proof (appended (load_session_history sid dir) command) as [Hl _].
  cbv zeta in Hl.
  unfold add_command, get_all_commands. cbn [all_commands_cache].
  split_and!; try reflexivity.
  - apply NoDup_elements.
  - apply elem_of_elements, elem_of_all_commands.
    eexists sid, _. split; [apply lookup_insert_eq |].
    apply last_Some_elem_of. exact Hl.
  - intros x. rewrite elem_of_elements. apply elem_of_all_commands.
Qed.

Lemma last_drop_lt (n : nat) l :
  (n < length l)%nat → last (drop n l) = last l.
Proof.
  revert l. induction n as [| n IH]; intros l H; [reflexivity |].
  destruct l as [| a [| b l]]; simpl in *; try lia.
  apply (IH (b :: l)). simpl. lia.
Qed.

Lemma slice_last_positive limit l :
  0 < limit →
  slice_last limit l = drop (length l - Z.to_nat limit) l.
Proof.
  intros H. unfold slice_last.
  destruct (0 <? limit) eqn:E; [reflexivity | lia].
Qed.

(** X19. The recent commands. For a limit of at least one,
    [get_recent_commands] gives the last [limit] commands of the cache, or
    all of them when there are fewer, in their order; right after
    [add_command] the answer ends with the command just added. A limit of
    zero gives the whole cache, not an empty list. *)
Theorem get_recent_commands_spec (limit : Z) (sid command : string)
    (self : manager) (dir : sessions_dir) :
  0 < limit →
  let l := current_session_commands self in
  get_recent_commands limit self = drop (length l - Z.to_nat limit) l ∧
  length (get_recent_commands limit self)
  = Nat.min (Z.to_nat limit) (length l) ∧
  last (get_recent_commands limit (add_command sid command self dir).1)
  = Some command ∧
  get_recent_commands 0 self = l.
Proof.
  intros Hlimit l.
  assert (Hrecent : ∀ self',
    get_recent_commands limit self'
    = drop (length (current_session_commands self') - Z.to_nat limit)
        (current_session_commands self')).
  { intros self'. unfold get_recent_commands.
    destruct (current_session_commands self') as [| a l'] eqn:E;
      [rewrite drop_nil; reflexivity |].
    apply slice_last_positive, Hlimit. }
  split_and!.
  - apply Hrecent.
  - rewrite Hrecent, length_drop. fold l. lia.
  - rewrite Hrecent. unfold add_command. cbn [fst current_session_commands].
    pose proof (appended l command) as [Hl _]. cbv zeta in Hl. fold l.
    set (l' := if differs_from_last l command then l ++ [command] else l)
      in *.
    destruct l' as [| a t] eqn:El'; [discriminate |].
    rewrite <- El' in *. clear El'.
    rewrite <- Hl. apply last_drop_lt.
    destruct l'; [discriminate |]. simpl. lia.
  - unfold get_recent_commands. fold l. destruct l; reflexivity.
Qed.

Example get_recent_commands_spec_witness :
  let self := Manager ["ls"; "pwd"; "date"] None in
  let l := current_session_commands self in
  get_recent_commands 2 self = drop (length l - Z.to_nat 2) l ∧
  length (get_recent_commands 2 self) = Nat.min (Z.to_nat 2) (length l) ∧
  last (get_recent_commands 2 (add_command "session_1" "ps" self ∅).1)
  = Some "ps" ∧
  get_recent_commands 0 self = l.
Proof.
  intros self.
  apply (get_recent_commands_spec 2 "session_1" "ps" self ∅). lia.
Defined.

End history_extras.

Section classifier_extras.

Import PyStr UnifiedProcessor.

Lemma drop_prefix_app (p rest : string) : drop_prefix p (p +:+ rest) = Some rest.
Proof.
  induction p as [| a p IH]; simpl; [destruct rest; reflexivity |].
  rewrite Ascii.eqb_refl. exact IH.
Qed.

(** A trailing [\s*] matches whatever follows. *)
Lemma greedy_spaces0_end (seen text : string) :
  greedy is_space (λ _, re_match []) seen text = Some [].
Proof.
  revert seen. induction text as [| c text IH]; intros seen; simpl.
  - reflexivity.
  - destruct (is_space c); [rewrite IH |]; reflexivity.
Qed.

Lemma existsb_matches (patterns : list (list re_item)) pattern text :
  pattern ∈ patterns → matches pattern text = true →
  existsb (λ pattern, matches pattern text) patterns = true.
Proof.
  intros Hin Hm. apply existsb_exists. exists pattern.
  split; [apply list_elem_of_In, Hin | exact Hm].
Qed.

Lemma matches_bare (p rest : string) :
  matches [Lit p; Spaces0] (p +:+ rest) = true.
Proof.
  unfold matches. apply bool_decide_eq_true. simpl.
  rewrite drop_prefix_app, greedy_spaces0_end. eauto.
Qed.

(** X20. A leading command word wins. Whatever follows one of the words
    that [direct_command_patterns] lists with [\s*] ([ls], [pwd], [exit],
    [help], [clear], [ps], [cpu], [mem], [df], [date], [whoami], [uname],
    [history], [stats], [newterm], [sessions]), without even a space in
    between, the input is classified as a direct command: no such input
    reaches the chat, natural-language or file-operation handling. *)
Theorem leading_command_word_is_direct (p rest : string) :
  [Lit p; Spaces0] ∈ direct_command_patterns →
  _classify_input (p +:+ rest) = direct_command.
Proof.
  intros Hin.
  assert (Htoggle : mem (lower (p +:+ rest)) toggle_commands = false).
  { apply list_elem_of_In in Hin. simpl in Hin.
    repeat (destruct Hin as [Hin | Hin];
            [try discriminate Hin; injection Hin as <-; vm_compute;
             reflexivity |]).
    destruct Hin. }
  unfold _classify_input. rewrite Htoggle.
  rewrite (existsb_matches _ _ _ Hin (matches_bare p rest)).
  destruct (_ && _); reflexivity.
Qed.

Example leading_command_word_is_direct_witness :
  [Lit "help"; Spaces0] ∈ direct_command_patterns ∧
  _classify_input ("help" +:+ " me create a folder") = direct_command.
Proof.
  assert (H : [Lit "help"; Spaces0] ∈ direct_command_patterns)
    by (apply list_elem_of_In; vm_compute; tauto).
  split; [exact H |].
  apply (leading_command_word_is_direct "help" " me create a folder" H).
Defined.


Lemma is_word_not_space c : is_word c = true → is_space c = false.
Proof.
  destruct c as [[] [] [] [] [] [] [] []]; vm_compute; congruence.
Qed.

Lemma is_word_lower_char c : is_word c = true → is_word (lower_char c) = true.
Proof.
  destruct c as [[] [] [] [] [] [] [] []]; vm_compute; congruence.
Qed.

Lemma lower_char_idemp c : lower_char (lower_char c) = lower_char c.
Proof. destruct c as [[] [] [] [] [] [] [] []]; reflexivity. Qed.

Lemma lower_idemp s : lower (lower s) = lower s.
Proof.
  induction s as [| c s IH]; simpl; [| rewrite lower_char_idemp, IH];
    reflexivity.
Qed.

Lemma lower_app a b : lower (a +:+ b) = lower a +:+ lower b.
Proof. induction a as [| c a IH]; simpl; [| rewrite IH]; reflexivity. Qed.

Lemma all_word_lower s :
  all_chars is_word s = true → all_chars is_word (lower s) = true.
Proof.
  induction s as [| c s IH]; simpl; [reflexivity |].
  intros [Hc Hs]%andb_true_iff.
  rewrite (is_word_lower_char _ Hc), (IH Hs). reflexivity.
Qed.

Lemma append_cons c (s t : string) : String c s +:+ t = String c (s +:+ t).
Proof. reflexivity. Qed.

Lemma append_nil_r (s : string) : s +:+ "" = s.
Proof.
  induction s as [| c s IH]; [reflexivity |]. rewrite append_cons, IH.
  reflexivity.
Qed.

Lemma append_snoc (a : string) c (b : string) :
  (a +:+ String c "") +:+ b = a +:+ String c b.
Proof.
  induction a as [| d a IH]; [reflexivity |].
  rewrite !append_cons, IH. reflexivity.
Qed.

(** [(\w+)$] on a text of word characters takes all of it. *)
Lemma greedy_word_end (seen s : string) :
  all_chars is_word s = true →
  greedy is_word (λ seen text, cons seen <$> re_match [Eos] text) seen s
  = Some [seen +:+ s].
Proof.
  revert seen. induction s as [| c s IH]; intros seen; simpl.
  - intros _. rewrite append_nil_r. reflexivity.
  - intros [Hc Hs]%andb_true_iff. rewrite Hc, (IH _ Hs), append_snoc.
    reflexivity.
Qed.

Lemma word_end (s : string) :
  s ≠ "" → all_chars is_word s = true → re_match [Word1; Eos] s = Some [s].
Proof.
  destruct s as [| c s]; [congruence |]. intros _. simpl.
  intros [Hc Hs]%andb_true_iff. rewrite Hc.
  apply (greedy_word_end (String c "") s Hs).
Qed.

(** [\s+] before a character that is no space, after one space. *)
Lemma spaces1_single {A} (k : string → string → option A) c rest :
  is_space c = false →
  greedy1 is_space k (" " +:+ String c rest) = k " " (String c rest).
Proof. intros H. simpl. rewrite H. reflexivity. Qed.

Lemma re_match_named (verb noun name : string) c noun' :
  noun = String c noun' → is_space c = false →
  name ≠ "" → all_chars is_word name = true →
  re_match (named verb noun) (verb +:+ " " +:+ noun +:+ " " +:+ name)
  = Some [name].
Proof.
  intros -> Hc Hne Hw. unfold named. cbn [re_match].
  rewrite drop_prefix_app.
  change (String c noun' +:+ " " +:+ name)
    with (String c (noun' +:+ " " +:+ name)).
  rewrite (spaces1_single _ c _ Hc).
  change (String c (noun' +:+ " " +:+ name))
    with (String c noun' +:+ " " +:+ name).
  cbn [re_match]. rewrite drop_prefix_app.
  destruct name as [| d name'] eqn:En; [congruence |]. rewrite <- En in *.
  assert (Hd : is_space d = false).
  { apply is_word_not_space. rewrite En in Hw. simpl in Hw.
    apply andb_true_iff in Hw as [Hd _]. exact Hd. }
  rewrite En at 1. rewrite (spaces1_single _ d _ Hd). rewrite <- En.
  apply word_end; assumption.
Qed.

Lemma lower_nonempty s : s ≠ "" → lower s ≠ "".
Proof. destruct s; [congruence | discriminate]. Qed.

Ltac verb_noun_cases Hverb Hnoun :=
  apply list_elem_of_In in Hverb, Hnoun; simpl in Hverb, Hnoun;
  destruct Hverb as [<- | [<- | [<- | []]]];
  destruct Hnoun as [<- | [<- | []]].

Lemma fast_path_lower verb noun name :
  verb ∈ ["create"; "make"; "new"] → noun ∈ ["folder"; "directory"] →
  lower (fast_path_input verb noun name)
  = fast_path_input verb noun (lower name).
Proof.
  intros Hverb Hnoun. unfold fast_path_input. rewrite !lower_app.
  verb_noun_cases Hverb Hnoun; reflexivity.
Qed.

Lemma fast_path_match verb noun name :
  noun ∈ ["folder"; "directory"] →
  name ≠ "" → all_chars is_word name = true →
  re_match (named verb noun) (fast_path_input verb noun name) = Some [name].
Proof.
  intros Hnoun Hne Hw. apply list_elem_of_In in Hnoun. simpl in Hnoun.
  destruct Hnoun as [<- | [<- | []]];
    eapply re_match_named; try reflexivity; assumption.
Qed.

Lemma fast_path_pattern verb noun :
  verb ∈ ["create"; "make"; "new"] → noun ∈ ["folder"; "directory"] →
  named verb noun ∈ folder_patterns.
Proof.
  intros Hverb Hnoun. apply list_elem_of_In.
  verb_noun_cases Hverb Hnoun; vm_compute; tauto.
Qed.

Lemma fast_path_not_direct verb noun name :
  verb ∈ ["create"; "make"; "new"] → noun ∈ ["folder"; "directory"] →
  let user_input := fast_path_input verb noun name in
  mem (lower user_input) toggle_commands = false ∧
  mem user_input
    [ "ls"; "pwd"; "ps"; "cpu"; "mem"; "df"; "date"; "whoami"; "uname";
      "clear"; "exit"; "history"; "stats"; "newterm"; "sessions" ] = false ∧
  existsb (λ pattern, matches pattern user_input) direct_command_patterns
  = false.
Proof.
  intros Hverb Hnoun.
  verb_noun_cases Hverb Hnoun; vm_compute; repeat split.
Qed.

(** The patterns before index [j] do not match. *)
Ltac earlier_fail j Hy :=
  first
    [ lia
    | destruct j as [| j];
      [ injection Hy as <-; vm_compute; intros [? [=]]
      | earlier_fail j Hy ] ].

(** The pattern at index [i] is the first that matches. *)
Ltac first_match i :=
  exists i; apply list_find_Some; split; [reflexivity |];
  split; [assumption |];
  let j := fresh "j" in let y := fresh "y" in
  let Hy := fresh "Hy" in let Hj := fresh "Hj" in
  intros j y Hy Hj; earlier_fail j Hy.

Lemma fast_path_find verb noun name :
  verb ∈ ["create"; "make"; "new"] → noun ∈ ["folder"; "directory"] →
  is_Some (re_match (named verb noun) (fast_path_input verb noun name)) →
  ∃ i,
    list_find
      (λ pattern,
         is_Some (re_match pattern (fast_path_input verb noun name)))
      folder_patterns = Some (i, named verb noun).
Proof.
  intros Hverb Hnoun.
  verb_noun_cases Hverb Hnoun; intros HP;
    [first_match 0%nat | first_match 3%nat | first_match 1%nat
     | first_match 4%nat | first_match 2%nat | first_match 5%nat].
Qed.

Lemma fast_path_folder_name verb noun name :
  verb ∈ ["create"; "make"; "new"] → noun ∈ ["folder"; "directory"] →
  name ≠ "" → all_chars is_word name = true →
  folder_name (fast_path_input verb noun name) = Some (lower name).
Proof.
  intros Hverb Hnoun Hne Hw.
  pose proof (lower_nonempty _ Hne) as Hne'.
  pose proof (all_word_lower _ Hw) as Hw'.
  pose proof (fast_path_match verb _ _ Hnoun Hne' Hw') as Hmatch.
  unfold folder_name. rewrite (fast_path_lower _ _ name Hverb Hnoun).
  destruct (fast_path_find _ _ (lower name) Hverb Hnoun) as [i Hfind].
  { rewrite Hmatch. eauto. }
  rewrite Hfind. cbn [mbind option_bind].
  unfold group1. rewrite Hmatch. cbn [mbind option_bind head].
  destruct (String.eqb_spec (lower name) ""); [contradiction | reflexivity].
Qed.

(** X21. The fast path for folders. For a verb among [create], [make],
    [new], a noun among [folder], [directory] and a name made of letters,
    digits and underscores, the input [<verb> <noun> <name>] is classified
    as a simple folder creation, and the folder name handed to [mkdir] is
    the name in lower case: capital letters of the name are lost. *)
Theorem folder_fast_path (verb noun name : string) :
  verb ∈ ["create"; "make"; "new"] → noun ∈ ["folder"; "directory"] →
  name ≠ "" → all_chars is_word name = true →
  let user_input := verb +:+ " " +:+ noun +:+ " " +:+ name in
  _classify_input user_input = simple_folder_creation ∧
  folder_name user_input = Some (lower name).
Proof.
  intros Hverb Hnoun Hne Hw.
  fold (fast_path_input verb noun name). intros user_input.
  split; [| apply fast_path_folder_name; assumption].
  pose proof (lower_nonempty _ Hne) as Hne'.
  pose proof (all_word_lower _ Hw) as Hw'.
  pose proof (fast_path_lower _ _ name Hverb Hnoun) as Hlower.
  pose proof (fast_path_match verb _ _ Hnoun Hne' Hw') as Hmatch.
  pose proof (fast_path_pattern _ _ Hverb Hnoun) as Hin.
  destruct (fast_path_not_direct _ _ name Hverb Hnoun) as (H1 & H2 & H3).
  fold user_input in Hlower, H1, H2, H3. rewrite <- Hlower in Hmatch.
  unfold _classify_input. rewrite H1, H2, andb_false_r, H3.
  unfold _is_simple_folder_creation. rewrite lower_idemp.
  rewrite (existsb_matches _ _ _ Hin); [reflexivity |].
  unfold matches. apply bool_decide_eq_true. rewrite Hmatch. eauto.
Qed.

Example folder_fast_path_witness :
  let user_input := "make" +:+ " " +:+ "directory" +:+ " " +:+ "Docs_2" in
  _classify_input user_input = simple_folder_creation ∧
  folder_name user_input = Some (lower "Docs_2").
Proof.
  apply (folder_fast_path "make" "directory" "Docs_2").
  - apply list_elem_of_In. vm_compute. tauto.
  - apply list_elem_of_In. vm_compute. tauto.
  - discriminate.
  - reflexivity.
Defined.

Ltac verb_cases Hverb :=
  apply list_elem_of_In in Hverb; simpl in Hverb;
  destruct Hverb as [<- | [<- | [<- | []]]].

Lemma file_path_lower verb name :
  verb ∈ ["create"; "make"; "new"] →
  lower (fast_path_input verb "file" name)
  = fast_path_input verb "file" (lower name).
Proof.
  intros Hverb. unfold fast_path_input. rewrite !lower_app.
  verb_cases Hverb; reflexivity.
Qed.

Lemma file_path_match verb name :
  name ≠ "" → all_chars is_word name = true →
  re_match (named verb "file") (fast_path_input verb "file" name)
  = Some [name].
Proof.
  intros Hne Hw. eapply re_match_named; try reflexivity; assumption.
Qed.

Lemma file_path_pattern verb :
  verb ∈ ["create"; "make"; "new"] → named verb "file" ∈ file_patterns.
Proof.
  intros Hverb. apply list_elem_of_In.
  verb_cases Hverb; vm_compute; tauto.
Qed.

Lemma file_path_not_earlier verb name :
  verb ∈ ["create"; "make"; "new"] →
  let user_input := fast_path_input verb "file" name in
  mem (lower user_input) toggle_commands = false ∧
  mem user_input
    [ "ls"; "pwd"; "ps"; "cpu"; "mem"; "df"; "date"; "whoami"; "uname";
      "clear"; "exit"; "history"; "stats"; "newterm"; "sessions" ] = false ∧
  existsb (λ pattern, matches pattern user_input) direct_command_patterns
  = false ∧
  _is_simple_folder_creation (lower user_input) = false.
Proof.
  intros Hverb. verb_cases Hverb; vm_compute; repeat split.
Qed.

Lemma file_path_find verb name :
  verb ∈ ["create"; "make"; "new"] →
  is_Some (re_match (named verb "file") (fast_path_input verb "file" name)) →
  ∃ i,
    list_find
      (λ pattern,
         is_Some (re_match pattern (fast_path_input verb "file" name)))
      file_patterns = Some (i, named verb "file").
Proof.
  intros Hverb.
  verb_cases Hverb; intros HP;
    [first_match 0%nat | first_match 1%nat | first_match 2%nat].
Qed.

Lemma file_path_file_name verb name :
  verb ∈ ["create"; "make"; "new"] →
  name ≠ "" → all_chars is_word name = true →
  file_name (fast_path_input verb "file" name) = Some (lower name).
Proof.
  intros Hverb Hne Hw.
  pose proof (lower_nonempty _ Hne) as Hne'.
  pose proof (all_word_lower _ Hw) as Hw'.
  pose proof (file_path_match verb _ Hne' Hw') as Hmatch.
  unfold file_name. rewrite (file_path_lower _ name Hverb).
  destruct (file_path_find _ (lower name) Hverb) as [i Hfind].
  { rewrite Hmatch. eauto. }
  rewrite Hfind. cbn [mbind option_bind].
  unfold group1. rewrite Hmatch. cbn [mbind option_bind head].
  destruct (String.eqb_spec (lower name) ""); [contradiction | reflexivity].
Qed.

Lemma file_path_classified verb name :
  verb ∈ ["create"; "make"; "new"] →
  name ≠ "" → all_chars is_word name = true →
  _classify_input (fast_path_input verb "file" name) = simple_file_creation.
Proof.
  intros Hverb Hne Hw.
  pose proof (lower_nonempty _ Hne) as Hne'.
  pose proof (all_word_lower _ Hw) as Hw'.
  pose proof (file_path_lower _ name Hverb) as Hlower.
  pose proof (file_path_match verb _ Hne' Hw') as Hmatch.
  pose proof (file_path_pattern _ Hverb) as Hin.
  destruct (file_path_not_earlier _ name Hverb) as (H1 & H2 & H3 & H4).
  rewrite <- Hlower in Hmatch.
  unfold _classify_input. rewrite H1, H2, andb_false_r, H3, H4.
  unfold _is_simple_file_creation. rewrite lower_idemp.
  rewrite (existsb_matches _ _ _ Hin); [reflexivity |].
  unfold matches. apply bool_decide_eq_true. rewrite Hmatch. eauto.
Qed.

End classifier_extras.

Section grep_extras.

Import Terminal.

Lemma elem_of_grep_lines pattern file_path (first : Z) lines entry :
  entry ∈ grep_lines pattern file_path first lines ↔
  ∃ (n : nat) line,
    lines !! n = Some line ∧ PyStr.contains pattern line = true ∧
    entry = file_path +:+ ":" +:+ PyStr.str_int (first + Z.of_nat n)
              +:+ ": " +:+ PyStr.strip line.
Proof.
  revert first. induction lines as [| l lines IH]; intros first; simpl.
  - rewrite elem_of_nil. split; [tauto |]. intros (n & line & H & _).
    rewrite lookup_nil in H. discriminate.
  - destruct (PyStr.contains pattern l) eqn:E.
    + rewrite elem_of_cons, IH. split.
      * intros [-> | (n & line & Hn & Hc & ->)].
        -- exists 0%nat, l. rewrite Z.add_0_r. auto.
        -- exists (S n), line. split; [exact Hn |]. split; [exact Hc |].
           replace (first + Z.of_nat (S n)) with (first + 1 + Z.of_nat n)
             by lia. reflexivity.
      * intros ([| n] & line & Hn & Hc & ->).
        -- left. injection Hn as <-. rewrite Z.add_0_r. reflexivity.
        -- right. exists n, line. split; [exact Hn |]. split; [exact Hc |].
           replace (first + Z.of_nat (S n)) with (first + 1 + Z.of_nat n)
             by lia. reflexivity.
    + rewrite IH. split.
      * intros (n & line & Hn & Hc & ->). exists (S n), line.
        split; [exact Hn |]. split; [exact Hc |].
        replace (first + Z.of_nat (S n)) with (first + 1 + Z.of_nat n)
          by lia. reflexivity.
      * intros ([| n] & line & Hn & Hc & ->).
        -- injection Hn as <-. congruence.
        -- exists n, line. split; [exact Hn |]. split; [exact Hc |].
           replace (first + Z.of_nat (S n)) with (first + 1 + Z.of_nat n)
             by lia. reflexivity.
Qed.

Lemma length_grep_lines pattern file_path (first : Z) lines :
  length (grep_lines pattern file_path first lines)
  = length (List.filter (PyStr.contains pattern) lines).
Proof.
  revert first. induction lines as [| l lines IH]; intros first; simpl;
    [reflexivity |].
  destruct (PyStr.contains pattern l); simpl; rewrite IH; reflexivity.
Qed.

(** X22. What [grep] reports. On a file that exists and can be read,
    [grep] answers with one entry for each line of the file that contains
    the pattern and with no other: the entry of line [n], counted from 1
    in the file, is the path, [n] and the line stripped of surrounding
    white space. When no line contains the pattern the answer says so.
    The only host call is the reading of the file, and no lock is looked
    at. *)
Theorem grep_reports_matching_lines (h : host) (pattern file_path : string)
    (more : list string) (lines : list string) (sid : string) (w : world) :
  path_exists h file_path = true → isfile h file_path = true →
  os h _ (ReadLines file_path) = Ok lines →
  ∃ matches,
    run_command h "grep" (pattern :: file_path :: more) sid w
    = (Ok (match matches with
           | [] => "Pattern '" +:+ pattern +:+ "' not found in " +:+ file_path
           | _ => PyStr.join nl matches
           end),
       World (lock_file w) (clock w) (others w) (stdin w)
         (trace w ++ [Called (ReadLines file_path)])) ∧
    length matches = length (List.filter (PyStr.contains pattern) lines) ∧
    ∀ entry, entry ∈ matches ↔
      ∃ (n : nat) line,
        lines !! n = Some line ∧ PyStr.contains pattern line = true ∧
        entry = file_path +:+ ":" +:+ PyStr.str_int (1 + Z.of_nat n)
                  +:+ ": " +:+ PyStr.strip line.
Proof.
  intros Hex Hfile Hread.
  exists (grep_lines pattern file_path 1 lines). split; [| split].
  - unfold run_command, try_except, dispatch. simpl.
    unfold cmd_grep. rewrite Hex, Hfile. simpl.
    unfold try_except, mbind, M_bind, sys. rewrite Hread.
    destruct (grep_lines pattern file_path 1 lines); reflexivity.
  - apply length_grep_lines.
  - intros entry. apply elem_of_grep_lines.
Qed.

Example grep_reports_matching_lines_witness :
  let lines := ["alpha" +:+ nl; "beta" +:+ nl; "alphabet" +:+ nl] in
  let h := reading_host lines in
  let w := World ∅ 0 [] [] [] in
  ∃ matches,
    run_command h "grep" ["alpha"; "notes.txt"] "A" w
    = (Ok (match matches with
           | [] => "Pattern '" +:+ "alpha" +:+ "' not found in "
                     +:+ "notes.txt"
           | _ => PyStr.join nl matches
           end),
       World ∅ 0 [] [] [Called (ReadLines "notes.txt")]) ∧
    length matches = 2%nat.
Proof.
  intros lines h w.
  destruct (grep_reports_matching_lines h "alpha" "notes.txt" [] lines "A" w
              eq_refl eq_refl eq_refl) as (matches & Hrun & Hlen & _).
  exists matches. split; [exact Hrun | exact Hlen].
Defined.

End grep_extras.

Section handler_extras.

Import Terminal UnifiedHandlers.

Lemma run_cd h directory more sid w :
  run_command h "cd" (directory :: more) sid w
  = (match os h _ (Chdir directory) with
     | Ok _ => Ok ""
     | Fail e => if is_OSError (cls e) then Ok ("Error: " +:+ str e)
                 else if is_Exception (cls e) then Ok ("Error: " +:+ str e)
                 else Fail e
     end,
     World (lock_file w) (clock w) (others w) (stdin w)
       (trace w ++ [Called (Chdir directory)])).
Proof.
  unfold run_command, try_except, dispatch. simpl.
  unfold cmd_cd, try_except, mbind, M_bind, sys.
  destruct (os h _ (Chdir directory)) as [[] | e]; simpl; [reflexivity |].
  destruct (is_OSError (cls e)) eqn:E1; simpl; [reflexivity |].
  destruct (is_Exception (cls e)) eqn:E2; simpl; reflexivity.
Qed.

(** X23. A change of directory is recorded in the manager. When the first
    word of a direct command is [cd] and the host enters the directory,
    the handler asks the host where the process now is and records that
    for the session in the manager object; the reply carries an empty
    result. The metadata file is rewritten with it only when [data/] seen
    from the new directory is the data directory of the manager; otherwise
    the stored file stays as it was. When the host refuses with a
    filesystem error the reply carries the error text, the host is not
    asked where the process is, and the manager and its files stay as they
    were. Either way the lock file is left as it is. *)
Theorem cd_is_recorded (h : host) (look : string → SessionManager.view)
    (now : Q) (user_input sid directory here : string) (more : list string)
    (meta : SessionManager.session_meta) (s : state) :
  PyStr.split user_input = "cd" :: directory :: more →
  os h _ Getcwd = Ok here →
  SessionManager.session_info (session_manager s) !! sid = Some meta →
  let '(r, s') := _handle_direct_command h look now user_input sid s in
  lock_file (terminal s') = lock_file (terminal s) ∧
  match os h _ (Chdir directory) with
  | Ok _ =>
      r = Ok (Reply "direct_command" "" ("Executed: " +:+ user_input)
                (Some "cd") (Some (directory :: more)) None None) ∧
      trace (terminal s')
      = trace (terminal s) ++ [Called (Chdir directory); Called Getcwd] ∧
      SessionManager.cwd (data s') = here ∧
      SessionManager.get_working_directory sid (session_manager s') (data s')
      = here ∧
      SessionManager.session_info_file (data s')
      = match look here with
        | SessionManager.same_data =>
            SessionManager.session_info (session_manager s')
        | SessionManager.other_data | SessionManager.unwritable =>
            SessionManager.session_info_file (data s)
        end
  | Fail e =>
      is_OSError (cls e) = true →
      r = Ok (Reply "direct_command" ("Error: " +:+ str e)
                ("Executed: " +:+ user_input)
                (Some "cd") (Some (directory :: more)) None None) ∧
      trace (terminal s') = trace (terminal s) ++ [Called (Chdir directory)] ∧
      session_manager s' = session_manager s ∧ data s' = data s
  end.
Proof.
  intros Hsplit Hcwd Hmeta.
  unfold _handle_direct_command, except_Exception. rewrite Hsplit.
  unfold mbind, H_bind, in_terminal. rewrite run_cd.
  destruct (os h _ (Chdir directory)) as [[] | e] eqn:Echdir.
  - cbn. unfold getcwd, sys. rewrite Hcwd.
    unfold update_working_directory,
      SessionManager.update_working_directory. cbn. rewrite Hmeta. cbn.
    unfold SessionManager.get_working_directory.
    destruct (look here); cbn; rewrite lookup_insert_eq;
      (split; [reflexivity |]); (split; [reflexivity |]);
      (split; [rewrite <- app_assoc; reflexivity |]); repeat split.
  - destruct (is_OSError (cls e)) eqn:E1.
    + cbn. destruct s as [t m d]; cbn.
      split; [reflexivity |]. intros _. repeat split.
    + destruct (is_Exception (cls e)) eqn:E2; cbn; rewrite ?E2; cbn;
        (split; [reflexivity | intros [=]]).
Qed.

(** The session manager works in [/home]; [cd /] takes the process to a
    directory without [data]: the manager object records [/], the
    metadata file still says [/home]. *)
Example cd_is_recorded_witness :
  let meta := SessionManager.SessionMeta "/home" 5 5 None in
  let s := State (World ∅ 0 [] [] [])
             (SessionManager.Manager {[ "session_1" := meta ]})
             (SessionManager.World {[ "session_1" := [] ]} None
                {[ "session_1" := meta ]} ∅ "/home" (λ _, true) (λ _, true)) in
  let look := λ d, if String.eqb d "/home" then SessionManager.same_data
                   else SessionManager.unwritable in
  let '(r, s') :=
    _handle_direct_command quiet_host look 9 "cd /" "session_1" s in
  r = Ok (Reply "direct_command" "" "Executed: cd /" (Some "cd")
            (Some ["/"]) None None) ∧
  SessionManager.get_working_directory "session_1" (session_manager s')
    (data s') = "/" ∧
  SessionManager.session_info_file (data s') !! "session_1" = Some meta.
Proof.
  intros meta s look.
  pose proof (cd_is_recorded quiet_host look 9 "cd /" "session_1" "/" "/" []
                meta s eq_refl eq_refl eq_refl) as H.
  destruct (_handle_direct_command quiet_host look 9 "cd /" "session_1" s)
    as [r s'].
  destruct H as (_ & Hr & _ & _ & Hdir & Hfile).
  split; [exact Hr |]. split; [exact Hdir |].
  change (look "/") with SessionManager.unwritable in Hfile.
  rewrite Hfile. reflexivity.
Defined.

(** X24. A folder request, end to end. For an input [<verb> <noun>
    <name>] of the fast path the handler runs [mkdir] on the name in lower
    case, under the lock protocol: the reply carries the text [mkdir]
    returned, the session does not hold the lock on the folder afterwards,
    and either the text is the busy message and the host was not called,
    or the one call that creates the folder was made. The message of the
    reply says [Created folder] in both cases. The session manager is not
    involved. *)
Theorem folder_request_end_to_end (h : host) (verb noun name sid : string)
    (s : state) :
  verb ∈ ["create"; "make"; "new"] → noun ∈ ["folder"; "directory"] →
  name ≠ "" → PyStr.all_chars PyStr.is_word name = true →
  mutation_errors_are_OSError h →
  let user_input := verb +:+ " " +:+ noun +:+ " " +:+ name in
  let target := PyStr.lower name in
  ∃ output w',
    _handle_simple_folder_creation h user_input sid s
    = (Ok (Reply "simple_folder_creation" output
             ("Created folder: " +:+ target) None None (Some target)
             None),
       State w' (session_manager s) (data s)) ∧
    ¬ held_by (lock_file w') sid (abspath h target) ∧
    ((output = busy ∧ trace w' = trace (terminal s)) ∨
     (output ≠ busy ∧
      trace w' = trace (terminal s) ++ [Called (Makedirs target)])).
Proof.
  intros Hverb Hnoun Hne Hw Hos user_input target.
  assert (Hmkdir : ∃ output w',
    run_command h "mkdir" [target] sid (terminal s) = (Ok output, w') ∧
    ¬ held_by (lock_file w') sid (abspath h target) ∧
    ((output = busy ∧ trace w' = trace (terminal s)) ∨
     (output ≠ busy ∧
      trace w' = trace (terminal s) ++ [Called (Makedirs target)]))).
  { destruct (one_path_run h "mkdir" target [] sid (or_introl eq_refl) Hos)
      as (work & Hframe & Htrace & Hres & Herr & Hrun).
    rewrite Hrun. unfold try_except at 1.
    destruct (locked_single_cases h sid target is_OSError work Hframe
                (terminal s))
      as [(msg & w' & -> & Hheld & _ & Hout) | (e & w2 & _ & He & Hh & _)];
      [| rewrite (Herr _ _ He) in Hh; discriminate].
    exists msg, w'. split; [reflexivity |]. split; [exact Hheld |].
    destruct Hout as [(-> & Ht & _) | (w2 & r & Ht2 & _ & Ht' & _ & Hr & Hmsg)];
      [left; auto |].
    right. split.
    - destruct Hmsg as [-> | (e & -> & ->)]; [apply (Hres _ _ Hr) |].
      discriminate.
    - rewrite Ht', Htrace, Ht2. reflexivity. }
  destruct Hmkdir as (output & w' & Hrun & Hheld & Hout).
  exists output, w'. split; [| split; [exact Hheld | exact Hout]].
  unfold _handle_simple_folder_creation, except_Exception.
  subst user_input. fold (UnifiedProcessor.fast_path_input verb noun name).
  rewrite (fast_path_folder_name _ _ _ Hverb Hnoun Hne Hw).
  unfold mbind, H_bind, in_terminal. fold target. rewrite Hrun. reflexivity.
Qed.

Example folder_request_end_to_end_witness :
  let s := State (World {[ "docs" := LockInfo "B" 0 ]} 1 [] [] [])
             (SessionManager.Manager ∅)
             (SessionManager.empty_world "/" (λ _, true) (λ _, true)) in
  ∃ output w',
    _handle_simple_folder_creation quiet_host
      ("create" +:+ " " +:+ "folder" +:+ " " +:+ "Docs") "A" s
    = (Ok (Reply "simple_folder_creation" output
             ("Created folder: " +:+ PyStr.lower "Docs") None None
             (Some (PyStr.lower "Docs")) None),
       State w' (session_manager s) (data s)) ∧
    ¬ held_by (lock_file w') "A" (abspath quiet_host (PyStr.lower "Docs")).
Proof.
  intros s.
  destruct (folder_request_end_to_end quiet_host "create" "folder" "Docs"
              "A" s) as (output & w' & Hrun & Hheld & _).
  - apply list_elem_of_In. vm_compute. tauto.
  - apply list_elem_of_In. vm_compute. tauto.
  - discriminate.
  - reflexivity.
  - intros A c e Ht H. destruct c; simpl in *; discriminate.
  - exists output, w'. split; assumption.
Defined.

(** X25. A file request, end to end. For a verb among [create], [make],
    [new] and a name made of letters, digits and underscores, the input
    [<verb> file <name>] is classified as a simple file creation, and its
    handler runs [touch] on the name in lower case, under the lock
    protocol: the reply carries the text [touch] returned, the session
    does not hold the lock on the file afterwards, and either the text is
    the busy message and the host was not called, or the one call that
    creates the file was made. *)
Theorem file_request_end_to_end (h : host) (verb name sid : string)
    (s : state) :
  verb ∈ ["create"; "make"; "new"] →
  name ≠ "" → PyStr.all_chars PyStr.is_word name = true →
  mutation_errors_are_OSError h →
  let user_input := verb +:+ " " +:+ "file" +:+ " " +:+ name in
  let target := PyStr.lower name in
  UnifiedProcessor._classify_input user_input
  = UnifiedProcessor.simple_file_creation ∧
  ∃ output w',
    _handle_simple_file_creation h user_input sid s
    = (Ok (Reply "simple_file_creation" output
             ("Created file: " +:+ target) None None None (Some target)),
       State w' (session_manager s) (data s)) ∧
    ¬ held_by (lock_file w') sid (abspath h target) ∧
    ((output = busy ∧ trace w' = trace (terminal s)) ∨
     (output ≠ busy ∧
      trace w' = trace (terminal s) ++ [Called (Touch target)])).
Proof.
  intros Hverb Hne Hw Hos user_input target.
  split; [apply (file_path_classified verb name Hverb Hne Hw) |].
  assert (Htouch : ∃ output w',
    run_command h "touch" [target] sid (terminal s) = (Ok output, w') ∧
    ¬ held_by (lock_file w') sid (abspath h target) ∧
    ((output = busy ∧ trace w' = trace (terminal s)) ∨
     (output ≠ busy ∧
      trace w' = trace (terminal s) ++ [Called (Touch target)]))).
  { destruct (one_path_run h "touch" target [] sid
                (or_intror (or_introl eq_refl)) Hos)
      as (work & Hframe & Htrace & Hres & Herr & Hrun).
    rewrite Hrun. unfold try_except at 1.
    destruct (locked_single_cases h sid target is_OSError work Hframe
                (terminal s))
      as [(msg & w' & -> & Hheld & _ & Hout) | (e & w2 & _ & He & Hh & _)];
      [| rewrite (Herr _ _ He) in Hh; discriminate].
    exists msg, w'. split; [reflexivity |]. split; [exact Hheld |].
    destruct Hout as [(-> & Ht & _) | (w2 & r & Ht2 & _ & Ht' & _ & Hr & Hmsg)];
      [left; auto |].
    right. split.
    - destruct Hmsg as [-> | (e & -> & ->)]; [apply (Hres _ _ Hr) |].
      discriminate.
    - rewrite Ht', Htrace, Ht2. reflexivity. }
  destruct Htouch as (output & w' & Hrun & Hheld & Hout).
  exists output, w'. split; [| split; [exact Hheld | exact Hout]].
  unfold _handle_simple_file_creation, except_Exception.
  subst user_input. fold (UnifiedProcessor.fast_path_input verb "file" name).
  rewrite (file_path_file_name _ _ Hverb Hne Hw).
  unfold mbind, H_bind, in_terminal. fold target. rewrite Hrun. reflexivity.
Qed.

Example file_request_end_to_end_witness :
  let s := State (World ∅ 1 [] [] [])
             (SessionManager.Manager ∅)
             (SessionManager.empty_world "/" (λ _, true) (λ _, true)) in
  UnifiedProcessor._classify_input
    ("new" +:+ " " +:+ "file" +:+ " " +:+ "Notes")
  = UnifiedProcessor.simple_file_creation ∧
  ∃ output w',
    _handle_simple_file_creation quiet_host
      ("new" +:+ " " +:+ "file" +:+ " " +:+ "Notes") "A" s
    = (Ok (Reply "simple_file_creation" output
             ("Created file: " +:+ PyStr.lower "Notes") None None None
             (Some (PyStr.lower "Notes"))),
       State w' (session_manager s) (data s)) ∧
    ¬ held_by (lock_file w') "A" (abspath quiet_host (PyStr.lower "Notes")).
Proof.
  intros s.
  destruct (file_request_end_to_end quiet_host "new" "Notes" "A" s)
    as (Hclass & output & w' & Hrun & Hheld & _).
  - apply list_elem_of_In. vm_compute. tauto.
  - discriminate.
  - reflexivity.
  - intros A c e Ht H. destruct c; simpl in *; discriminate.
  - split; [exact Hclass |]. exists output, w'. split; assumption.
Defined.

End handler_extras.
